(** * Nabu feedback pipeline: classification and executive summary

    A shallow embedding of the TypeScript sources
      - lib/embeddings.ts      (label anchors, cosine similarity)
      - lib/batchClassifier.ts (bulk classification job)
      - lib/classifier.ts      (single-item classification, persistence)
      - lib/summary.ts         (window selection, summary composer)
      - index.ts               (urgency column of the read queries)

    JavaScript numbers are IEEE 754 binary64 values, modelled by Rocq's
    primitive floats.  Integer counts coming from SQL [COUNT] are [Z].
    [Record<string, T>] objects are [gmap string T].  Calls to the AI
    binding and to the D1 database go through an explicit world state that
    logs every request; both services are oracles indexed by the number of
    the call, so that they may fail on one call and succeed on another. *)

From Stdlib Require Import Floats ZArith Lia List String Ascii Bool.
From Stdlib Require Import DecimalString Sorted.
From stdpp Require Import base option list gmap strings.
Import ListNotations.

(* Decimal literals such as [0.65] denote the nearest binary64 value, as
   they do in JavaScript. *)
Set Warnings "-inexact-float".

Local Open Scope Z_scope.
Local Open Scope string_scope.
Local Open Scope list_scope.

(* ------------------------------------------------------------------ *)
(** * JavaScript numbers *)
(* ------------------------------------------------------------------ *)

Module Num.

Definition number : Type := float.

(** [a > b], [a < b], [a >= b], [a <= b], [a === b] on numbers. *)
Definition gt (a b : number) : bool := PrimFloat.ltb b a.
Definition lt (a b : number) : bool := PrimFloat.ltb a b.
Definition ge (a b : number) : bool := PrimFloat.leb b a.
Definition le (a b : number) : bool := PrimFloat.leb a b.
Definition strict_eq (a b : number) : bool := PrimFloat.eqb a b.

Definition isNaN (a : number) : bool := PrimFloat.is_nan a.

(** ToBoolean on a number: [0], [-0] and [NaN] are falsy. *)
Definition truthy (a : number) : bool :=
  negb (PrimFloat.eqb a 0%float || PrimFloat.is_nan a).

(** [Math.abs] and [Math.sqrt]. *)
Definition abs (a : number) : number := PrimFloat.abs a.
Definition sqrt (a : number) : number := PrimFloat.sqrt a.

End Num.

(* ------------------------------------------------------------------ *)
(** * JavaScript strings *)
(* ------------------------------------------------------------------ *)

Module JsString.

(** [s.split(sep)] for a separator of one character.  The result is
    never empty: [''.split(' ')] is [['']]. *)
Fixpoint split (sep : ascii) (s : string) : list string :=
  match s with
  | EmptyString => [EmptyString]
  | String c rest =>
      if Ascii.eqb c sep then EmptyString :: split sep rest
      else match split sep rest with
           | w :: ws => String c w :: ws
           | [] => [String c EmptyString]
           end
  end.

(** [s.startsWith(p)]. *)
Definition startsWith (s p : string) : bool := String.prefix p s.

(** [s.substring(0, n)]. *)
Definition substring0 (n : nat) (s : string) : string :=
  String.substring 0 n s.

(** [l.join(sep)]. *)
Definition join (sep : string) (l : list string) : string :=
  String.concat sep l.

(** Template interpolation of an integer count. *)
Definition ofZ (z : Z) : string := NilZero.string_of_int (Z.to_int z).

(** ToBoolean on a string: only the empty string is falsy. *)
Definition truthy (s : string) : bool :=
  match s with EmptyString => false | String _ _ => true end.

(** Whitespace in the sense of the specification's data model: the
    characters [\s] matches among the 7-bit ones. *)
Definition is_whitespace (c : ascii) : bool :=
  let n := nat_of_ascii c in
  (Nat.eqb n 32 || (Nat.leb 9 n && Nat.leb n 13))%bool.

Fixpoint dropWhile (p : ascii -> bool) (s : string) : string :=
  match s with
  | EmptyString => EmptyString
  | String c rest => if p c then dropWhile p rest else s
  end.

Fixpoint takeWhile (p : ascii -> bool) (s : string) : string :=
  match s with
  | EmptyString => EmptyString
  | String c rest => if p c then String c (takeWhile p rest) else EmptyString
  end.

(** The first whitespace-delimited token of a text (the words of the
    specification, not the code: the code is [extractLabelName]). *)
Definition first_whitespace_token (s : string) : string :=
  takeWhile (fun c => negb (is_whitespace c)) (dropWhile is_whitespace s).

End JsString.

(* ------------------------------------------------------------------ *)
(** * Exceptions, the world and the job monad *)
(* ------------------------------------------------------------------ *)

(** A thrown value: an instance of [Error] (with its [name] and
    [message]) or any other value. *)
Inductive thrown : Type :=
| ErrorInstance (name message : string)
| NonError.

(** [error instanceof Error ? error.message : 'Unknown error'] *)
Definition errorMessage (e : thrown) : string :=
  match e with
  | ErrorInstance _ m => m
  | NonError => "Unknown error"
  end.

(** Result of running a piece of code: a value, an exception, or the
    loop budget of the model ran out (never the case for the budgets
    the job uses, see [embedChunks_returns] and [saveChunks_returns]). *)
Inductive outcome (A : Type) : Type :=
| Ok (a : A)
| Throw (e : thrown)
| Fuel.
Arguments Ok {A} a.
Arguments Throw {A} e.
Arguments Fuel {A}.

Definition obind {A B} (m : outcome A) (k : A -> outcome B) : outcome B :=
  match m with
  | Ok a => k a
  | Throw e => Throw e
  | Fuel => Fuel
  end.

(** [l.map(f)] for a callback that may throw: the first exception, in
    index order, aborts the map.  The callback receives the index. *)
Fixpoint mapi_throw {A B} (f : A -> nat -> outcome B) (i : nat) (l : list A)
  : outcome (list B) :=
  match l with
  | [] => Ok []
  | x :: xs =>
      obind (f x i) (fun y =>
      obind (mapi_throw f (S i) xs) (fun ys => Ok (y :: ys)))
  end.

(** [l.reduce(f)] without an initial value: a [TypeError] on the empty
    array, otherwise a left fold seeded with the first element. *)
Definition reduce1 {A} (f : A -> A -> A) (l : list A) : outcome A :=
  match l with
  | [] => Throw (ErrorInstance "TypeError"
                   "Reduce of empty array with no initial value")
  | x :: xs => Ok (fold_left f xs x)
  end.

(** [l.reduce(f, init)] with the index passed to the callback. *)
Fixpoint reduce_indexed {A B} (f : B -> A -> nat -> B) (acc : B) (i : nat)
  (l : list A) : B :=
  match l with
  | [] => acc
  | x :: xs => reduce_indexed f (f acc x i) (S i) xs
  end.

(** [l.slice(i, j)]. *)
Definition slice {A} (i j : nat) (l : list A) : list A :=
  firstn (j - i) (skipn i l).

(* ------------------------------------------------------------------ *)
(** * lib/embeddings.ts *)
(* ------------------------------------------------------------------ *)

Definition number : Type := Num.number.
Definition vector : Type := list number.

Record LabelDefinition : Type := mkLabelDefinition {
  def_category : string;
  def_labels : list string }.

Record LabelEmbedding : Type := mkLabelEmbedding {
  le_label : string;
  le_embedding : vector }.

Record CategoryEmbeddings : Type := mkCategoryEmbeddings {
  ce_category : string;
  ce_embeddings : list LabelEmbedding }.

Definition LABEL_DEFINITIONS : list LabelDefinition :=
  [ mkLabelDefinition "products"
      [ "D1 Cloudflare database SQL storage querying";
        "KV Workers key-value store caching";
        "AI Workers machine learning inference models";
        "R2 object storage buckets files";
        "Workflows orchestration stateful functions";
        "DDoS protection security mitigation" ];
    mkLabelDefinition "polarity"
      [ "positive satisfied excellent working well happy pleased";
        "neutral okay fine average acceptable functional";
        "negative frustrated broken failing disappointed angry" ];
    mkLabelDefinition "urgency"
      [ "critical urgent blocking production emergency immediate down";
        "high priority important impacting significant";
        "medium normal standard routine moderate";
        "low minor casual suggestion nice-to-have future" ];
    mkLabelDefinition "feedbackType"
      [ "bug error failure broken crash exception not working";
        "feature_request enhancement new capability need want";
        "documentation help guide tutorial unclear confusing";
        "performance slow latency timeout speed optimization";
        "pricing cost billing expensive tier limit quota" ];
    mkLabelDefinition "churnRisk"
      [ "high risk leaving switching competitor alternative canceling frustrated quitting";
        "medium risk neutral evaluating considering exploring options unsure";
        "low risk satisfied staying committed continuing happy loyal" ] ].

(** [vecB[i]]: reading past the end gives [undefined], which the
    arithmetic turns into [NaN]. *)
Definition vec_get (v : vector) (i : nat) : number := nth i v PrimFloat.nan.

Definition dotProduct (vecA vecB : vector) : number :=
  reduce_indexed (fun sum a i => (sum + a * vec_get vecB i)%float)
    0%float 0%nat vecA.

Definition magnitude (v : vector) : number :=
  Num.sqrt (fold_left (fun sum a => (sum + a * a)%float) v 0%float).

Definition DimensionMismatch : thrown :=
  ErrorInstance "Error" "Vectors must have the same length".

Definition cosineSimilarity (vecA vecB : vector) : outcome number :=
  if negb (Nat.eqb (length vecA) (length vecB)) then Throw DimensionMismatch
  else
    let dotProduct := dotProduct vecA vecB in
    let magnitudeA := magnitude vecA in
    let magnitudeB := magnitude vecB in
    if (Num.strict_eq magnitudeA 0%float || Num.strict_eq magnitudeB 0%float)%bool
    then Ok 0%float
    else Ok (dotProduct / (magnitudeA * magnitudeB))%float.

Definition extractLabelName (fullLabel : string) : string :=
  match JsString.split " "%char fullLabel with
  | w :: _ => w
  | [] => EmptyString
  end.

(** ** The services and the world *)

(** Response of the embedding model to [{ text: string[] }]: the [data]
    property may be absent, and an entry of [data] may be missing. *)
Record EmbedResponse : Type := mkEmbedResponse {
  data : option (list (option vector)) }.

(** Response of the embedding model to [{ text: string }]: [data] is
    either [[v, ...]] or the flat vector [v]. *)
Inductive EmbedOneData : Type :=
| Nested (first : vector) (rest : list vector)
| Flat (v : vector).

(** Response of the completion model: the [response] property. *)
Record ChatResponse : Type := mkChatResponse {
  response : option string }.

(** A settled promise. *)
Inductive settled (A : Type) : Type :=
| Resolved (a : A)
| Rejected (e : thrown).
Arguments Resolved {A} a.
Arguments Rejected {A} e.

Definition await {A} (p : settled A) : outcome A :=
  match p with
  | Resolved a => Ok a
  | Rejected e => Throw e
  end.

(** The [Ai] binding.  The first argument of every method is the number
    of AI calls made before this one. *)
Record Ai : Type := mkAi {
  run_embed : nat -> list string -> settled EmbedResponse;
  run_embed_one : nat -> string -> settled EmbedOneData;
  run_chat : nat -> string -> Z -> settled ChatResponse }.

Inductive AiCall : Type :=
| CallEmbed (texts : list string)
| CallEmbedOne (text : string)
| CallChat (prompt : string) (max_tokens : Z).

(** A row of the [classifications] table (schema.sql), as bound by the
    INSERT statements; [None] is SQL [NULL]. *)
Record ClassificationRow : Type := mkRow {
  feedback_id : Z;
  sentiment : option string;
  sentiment_confidence : option number;
  urgency : option string;
  urgency_confidence : option number;
  product_detected : option string;
  product_confidence : option number;
  feedback_type : option string;
  feedback_type_confidence : option number;
  churn_risk : option string }.

(** The [D1Database] binding: [batch] is all-or-nothing; the oracle says
    whether the [n]-th write call fails. *)
Record D1Database : Type := mkD1 {
  write_fails : nat -> list ClassificationRow -> option thrown }.

Record World : Type := mkWorld {
  ai_log : list AiCall;                       (* every AI request, oldest first *)
  db_calls : nat;                             (* write calls attempted *)
  db_rows : list ClassificationRow }.         (* committed rows, oldest first *)

Definition M (A : Type) : Type := World -> outcome A * World.

Definition ret {A} (a : A) : M A := fun w => (Ok a, w).
Definition throw {A} (e : thrown) : M A := fun w => (Throw e, w).
Definition bind {A B} (m : M A) (k : A -> M B) : M B :=
  fun w =>
    match m w with
    | (Ok a, w') => k a w'
    | (Throw e, w') => (Throw e, w')
    | (Fuel, w') => (Fuel, w')
    end.
Definition lift {A} (o : outcome A) : M A := fun w => (o, w).

(** [try { body } catch (error) { handler(error) }] *)
Definition try_catch {A} (body : M A) (handler : thrown -> M A) : M A :=
  fun w =>
    match body w with
    | (Throw e, w') => handler e w'
    | r => r
    end.

Notation "'let*' x ':=' m 'in' k" := (bind m (fun x => k))
  (at level 10, x name, m at level 200, k at level 200, only parsing).

(** [await ai.run('@cf/baai/bge-base-en-v1.5', { text: texts })] *)
Definition ai_run_embed (ai : Ai) (texts : list string) : M EmbedResponse :=
  fun w =>
    (await (run_embed ai (length (ai_log w)) texts),
     mkWorld (ai_log w ++ [CallEmbed texts]) (db_calls w) (db_rows w)).

Definition ai_run_embed_one (ai : Ai) (text : string) : M EmbedOneData :=
  fun w =>
    (await (run_embed_one ai (length (ai_log w)) text),
     mkWorld (ai_log w ++ [CallEmbedOne text]) (db_calls w) (db_rows w)).

(** [await ai.run('@cf/meta/llama-3.1-8b-instruct', { messages, max_tokens })] *)
Definition ai_run_chat (ai : Ai) (prompt : string) (max_tokens : Z)
  : M ChatResponse :=
  fun w =>
    (await (run_chat ai (length (ai_log w)) prompt max_tokens),
     mkWorld (ai_log w ++ [CallChat prompt max_tokens]) (db_calls w) (db_rows w)).

(** [await db.batch(rows)] and [await stmt.run()]: commit all the rows
    or throw and commit none. *)
Definition db_write (db : D1Database) (rows : list ClassificationRow) : M unit :=
  fun w =>
    match write_fails db (db_calls w) rows with
    | Some e => (Throw e, mkWorld (ai_log w) (S (db_calls w)) (db_rows w))
    | None => (Ok tt, mkWorld (ai_log w) (S (db_calls w)) (db_rows w ++ rows))
    end.

(** ** precomputeLabelEmbeddings *)

(** The [TypeError] raised on reading from, iterating or spreading
    [undefined]; its message depends on the engine, one text stands for
    all of them. *)
Definition TypeError_undefined : thrown :=
  ErrorInstance "TypeError" "undefined is not iterable".

(** [Array.from(embeddingData[index])] *)
Definition anchor_of (embeddingData : option (list (option vector)))
  (label : string) (index : nat) : outcome LabelEmbedding :=
  match embeddingData with
  | None => Throw TypeError_undefined
  | Some d =>
      match mjoin (d !! index) with
      | None => Throw TypeError_undefined
      | Some v => Ok (mkLabelEmbedding label v)
      end
  end.

(** One iteration of the loop over [LABEL_DEFINITIONS]; the [catch]
    block logs and rethrows. *)
Definition precomputeCategory (ai : Ai) (labelDef : LabelDefinition)
  : M CategoryEmbeddings :=
  try_catch
    (let* result := ai_run_embed ai (def_labels labelDef) in
     let embeddingData := data result in
     let* embeddings := lift (mapi_throw (anchor_of embeddingData) 0
                                (def_labels labelDef)) in
     ret (mkCategoryEmbeddings (def_category labelDef) embeddings))
    (fun error => throw error).

Fixpoint precomputeLoop (ai : Ai) (defs : list LabelDefinition)
  (categoryEmbeddings : list CategoryEmbeddings) : M (list CategoryEmbeddings) :=
  match defs with
  | [] => ret categoryEmbeddings
  | labelDef :: rest =>
      let* c := precomputeCategory ai labelDef in
      precomputeLoop ai rest (categoryEmbeddings ++ [c])
  end.

Definition precomputeLabelEmbeddings (ai : Ai) : M (list CategoryEmbeddings) :=
  precomputeLoop ai LABEL_DEFINITIONS [].

(* ------------------------------------------------------------------ *)
(** * Scoring one category (shared by both classifiers) *)
(* ------------------------------------------------------------------ *)

Record ClassificationResult : Type := mkResult {
  category : string;
  label : string;
  confidence : number }.

(** The objects [{ label, score }] built by [embeddings.map(...)]. *)
Record Scored : Type := mkScored {
  s_label : string;
  score : number }.

Definition similaritiesOf (feedbackEmbedding : vector)
  (categoryData : CategoryEmbeddings) : outcome (list Scored) :=
  mapi_throw
    (fun labelEmbed _ =>
       obind (cosineSimilarity feedbackEmbedding (le_embedding labelEmbed))
         (fun s => Ok (mkScored (le_label labelEmbed) s)))
    0%nat (ce_embeddings categoryData).

(** [(max, curr) => (curr.score > max.score ? curr : max)] *)
Definition pickBest (max curr : Scored) : Scored :=
  if Num.gt (score curr) (score max) then curr else max.

Definition bestMatchOf (similarities : list Scored) : outcome Scored :=
  reduce1 pickBest similarities.

(* ------------------------------------------------------------------ *)
(** * lib/batchClassifier.ts *)
(* ------------------------------------------------------------------ *)

Record FeedbackItem : Type := mkItem {
  id : Z;
  content : string }.

Abbreviation Classifications := (gmap string ClassificationResult).

Record BatchResult : Type := mkBatchResult {
  br_id : Z;
  br_classifications : Classifications }.

Record Counts : Type := mkCounts {
  classified : nat;
  failed : nat }.

Definition chunkSize : nat := 100.
Definition saveChunkSize : nat := 50.

(** [allEmbeddings.push(...chunkEmbeddings)]: spreading [undefined]
    throws. *)
Definition spread {A} (xs : option (list A)) : outcome (list A) :=
  match xs with
  | Some l => Ok l
  | None => Throw TypeError_undefined
  end.

(** Step 2: [for (let i = 0; i < feedbackItems.length; i += chunkSize)]. *)
Fixpoint embedChunks (ai : Ai) (feedbackItems : list FeedbackItem)
  (fuel i : nat) (allEmbeddings : list (option vector))
  : M (list (option vector)) :=
  match fuel with
  | O => lift Fuel
  | S fuel' =>
      if (i <? length feedbackItems)%nat then
        let chunk := slice i (i + chunkSize) feedbackItems in
        let chunkTexts := map content chunk in
        let* result := ai_run_embed ai chunkTexts in
        let chunkEmbeddings := data result in
        let* pushed := lift (spread chunkEmbeddings) in
        embedChunks ai feedbackItems fuel' (i + chunkSize)
          (allEmbeddings ++ pushed)
      else ret allEmbeddings
  end.

(** The body of the [try] block of step 3: the loop over the
    categories. *)
Fixpoint classifyCategories (feedbackEmbedding : vector)
  (labelEmbeddings : list CategoryEmbeddings)
  (classifications : Classifications) : outcome Classifications :=
  match labelEmbeddings with
  | [] => Ok classifications
  | categoryData :: rest =>
      obind (similaritiesOf feedbackEmbedding categoryData) (fun similarities =>
      obind (bestMatchOf similarities) (fun bestMatch =>
        let label := extractLabelName (s_label bestMatch) in
        let confidence := score bestMatch in
        classifyCategories feedbackEmbedding rest
          (<[ce_category categoryData :=
               mkResult (ce_category categoryData) label confidence]>
             classifications)))
  end.

Record LoopState : Type := mkLoopState {
  st_classified : nat;
  st_failed : nat;
  st_batchResults : list BatchResult }.

(** Step 3: [for (let i = 0; i < feedbackItems.length; i++)], on the
    items from index [i] on. *)
Fixpoint classifyLoop (labelEmbeddings : list CategoryEmbeddings)
  (feedbackEmbeddings : list (option vector))
  (items : list FeedbackItem) (i : nat) (st : LoopState) : LoopState :=
  match items with
  | [] => st
  | item :: rest =>
      match mjoin (feedbackEmbeddings !! i) with
      | None =>
          (* if (!feedbackEmbedding) { failed++; continue; } *)
          classifyLoop labelEmbeddings feedbackEmbeddings rest (S i)
            (mkLoopState (st_classified st) (S (st_failed st))
               (st_batchResults st))
      | Some feedbackEmbedding =>
          match classifyCategories feedbackEmbedding labelEmbeddings ∅ with
          | Ok classifications =>
              classifyLoop labelEmbeddings feedbackEmbeddings rest (S i)
                (mkLoopState (S (st_classified st)) (st_failed st)
                   (st_batchResults st ++
                      [mkBatchResult (id item) classifications]))
          | _ =>
              (* catch (error) { failed++; } *)
              classifyLoop labelEmbeddings feedbackEmbeddings rest (S i)
                (mkLoopState (st_classified st) (S (st_failed st))
                   (st_batchResults st))
          end
      end
  end.

(** [x || null] on an optional string and on an optional number. *)
Definition orNull_string (x : option string) : option string :=
  match x with
  | Some s => if JsString.truthy s then Some s else None
  | None => None
  end.

Definition orNull_number (x : option number) : option number :=
  match x with
  | Some n => if Num.truthy n then Some n else None
  | None => None
  end.

(** The values bound to the INSERT statement for one result. *)
Definition insertRow (feedbackId : Z) (classifications : Classifications)
  : ClassificationRow :=
  let sentiment := orNull_string (label <$> classifications !! "polarity") in
  let sentimentConfidence :=
    orNull_number (confidence <$> classifications !! "polarity") in
  let urgency := orNull_string (label <$> classifications !! "urgency") in
  let urgencyConfidence :=
    orNull_number (confidence <$> classifications !! "urgency") in
  let productDetected := orNull_string (label <$> classifications !! "products") in
  let productConfidence :=
    orNull_number (confidence <$> classifications !! "products") in
  let feedbackType := orNull_string (label <$> classifications !! "feedbackType") in
  let feedbackTypeConfidence :=
    orNull_number (confidence <$> classifications !! "feedbackType") in
  let churnRisk := orNull_string (label <$> classifications !! "churnRisk") in
  mkRow feedbackId sentiment sentimentConfidence urgency urgencyConfidence
    productDetected productConfidence feedbackType feedbackTypeConfidence
    churnRisk.

(** [for (let i = 0; i < batchResults.length; i += saveChunkSize)]. *)
Fixpoint saveChunks (db : D1Database) (batchResults : list BatchResult)
  (fuel i : nat) : M unit :=
  match fuel with
  | O => lift Fuel
  | S fuel' =>
      if (i <? length batchResults)%nat then
        let chunk := slice i (i + saveChunkSize) batchResults in
        let batch :=
          map (fun res => insertRow (br_id res) (br_classifications res)) chunk in
        let* _ := db_write db batch in
        saveChunks db batchResults fuel' (i + saveChunkSize)
      else ret tt
  end.

Definition batchClassifyFeedback (feedbackItems : list FeedbackItem)
  (db : D1Database) (ai : Ai) : M Counts :=
  (* Step 1 *)
  let* labelEmbeddings := precomputeLabelEmbeddings ai in
  (* Step 2 *)
  let* allEmbeddings :=
    embedChunks ai feedbackItems (S (length feedbackItems)) 0 [] in
  let feedbackEmbeddings := allEmbeddings in
  (* Step 3 *)
  let st := classifyLoop labelEmbeddings feedbackEmbeddings feedbackItems 0
              (mkLoopState 0 0 []) in
  let batchResults := st_batchResults st in
  let* _ := saveChunks db batchResults (S (length batchResults)) 0 in
  ret (mkCounts (st_classified st) (st_failed st)).

(* ------------------------------------------------------------------ *)
(** * lib/classifier.ts *)
(* ------------------------------------------------------------------ *)

Record FeedbackClassifications : Type := mkFeedbackClassifications {
  feedbackId : Z;
  classifications : Classifications;
  needsRefinement : bool;
  refinementReason : option string }.

(** [similarities.sort((a, b) => b.score - a.score)]: a stable
    insertion sort driven by the sign of the comparator.  (The language
    leaves the order open when the comparator is inconsistent, which
    only happens on [NaN] differences.) *)
Definition compareFn (a b : Scored) : number := (score b - score a)%float.

Fixpoint sort_insert (x : Scored) (sorted : list Scored) : list Scored :=
  match sorted with
  | [] => [x]
  | y :: rest =>
      if Num.gt (compareFn y x) 0%float then x :: y :: rest
      else y :: sort_insert x rest
  end.

Definition sortByScoreDesc (l : list Scored) : list Scored :=
  fold_left (fun sorted x => sort_insert x sorted) l [].

(** [topTwo.length === 2 && Math.abs(topTwo[0].score - topTwo[1].score) < 0.15] *)
Definition closeTopTwo (topTwo : list Scored) : bool :=
  match topTwo with
  | [first; second] =>
      Num.lt (Num.abs (score first - score second)%float) 0.15%float
  | _ => false
  end.

(** The mutable locals of [classifyFeedback]. *)
Record Tracking : Type := mkTracking {
  tr_classifications : Classifications;
  lowestConfidence : number;
  hasCriticalUrgency : bool;
  hasMixedSentiment : bool }.

Definition trackCategory (categoryData : CategoryEmbeddings)
  (similarities : list Scored) (bestMatch : Scored) (t : Tracking) : Tracking :=
  let classifications :=
    <[ce_category categoryData :=
        mkResult (ce_category categoryData)
          (extractLabelName (s_label bestMatch)) (score bestMatch)]>
      (tr_classifications t) in
  let lowestConfidence :=
    if Num.lt (score bestMatch) (lowestConfidence t) then score bestMatch
    else lowestConfidence t in
  let hasCriticalUrgency :=
    if (String.eqb (ce_category categoryData) "urgency"
        && JsString.startsWith (s_label bestMatch) "critical")%bool
    then true else hasCriticalUrgency t in
  let hasMixedSentiment :=
    if String.eqb (ce_category categoryData) "polarity" then
      let topTwo := slice 0 2 (sortByScoreDesc similarities) in
      if closeTopTwo topTwo then true else hasMixedSentiment t
    else hasMixedSentiment t in
  mkTracking classifications lowestConfidence hasCriticalUrgency
    hasMixedSentiment.

Fixpoint trackCategories (feedbackEmbedding : vector)
  (labelEmbeddings : list CategoryEmbeddings) (t : Tracking) : outcome Tracking :=
  match labelEmbeddings with
  | [] => Ok t
  | categoryData :: rest =>
      obind (similaritiesOf feedbackEmbedding categoryData) (fun similarities =>
      obind (bestMatchOf similarities) (fun bestMatch =>
        trackCategories feedbackEmbedding rest
          (trackCategory categoryData similarities bestMatch t)))
  end.

(** Lines 45-99: everything after the embedding of the text. *)
Definition classifyEmbedding (feedbackEmbedding : vector) (feedbackId : Z)
  (labelEmbeddings : list CategoryEmbeddings) : outcome FeedbackClassifications :=
  obind (trackCategories feedbackEmbedding labelEmbeddings
           (mkTracking ∅ 1.0%float false false)) (fun t =>
    let lowestConfidence := lowestConfidence t in
    let hasCriticalUrgency := hasCriticalUrgency t in
    let hasMixedSentiment := hasMixedSentiment t in
    let needsRefinement :=
      (Num.lt lowestConfidence 0.65%float || hasCriticalUrgency
       || hasMixedSentiment)%bool in
    let refinementReason :=
      if needsRefinement then
        if Num.lt lowestConfidence 0.65%float then Some "low_confidence"
        else if hasCriticalUrgency then Some "critical_urgency"
        else if hasMixedSentiment then Some "mixed_sentiment"
        else None
      else None in
    Ok (mkFeedbackClassifications feedbackId (tr_classifications t)
          needsRefinement refinementReason)).

Definition classifyFeedback (feedbackText : string) (feedbackId : Z)
  (labelEmbeddings : list CategoryEmbeddings) (ai : Ai)
  : M FeedbackClassifications :=
  let* embeddingData := ai_run_embed_one ai feedbackText in
  (* Array.isArray(embeddingData[0]) ? embeddingData[0] : embeddingData *)
  let feedbackEmbedding :=
    match embeddingData with
    | Nested first _ => first
    | Flat v => v
    end in
  lift (classifyEmbedding feedbackEmbedding feedbackId labelEmbeddings).

Definition saveClassifications (db : D1Database) (feedbackId : Z)
  (classifications : Classifications) (refinementNotes : option string)
  : M unit :=
  let sentiment := orNull_string (label <$> classifications !! "polarity") in
  let sentimentConfidence :=
    orNull_number (confidence <$> classifications !! "polarity") in
  let urgency := orNull_string (label <$> classifications !! "urgency") in
  let urgencyConfidence :=
    orNull_number (confidence <$> classifications !! "urgency") in
  let productDetected := orNull_string (label <$> classifications !! "products") in
  let productConfidence :=
    orNull_number (confidence <$> classifications !! "products") in
  let feedbackType := orNull_string (label <$> classifications !! "feedbackType") in
  let feedbackTypeConfidence :=
    orNull_number (confidence <$> classifications !! "feedbackType") in
  let churnRisk := orNull_string (label <$> classifications !! "churnRisk") in
  db_write db
    [mkRow feedbackId sentiment sentimentConfidence urgency urgencyConfidence
       productDetected productConfidence feedbackType feedbackTypeConfidence
       churnRisk].

(* ------------------------------------------------------------------ *)
(** * The urgency column of the read queries (index.ts, lib/summary.ts) *)
(* ------------------------------------------------------------------ *)

Module Sql.

(** Three-valued logic: [None] is SQL's unknown. *)
Definition and3 (a b : option bool) : option bool :=
  match a, b with
  | Some false, _ | _, Some false => Some false
  | Some true, Some true => Some true
  | _, _ => None
  end.

Definition or3 (a b : option bool) : option bool :=
  match a, b with
  | Some true, _ | _, Some true => Some true
  | Some false, Some false => Some false
  | _, _ => None
  end.

(** [col = 'lit'] on a TEXT column. *)
Definition eq_text (col : option string) (lit : string) : option bool :=
  (fun s => String.eqb s lit) <$> col.

(** [col > lit] and [col <= lit] on a REAL column. *)
Definition gt_real (col : option number) (lit : number) : option bool :=
  (fun x => Num.gt x lit) <$> col.
Definition le_real (col : option number) (lit : number) : option bool :=
  (fun x => Num.le x lit) <$> col.

(** A WHEN branch or a WHERE clause holds when it evaluates to true. *)
Definition holds (c : option bool) : bool :=
  match c with Some true => true | _ => false end.

End Sql.

(** [CASE WHEN c.urgency = 'critical' AND c.urgency_confidence > 0.5 THEN 'critical'
         WHEN c.urgency = 'critical' THEN 'high'
         ELSE c.urgency END as urgency]
    in [getFeedback], [getFeedbackById] and [getMetrics]. *)
Definition urgencyColumn (row : ClassificationRow) : option string :=
  if Sql.holds (Sql.and3 (Sql.eq_text (urgency row) "critical")
                  (Sql.gt_real (urgency_confidence row) 0.5%float))
  then Some "critical"
  else if Sql.holds (Sql.eq_text (urgency row) "critical")
  then Some "high"
  else urgency row.

(** [urgency = 'critical' AND urgency_confidence > 0.5]: the filter of
    [criticalCount] in [prepareMetricsForSummary], of
    [getLatestCriticalFeedback] and of the [critical] trend sum. *)
Definition isCriticalRow (row : ClassificationRow) : bool :=
  Sql.holds (Sql.and3 (Sql.eq_text (urgency row) "critical")
               (Sql.gt_real (urgency_confidence row) 0.5%float)).

(** [(urgency = 'high' OR (urgency = 'critical' AND urgency_confidence <= 0.5))]:
    the filter of [highCount] in [prepareMetricsForSummary]. *)
Definition isHighRow (row : ClassificationRow) : bool :=
  Sql.holds (Sql.or3 (Sql.eq_text (urgency row) "high")
               (Sql.and3 (Sql.eq_text (urgency row) "critical")
                  (Sql.le_real (urgency_confidence row) 0.5%float))).

(** [SELECT COUNT( * ) ... WHERE ...] over the joined rows of the window. *)
Definition criticalCountOf (rows : list ClassificationRow) : Z :=
  Z.of_nat (length (filter (fun r => isCriticalRow r = true) rows)).
Definition highCountOf (rows : list ClassificationRow) : Z :=
  Z.of_nat (length (filter (fun r => isHighRow r = true) rows)).

(** The urgency query of [getMetrics] (index.ts):
    [SELECT CASE ... END as urgency, COUNT( * ) as count ... GROUP BY urgency].
    [urgency] in the GROUP BY names a column of the joined tables, which
    SQLite prefers to the alias of the CASE: the rows are grouped by the
    stored label.  The CASE of a group is evaluated on one of its rows,
    which the engine chooses ([choose]).  The groups come here in order
    of first occurrence (the query has no ORDER BY). *)
Definition getMetrics_urgencyDistribution
  (choose : list ClassificationRow -> option ClassificationRow)
  (rows : list ClassificationRow) : list (option string * Z) :=
  map (fun k =>
         let group := filter (fun r => urgency r = k) rows in
         (choose group ≫= urgencyColumn, Z.of_nat (length group)))
    (remove_dups (map urgency rows)).

(* ------------------------------------------------------------------ *)
(** * lib/summary.ts *)
(* ------------------------------------------------------------------ *)

Record Theme : Type := mkTheme {
  theme : string;
  count : Z }.

Record AggregatedMetrics : Type := mkAggregatedMetrics {
  totalCount : Z;
  positivePercent : Z;
  neutralPercent : Z;
  negativePercent : Z;
  topThemes : list Theme;
  criticalCount : Z;
  highCount : Z;
  topProducts : list string }.

Record CriticalItem : Type := mkCriticalItem {
  ci_content : string;
  ci_source : string;
  ci_timestamp : string }.

Record PrioritizedMetrics : Type := mkPrioritizedMetrics {
  recent7d : AggregatedMetrics;
  recent30d : AggregatedMetrics;
  allTime : AggregatedMetrics;
  latestCriticalItems : list CriticalItem }.

Definition nl : string := String (ascii_of_nat 10) EmptyString.

(** The [windowContext] local of [generateExecutiveSummary]. *)
Definition windowContext (metrics : PrioritizedMetrics) : string :=
  let hasUrgent7d := (criticalCount (recent7d metrics) >? 0)%Z in
  let hasImportan7d := (highCount (recent7d metrics) >=? 5)%Z in
  let hasCritical30d := (criticalCount (recent30d metrics) >=? 5)%Z in
  if hasUrgent7d then
    "FOCUS: Urgent issues from the last 7 days ("
      +:+ JsString.ofZ (criticalCount (recent7d metrics)) +:+ " critical items)."
  else if negb hasImportan7d then
    "FOCUS: Issues from the last 30 days (fallback due to low 7-day volume)."
  else if negb hasCritical30d then
    "FOCUS: Long-term trends and issues from the past year (fallback due to low 30-day volume)."
  else
    "FOCUS: Recent 30-day performance trends.".

Definition criticalItemsList (metrics : PrioritizedMetrics) : string :=
  JsString.join nl
    (map (fun item =>
            "- [" +:+ ci_source item +:+ "] "
              +:+ JsString.substring0 100 (ci_content item)
              +:+ "... (" +:+ ci_timestamp item +:+ ")")
       (latestCriticalItems metrics)).

Definition summaryPrompt (metrics : PrioritizedMetrics) : string :=
  "You are a product analyst. Based on aggregated customer feedback, write a concise 2-3 sentence executive summary for a product manager." +:+ nl
  +:+ "    " +:+ nl
  +:+ windowContext metrics +:+ nl
  +:+ nl
  +:+ "LATEST CRITICAL FEEDBACK (Last 5 items):" +:+ nl
  +:+ criticalItemsList metrics +:+ nl
  +:+ nl
  +:+ "7-DAY METRICS:" +:+ nl
  +:+ "- Total: " +:+ JsString.ofZ (totalCount (recent7d metrics)) +:+ nl
  +:+ "- Sentiment: " +:+ JsString.ofZ (positivePercent (recent7d metrics))
  +:+ "% positive, " +:+ JsString.ofZ (negativePercent (recent7d metrics))
  +:+ "% negative" +:+ nl
  +:+ "- Critical Items: " +:+ JsString.ofZ (criticalCount (recent7d metrics)) +:+ nl
  +:+ "- Top Themes: "
  +:+ JsString.join ", "
       (map (fun t => theme t +:+ " (" +:+ JsString.ofZ (count t) +:+ ")")
          (topThemes (recent7d metrics))) +:+ nl
  +:+ nl
  +:+ "30-DAY METRICS:" +:+ nl
  +:+ "- Total: " +:+ JsString.ofZ (totalCount (recent30d metrics)) +:+ nl
  +:+ "- Sentiment: " +:+ JsString.ofZ (positivePercent (recent30d metrics))
  +:+ "% positive, " +:+ JsString.ofZ (negativePercent (recent30d metrics))
  +:+ "% negative" +:+ nl
  +:+ "- Critical Items: " +:+ JsString.ofZ (criticalCount (recent30d metrics)) +:+ nl
  +:+ nl
  +:+ "ALL-TIME PRODUCTS: " +:+ JsString.join ", " (topProducts (allTime metrics)) +:+ nl
  +:+ nl
  +:+ "Provide actionable insights focusing on the specified FOCUS area and the LATEST CRITICAL FEEDBACK provided above." +:+ nl
  +:+ "Maximum 3 sentences. Plaintext only.".

(** [(response as any).response || 'Summary generation in progress...'] *)
Definition responseOrPlaceholder (r : ChatResponse) : string :=
  match response r with
  | Some s => if JsString.truthy s then s else "Summary generation in progress..."
  | None => "Summary generation in progress..."
  end.

Definition generateExecutiveSummary (metrics : PrioritizedMetrics) (ai : Ai)
  : M string :=
  let summaryPrompt := summaryPrompt metrics in
  try_catch
    (let* response := ai_run_chat ai summaryPrompt 200 in
     ret (responseOrPlaceholder response))
    (fun error => ret ("Unable to generate summary: " +:+ errorMessage error)).

(** ** The cascade in the words of the specification *)

Inductive Focus : Type :=
| SevenDayUrgent        (* "7-day urgent" *)
| ThirtyDayFallback     (* "30-day fallback" *)
| AllTimeTrend          (* "all-time trend" *)
| ThirtyDayPerformance. (* "30-day performance" *)

Definition spec_focus (critical7d high7d critical30d : Z) : Focus :=
  if (critical7d >? 0)%Z then SevenDayUrgent
  else if (high7d <? 5)%Z then ThirtyDayFallback
  else if (critical30d <? 5)%Z then AllTimeTrend
  else ThirtyDayPerformance.

(** The FOCUS line that announces each narrative focus. *)
Definition focusLine (f : Focus) (critical7d : Z) : string :=
  match f with
  | SevenDayUrgent =>
      "FOCUS: Urgent issues from the last 7 days ("
        +:+ JsString.ofZ critical7d +:+ " critical items)."
  | ThirtyDayFallback =>
      "FOCUS: Issues from the last 30 days (fallback due to low 7-day volume)."
  | AllTimeTrend =>
      "FOCUS: Long-term trends and issues from the past year (fallback due to low 30-day volume)."
  | ThirtyDayPerformance =>
      "FOCUS: Recent 30-day performance trends."
  end.

(* ------------------------------------------------------------------ *)
(** * index.ts: the router *)
(* ------------------------------------------------------------------ *)

(** [s.endsWith(p)]: some suffix of [s] is [p]. *)
Fixpoint endsWith (s p : string) : bool :=
  (String.eqb s p
   || match s with
      | EmptyString => false
      | String _ rest => endsWith rest p
      end)%bool.

(** What [fetch] does with a request: the handler it awaits, with the
    [id] it passes ([path.split('/')[3]], [None] for [undefined]), the
    preflight response, or the default message. *)
Inductive Route : Type :=
| Preflight
| SeedDatabase
| GetFeedback
| GetFeedbackById (id : option string)
| GetMetrics
| ClassifyAllFeedback
| GetExecutiveSummary
| GetTrends
| UpdateFeedbackStatus (id : option string)
| UpdateFeedbackIssue (id : option string)
| DefaultMessage.

(** The dispatch of [fetch] on [request.method] and [url.pathname]. *)
Definition fetch (method path : string) : Route :=
  if String.eqb method "OPTIONS" then Preflight
  else if (String.eqb path "/api/seed" && String.eqb method "POST")%bool
  then SeedDatabase
  else if (String.eqb path "/api/feedback" && String.eqb method "GET")%bool
  then GetFeedback
  else if (JsString.startsWith path "/api/feedback/"
           && String.eqb method "GET")%bool
  then GetFeedbackById (JsString.split "/" path !! 3%nat)
  else if (String.eqb path "/api/metrics" && String.eqb method "GET")%bool
  then GetMetrics
  else if (String.eqb path "/api/classify" && String.eqb method "POST")%bool
  then ClassifyAllFeedback
  else if (String.eqb path "/api/summary" && String.eqb method "GET")%bool
  then GetExecutiveSummary
  else if (String.eqb path "/api/trends" && String.eqb method "GET")%bool
  then GetTrends
  else if (JsString.startsWith path "/api/feedback/"
           && endsWith path "/status" && String.eqb method "PATCH")%bool
  then UpdateFeedbackStatus (JsString.split "/" path !! 3%nat)
  else if (JsString.startsWith path "/api/feedback/"
           && endsWith path "/issue" && String.eqb method "PATCH")%bool
  then UpdateFeedbackIssue (JsString.split "/" path !! 3%nat)
  else DefaultMessage.

(* ------------------------------------------------------------------ *)
(** * index.ts: the statement of getFeedback *)
(* ------------------------------------------------------------------ *)

(** A value bound to a placeholder. *)
Inductive SqlValue : Type :=
| SqlText (s : string)
| SqlInteger (z : Z)
| SqlParseInt (text : string).   (* the number [parseInt(text)] *)

(** [x || fallback] on [string | null]. *)
Definition orElse (x : option string) (fallback : string) : string :=
  match x with
  | Some s => if JsString.truthy s then s else fallback
  | None => fallback
  end.

(** [if (x) { query += clause; params.push(x); }] *)
Definition addFilter (x : option string) (clause : string)
  (st : string * list SqlValue) : string * list SqlValue :=
  match x with
  | Some v =>
      if JsString.truthy v then (fst st +:+ clause, snd st ++ [SqlText v])
      else st
  | None => st
  end.

Definition baseQuery : string :=
  "" +:+ nl +:+
  "      SELECT " +:+ nl +:+
  "        f.id, f.source, f.content, f.author, f.product, f.timestamp, f.status, f.is_issue," +:+ nl +:+
  "        c.sentiment, " +:+ nl +:+
  "        CASE WHEN c.urgency = 'critical' AND c.urgency_confidence > 0.5 THEN 'critical' " +:+ nl +:+
  "             WHEN c.urgency = 'critical' THEN 'high' " +:+ nl +:+
  "             ELSE c.urgency END as urgency," +:+ nl +:+
  "        c.product_detected, c.feedback_type" +:+ nl +:+
  "      FROM feedback f" +:+ nl +:+
  "      LEFT JOIN classifications c ON f.id = c.feedback_id" +:+ nl +:+
  "      WHERE 1=1" +:+ nl +:+
  "    ".

Definition orderByImportance : string :=
  " ORDER BY " +:+ nl +:+
  "				CASE " +:+ nl +:+
  "					WHEN c.urgency = 'critical' AND c.urgency_confidence > 0.5 THEN 3" +:+ nl +:+
  "					WHEN c.urgency = 'high' OR (c.urgency = 'critical' AND c.urgency_confidence <= 0.5) THEN 2" +:+ nl +:+
  "					ELSE 1 " +:+ nl +:+
  "				END DESC, " +:+ nl +:+
  "				f.timestamp DESC " +:+ nl +:+
  "			LIMIT ? OFFSET ?".

(** The query text and the bound parameters that [getFeedback] prepares
    from [url.searchParams]. *)
Definition getFeedback_statement (searchParams : gmap string string)
  : string * list SqlValue :=
  let source := searchParams !! "source" in
  let sentiment := searchParams !! "sentiment" in
  let status := searchParams !! "status" in
  let isIssue := searchParams !! "is_issue" in
  let startDate := searchParams !! "startDate" in
  let endDate := searchParams !! "endDate" in
  let limit := SqlParseInt (orElse (searchParams !! "limit") "50") in
  let offset := SqlParseInt (orElse (searchParams !! "offset") "0") in
  let sort := searchParams !! "sort" in
  let st := (baseQuery, []) in
  let st := addFilter source " AND f.source = ?" st in
  let st := addFilter sentiment " AND c.sentiment = ?" st in
  let st := addFilter status " AND f.status = ?" st in
  let st :=
    match isIssue with
    | Some v =>
        (fst st +:+ " AND f.is_issue = ?",
         snd st ++ [SqlInteger (if (String.eqb v "true" || String.eqb v "1")%bool
                                then 1 else 0)])
    | None => st
    end in
  let st := addFilter startDate " AND f.timestamp >= ?" st in
  let st := addFilter endDate " AND f.timestamp <= ?" st in
  let query :=
    if match sort with Some s => String.eqb s "importance" | None => false end
    then fst st +:+ orderByImportance
    else fst st +:+ " ORDER BY f.timestamp DESC LIMIT ? OFFSET ?" in
  (query, snd st ++ [limit; offset]).

(** The [ORDER BY CASE ... END] key of [getFeedback] under
    [sort=importance]. *)
Definition importanceRank (row : ClassificationRow) : Z :=
  if Sql.holds (Sql.and3 (Sql.eq_text (urgency row) "critical")
                  (Sql.gt_real (urgency_confidence row) 0.5%float))
  then 3
  else if Sql.holds
            (Sql.or3 (Sql.eq_text (urgency row) "high")
               (Sql.and3 (Sql.eq_text (urgency row) "critical")
                  (Sql.le_real (urgency_confidence row) 0.5%float)))
  then 2
  else 1.

(* ------------------------------------------------------------------ *)
(** * index.ts: responses and handlers *)
(* ------------------------------------------------------------------ *)

Set Warnings "-register-all".

(** The value handed to [JSON.stringify] for the body of a response. *)
Inductive Json : Type :=
| JNull
| JBool (b : bool)
| JInt (z : Z)          (* a number with an integer value *)
| JNumber (x : number)  (* any other number *)
| JString (s : string)
| JArray (items : list Json)
| JObject (fields : list (string * Json)).

(** A response: its status (200 unless given) and the value of its
    body; every response carries the CORS headers. *)
Record Response : Type := mkResponse {
  status : Z;
  body : Json }.

(** [feedbackResult.results || []] *)
Definition resultsOrEmpty {A} (results : option (list A)) : list A :=
  match results with
  | Some l => l
  | None => []
  end.

(** [classifyAllFeedback]; [feedbackResult] is the settled result of
    [SELECT id, content FROM feedback]. *)
Definition classifyAllFeedback
  (feedbackResult : settled (option (list FeedbackItem)))
  (db : D1Database) (ai : Ai) : M Response :=
  try_catch
    (let* feedbackResult := lift (await feedbackResult) in
     let feedbackItems := resultsOrEmpty feedbackResult in
     let* result := batchClassifyFeedback feedbackItems db ai in
     ret (mkResponse 200
            (JObject
               [ ("success", JBool true);
                 ("message", JString "Classification complete");
                 ("classified", JInt (Z.of_nat (classified result)));
                 ("failed", JInt (Z.of_nat (failed result)));
                 ("total", JInt (Z.of_nat (length feedbackItems))) ])))
    (fun error =>
       ret (mkResponse 500
              (JObject
                 [ ("success", JBool false);
                   ("error", JString "Failed to classify feedback");
                   ("message", JString (errorMessage error)) ]))).

Definition themeJson (t : Theme) : Json :=
  JObject [("theme", JString (theme t)); ("count", JInt (count t))].

Definition metricsJson (m : AggregatedMetrics) : Json :=
  JObject
    [ ("totalCount", JInt (totalCount m));
      ("positivePercent", JInt (positivePercent m));
      ("neutralPercent", JInt (neutralPercent m));
      ("negativePercent", JInt (negativePercent m));
      ("topThemes", JArray (map themeJson (topThemes m)));
      ("criticalCount", JInt (criticalCount m));
      ("highCount", JInt (highCount m));
      ("topProducts", JArray (map JString (topProducts m))) ].

(** [getExecutiveSummary]; [gathered] is the settled [Promise.all] of
    the three metric windows and the latest critical items. *)
Definition getExecutiveSummary (gathered : settled PrioritizedMetrics)
  (ai : Ai) : M Response :=
  try_catch
    (let* metrics := lift (await gathered) in
     let* summary := generateExecutiveSummary metrics ai in
     ret (mkResponse 200
            (JObject
               [ ("summary", JString summary);
                 ("metrics", metricsJson (allTime metrics));
                 ("recentMetrics",
                  JObject [ ("7d", metricsJson (recent7d metrics));
                            ("30d", metricsJson (recent30d metrics)) ]) ])))
    (fun error =>
       ret (mkResponse 500
              (JObject
                 [ ("error", JString "Failed to generate executive summary");
                   ("message", JString (errorMessage error)) ]))).

(** ToBoolean on a JSON value. *)
Definition jsonTruthy (j : option Json) : bool :=
  match j with
  | None | Some JNull | Some (JBool false) | Some (JInt 0)
  | Some (JString EmptyString) => false
  | Some (JNumber x) => Num.truthy x
  | Some _ => true
  end.

(** [const { name } = payload]: [undefined] when the property is
    missing or the payload is a primitive; a [TypeError] on [null]. *)
Definition destructure (name : string) (payload : Json) : outcome (option Json) :=
  match payload with
  | JNull => Throw (ErrorInstance "TypeError" "Cannot destructure null")
  | JObject fields => Ok (snd <$> List.find (fun f => String.eqb (fst f) name)
                                     (rev fields))
  | _ => Ok None
  end.

(** An [UPDATE feedback SET column = ? WHERE id = ?] with its two bound
    values. *)
Record Update : Type := mkUpdate {
  u_column : string;
  u_value : Json;
  u_id : option string }.

(** The state of the two PATCH handlers: the UPDATE statements run so
    far; [run_fails] says whether a statement fails. *)
Definition Patch (A : Type) : Type :=
  list Update -> outcome A * list Update.

Definition db_run (run_fails : Update -> option thrown) (u : Update) : Patch unit :=
  fun log =>
    match run_fails u with
    | Some e => (Throw e, log ++ [u])
    | None => (Ok tt, log ++ [u])
    end.

Definition updateFeedbackStatus (run_fails : Update -> option thrown)
  (id : option string) (payload : settled Json) : Patch Response :=
  fun log =>
    match obind (await payload) (destructure "status") with
    | Ok status =>
        if negb (match status with
                 | Some (JString s) =>
                     (String.eqb s "resolved" || String.eqb s "unresolved")%bool
                 | _ => false
                 end)
        then (Ok (mkResponse 400 (JObject [("error", JString "Invalid status")])),
              log)
        else
          match db_run run_fails
                  (mkUpdate "status" (default JNull status) id) log with
          | (Ok _, log') =>
              (Ok (mkResponse 200
                     (JObject [ ("success", JBool true);
                                ("status", default JNull status) ])), log')
          | (_, log') =>
              (Ok (mkResponse 500 (JObject [("error", JString "Update failed")])),
               log')
          end
    | _ =>
        (Ok (mkResponse 500 (JObject [("error", JString "Update failed")])), log)
    end.

Definition updateFeedbackIssue (run_fails : Update -> option thrown)
  (id : option string) (payload : settled Json) : Patch Response :=
  fun log =>
    match obind (await payload) (destructure "isIssue") with
    | Ok isIssue =>
        match db_run run_fails
                (mkUpdate "is_issue" (JInt (if jsonTruthy isIssue then 1 else 0))
                   id) log with
        | (Ok _, log') =>
            (Ok (mkResponse 200
                   (JObject
                      (("success", JBool true)
                       :: match isIssue with
                          | Some v => [("isIssue", v)]
                          | None => []
                          end))), log')
        | (_, log') =>
            (Ok (mkResponse 500 (JObject [("error", JString "Update failed")])),
             log')
        end
    | _ =>
        (Ok (mkResponse 500 (JObject [("error", JString "Update failed")])), log)
    end.

(* ------------------------------------------------------------------ *)
(** * lib/summary.ts: the statements of the metrics queries *)
(* ------------------------------------------------------------------ *)

Definition star : string := String "*"%char EmptyString.

(** The six statements [prepareMetricsForSummary] hands to [db.batch],
    each with its bound parameters. *)
Definition prepareMetricsForSummary_statements (startDate : option string)
  : list (string * list SqlValue) :=
  let given :=
    match startDate with Some s => JsString.truthy s | None => false end in
  let whereClause := if given then " WHERE f.timestamp >= ?" else "" in
  let params :=
    match startDate with
    | Some s => if JsString.truthy s then [SqlText s] else []
    | None => []
    end in
  [ ("SELECT COUNT(" +:+ star +:+ ") as count FROM feedback f" +:+ whereClause, params);
    ("SELECT sentiment, COUNT(" +:+ star +:+ ") as count FROM classifications c JOIN feedback f ON c.feedback_id = f.id"
       +:+ whereClause +:+ " GROUP BY sentiment", params);
    ("SELECT feedback_type as theme, COUNT(" +:+ star +:+ ") as count FROM classifications c JOIN feedback f ON c.feedback_id = f.id"
       +:+ whereClause +:+ " GROUP BY feedback_type ORDER BY count DESC LIMIT 3",
     params);
    ("SELECT COUNT(" +:+ star +:+ ") as count FROM classifications c JOIN feedback f ON c.feedback_id = f.id"
       +:+ (if given then whereClause +:+ " AND " else " WHERE ")
       +:+ "urgency = 'critical' AND urgency_confidence > 0.5", params);
    ("" +:+ nl +:+
    "			SELECT product, SUM(count) as total_count" +:+ nl +:+
    "			FROM (" +:+ nl +:+
    "				SELECT product, COUNT(" +:+ star +:+ ") as count FROM feedback f " +:+ whereClause +:+ " GROUP BY product" +:+ nl +:+
    "				UNION ALL" +:+ nl +:+
    "				SELECT product_detected as product, COUNT(" +:+ star +:+ ") as count FROM classifications c JOIN feedback f ON c.feedback_id = f.id " +:+ whereClause +:+ " GROUP BY product_detected" +:+ nl +:+
    "			)" +:+ nl +:+
    "			GROUP BY product" +:+ nl +:+
    "			ORDER BY total_count DESC" +:+ nl +:+
    "			LIMIT 3" +:+ nl +:+
    "		",
     params ++ params);
    ("SELECT COUNT(" +:+ star +:+ ") as count FROM classifications c JOIN feedback f ON c.feedback_id = f.id"
       +:+ (if given then whereClause +:+ " AND " else " WHERE ")
       +:+ "(urgency = 'high' OR (urgency = 'critical' AND urgency_confidence <= 0.5))",
     params) ].

(** The statement of [getLatestCriticalFeedback]. *)
Definition getLatestCriticalFeedback_statement : string * list SqlValue :=
  ("" +:+ nl +:+
    "        SELECT f.content, f.source, f.timestamp" +:+ nl +:+
    "        FROM feedback f" +:+ nl +:+
    "        JOIN classifications c ON f.id = c.feedback_id" +:+ nl +:+
    "        WHERE c.urgency = 'critical' AND c.urgency_confidence > 0.5" +:+ nl +:+
    "        ORDER BY f.timestamp DESC" +:+ nl +:+
    "        LIMIT 5" +:+ nl +:+
    "    ", []).

(** The statement of [getTrendDataForSummary]. *)
Definition getTrendDataForSummary_statement (startDate endDate : option string)
  : string * list SqlValue :=
  let st : list string * list SqlValue := ([], []) in
  let st :=
    match startDate with
    | Some s =>
        if JsString.truthy s
        then (fst st ++ ["f.timestamp >= ?"], snd st ++ [SqlText s]) else st
    | None => st
    end in
  let st :=
    match endDate with
    | Some s =>
        if JsString.truthy s
        then (fst st ++ ["f.timestamp <= ?"], snd st ++ [SqlText s]) else st
    | None => st
    end in
  let whereClause := fst st in
  let filter :=
    if (0 <? length whereClause)%nat
    then " WHERE " +:+ JsString.join " AND " whereClause else "" in
  ("" +:+ nl +:+
    "		SELECT " +:+ nl +:+
    "			DATE(f.timestamp) as date," +:+ nl +:+
    "			COUNT(" +:+ star +:+ ") as total," +:+ nl +:+
    "			SUM(CASE WHEN c.urgency = 'critical' AND c.urgency_confidence > 0.5 THEN 1 ELSE 0 END) as critical," +:+ nl +:+
    "			SUM(CASE WHEN c.sentiment = 'negative' THEN 1 ELSE 0 END) as negative," +:+ nl +:+
    "			SUM(CASE WHEN c.sentiment = 'positive' THEN 1 ELSE 0 END) as positive" +:+ nl +:+
    "		FROM feedback f" +:+ nl +:+
    "		LEFT JOIN classifications c ON f.id = c.feedback_id" +:+ nl +:+
    "		" +:+ filter +:+ "" +:+ nl +:+
    "		GROUP BY date" +:+ nl +:+
    "		ORDER BY date ASC" +:+ nl +:+
    "	", snd st).

(* ------------------------------------------------------------------ *)
(** * lib/classifier.ts: refineCriticalFeedback *)
(* ------------------------------------------------------------------ *)

Section Refinement.

(** [x.toFixed(2)] and [JSON.stringify(response)]: the texts the
    platform produces are left open. *)
Variable toFixed2 : number -> string.
Variable stringify : ChatResponse -> string.

(** [classifications.cat?.label || 'unknown'] *)
Definition labelOrUnknown (r : option ClassificationResult) : string :=
  match r with
  | Some x => if JsString.truthy (label x) then label x else "unknown"
  | None => "unknown"
  end.

(** [classifications.cat?.confidence.toFixed(2) || 'N/A'] *)
Definition confidenceOrNA (r : option ClassificationResult) : string :=
  match r with
  | Some x =>
      if JsString.truthy (toFixed2 (confidence x)) then toFixed2 (confidence x)
      else "N/A"
  | None => "N/A"
  end.

Definition dq : string := String (ascii_of_nat 34) EmptyString.

Definition refinementPrompt (feedbackContent : string)
  (classifications : Classifications) : string :=
  let line name cat :=
    "- " +:+ name +:+ ": " +:+ labelOrUnknown (classifications !! cat)
      +:+ " (confidence: " +:+ confidenceOrNA (classifications !! cat) +:+ ")" in
  "Analyze this customer feedback and validate the automated classification:" +:+ nl
  +:+ nl
  +:+ "Feedback: " +:+ dq +:+ feedbackContent +:+ dq +:+ nl
  +:+ nl
  +:+ "Automated Classification:" +:+ nl
  +:+ line "Product" "products" +:+ nl
  +:+ line "Sentiment" "polarity" +:+ nl
  +:+ line "Urgency" "urgency" +:+ nl
  +:+ line "Type" "feedbackType" +:+ nl
  +:+ nl
  +:+ "Provide:" +:+ nl
  +:+ "1. Validation: Are these classifications accurate? (Yes/No + brief explanation)" +:+ nl
  +:+ "2. Corrected classifications if wrong (specify which ones)" +:+ nl
  +:+ "3. Churn risk assessment (High/Medium/Low) with reasoning" +:+ nl
  +:+ nl
  +:+ "Keep response under 150 words.".

(** [(response as any).response || JSON.stringify(response)] *)
Definition responseOrJson (r : ChatResponse) : string :=
  match response r with
  | Some s => if JsString.truthy s then s else stringify r
  | None => stringify r
  end.

Definition refineCriticalFeedback (feedbackContent : string)
  (classifications : Classifications) (ai : Ai) : M string :=
  let prompt := refinementPrompt feedbackContent classifications in
  try_catch
    (let* response := ai_run_chat ai prompt 200 in
     ret (responseOrJson response))
    (fun error => ret ("Refinement failed: " +:+ errorMessage error)).

End Refinement.

(* ================================================================== *)
(** * Notions used in the statements *)
(* ================================================================== *)

(** [dot(a,b)] and [|a|] in the words of the specification: the sum of
    the pairwise products, accumulated from 0 in index order, and the
    square root of [dot(a,a)]. *)
Definition spec_dot (a b : vector) : number :=
  fold_left (fun sum xy => (sum + fst xy * snd xy)%float) (combine a b) 0%float.

Definition spec_norm (a : vector) : number := Num.sqrt (spec_dot a a).

(** The label column and the confidence column (if any) that hold a
    category, following the column list of the INSERT statement. *)
Definition labelColumn (cat : string) (row : ClassificationRow) : option string :=
  if String.eqb cat "polarity" then sentiment row
  else if String.eqb cat "urgency" then urgency row
  else if String.eqb cat "products" then product_detected row
  else if String.eqb cat "feedbackType" then feedback_type row
  else if String.eqb cat "churnRisk" then churn_risk row
  else None.

Definition confidenceColumn (cat : string) (row : ClassificationRow)
  : option number :=
  if String.eqb cat "polarity" then sentiment_confidence row
  else if String.eqb cat "urgency" then urgency_confidence row
  else if String.eqb cat "products" then product_confidence row
  else if String.eqb cat "feedbackType" then feedback_type_confidence row
  else None.

Definition categoryNames : list string :=
  ["products"; "polarity"; "urgency"; "feedbackType"; "churnRisk"].

(** Consecutive chunks of [n] elements, the last one possibly smaller. *)
Fixpoint chunks_fuel {A} (fuel n : nat) (l : list A) : list (list A) :=
  match fuel with
  | O => []
  | S fuel' =>
      match l with
      | [] => []
      | _ :: _ => take n l :: chunks_fuel fuel' n (drop n l)
      end
  end.

(** [len / n] full chunks, then the remainder if there is one. *)
Definition chunkSizes (n len : nat) : list nat :=
  replicate (len / n) n ++
  (if (len mod n =? 0)%nat then [] else [(len mod n)%nat]).

(** A service that honours the interface contract of the embedding
    endpoint: one vector per input text, in order. *)
Definition embeds_pointwise (ai : Ai) (E : string -> vector) : Prop :=
  forall (k : nat) (texts : list string),
    run_embed ai k texts =
    Resolved (mkEmbedResponse (Some (map (fun t => Some (E t)) texts))).

(** The world after one more embedding request. *)
Definition after_embed (w : World) (texts : list string) : World :=
  mkWorld (ai_log w ++ [CallEmbed texts]) (db_calls w) (db_rows w).

Definition anchor_call (d : LabelDefinition) : AiCall :=
  CallEmbed (def_labels d).

(** The reply to an anchor request holds a vector for every label. *)
Definition anchors_complete (r : settled EmbedResponse) (labels : list string)
  : Prop :=
  exists vs : list (option vector),
    r = Resolved (mkEmbedResponse (Some vs)) /\
    forall i : nat, (i < length labels)%nat -> exists v, vs !! i = Some (Some v).

(** [ce] binds the labels of [d], in order, to vectors. *)
Definition anchors_of (d : LabelDefinition) (ce : CategoryEmbeddings) : Prop :=
  ce_category ce = def_category d /\
  map le_label (ce_embeddings ce) = def_labels d.

(** What step 3 makes of the item at index [i]: a result to persist, or
    nothing when the item is counted as failed. *)
Definition itemResult (labelEmbeddings : list CategoryEmbeddings)
  (feedbackEmbeddings : list (option vector)) (i : nat) (item : FeedbackItem)
  : option BatchResult :=
  match mjoin (feedbackEmbeddings !! i) with
  | None => None
  | Some v =>
      match classifyCategories v labelEmbeddings ∅ with
      | Ok c => Some (mkBatchResult (id item) c)
      | _ => None
      end
  end.

Fixpoint itemResults (labelEmbeddings : list CategoryEmbeddings)
  (feedbackEmbeddings : list (option vector)) (i : nat)
  (items : list FeedbackItem) : list (option BatchResult) :=
  match items with
  | [] => []
  | item :: rest =>
      itemResult labelEmbeddings feedbackEmbeddings i item
        :: itemResults labelEmbeddings feedbackEmbeddings (S i) rest
  end.

Definition count_some {A} (l : list (option A)) : nat :=
  length (filter (fun x => is_Some x) l).
Definition count_none {A} (l : list (option A)) : nat :=
  length (filter (fun x => x = None) l).

(** [m], found at index [k] of [l], is a first maximum of [l]. *)
Definition first_maximum (l : list Scored) (k : nat) (m : Scored) : Prop :=
  l !! k = Some m /\
  (forall j s, l !! j = Some s -> Num.le (score s) (score m) = true) /\
  (forall j s, (j < k)%nat -> l !! j = Some s ->
               Num.lt (score s) (score m) = true).

Definition urgency_definition : LabelDefinition :=
  mkLabelDefinition "urgency"
    [ "critical urgent blocking production emergency immediate down";
      "high priority important impacting significant";
      "medium normal standard routine moderate";
      "low minor casual suggestion nice-to-have future" ].

(** Every anchor has the dimension of the item vector. *)
Definition dimensions_agree (v : vector) (labelEmbeddings : list CategoryEmbeddings) : Prop :=
  forall ce anchor, ce ∈ labelEmbeddings -> anchor ∈ ce_embeddings ce ->
    length (le_embedding anchor) = length v.

(** (a) some confidence of the five is below 0.65. *)
Definition low_confidence (cls : Classifications) : Prop :=
  exists cat res, cls !! cat = Some res /\ Num.lt (confidence res) 0.65%float = true.

(** (b) the raw label stored for urgency is 'critical'. *)
Definition critical_urgency (cls : Classifications) : Prop :=
  exists res, cls !! "urgency" = Some res /\ label res = "critical".

(** (c) in the words of the specification: the two highest scores of
    the candidates differ by less than 0.15.  [best] and [second] are
    the two highest scores when the scores can be arranged as [best],
    [second] and the others, [best] being at least every other score
    and [second] at least the others. *)
Definition top_two_close (scores : list number) : Prop :=
  exists best second others,
    scores ≡ₚ best :: second :: others /\
    (forall s, s ∈ second :: others -> Num.le s best = true) /\
    (forall s, s ∈ others -> Num.le s second = true) /\
    Num.lt (Num.abs (best - second)%float) 0.15%float = true.

(** (c) the two best polarity candidates are closer than 0.15; the
    candidate scores are the cosine similarities of the item vector
    with the anchors of the category. *)
Definition mixed_sentiment (v : vector)
  (labelEmbeddings : list CategoryEmbeddings) : Prop :=
  exists ce scores,
    ce ∈ labelEmbeddings /\ ce_category ce = "polarity" /\
    Forall2 (fun anchor s => cosineSimilarity v (le_embedding anchor) = Ok s)
      (ce_embeddings ce) scores /\
    top_two_close scores.

(** Every polarity candidate score is a number (not NaN). *)
Definition polarity_scores_are_numbers (v : vector)
  (labelEmbeddings : list CategoryEmbeddings) : Prop :=
  forall ce anchor s,
    ce ∈ labelEmbeddings -> ce_category ce = "polarity" ->
    anchor ∈ ce_embeddings ce ->
    cosineSimilarity v (le_embedding anchor) = Ok s -> Num.isNaN s = false.

Definition polarity_scores_are_numbersb (v : vector)
  (labelEmbeddings : list CategoryEmbeddings) : bool :=
  forallb (fun ce =>
             if String.eqb (ce_category ce) "polarity" then
               forallb (fun anchor =>
                          match cosineSimilarity v (le_embedding anchor) with
                          | Ok s => negb (Num.isNaN s)
                          | _ => true
                          end)
                 (ce_embeddings ce)
             else true)
    labelEmbeddings.

(** The candidates in descending order of score. *)
Definition descending (l : list Scored) : Prop :=
  StronglySorted (fun a b => Num.le (score b) (score a) = true) l.

(** The number is above zero. *)
Definition is_pos (x : spec_float) : bool := SFltb (S754_zero false) x.

(** Numbers that compare equal are the same number, or zeros of
    different sign. *)
Definition same_or_zeros (x y : spec_float) : Prop :=
  x = y \/ exists s s', x = S754_zero s /\ y = S754_zero s'.


Definition dimensions_agreeb (v : vector)
  (labelEmbeddings : list CategoryEmbeddings) : bool :=
  forallb (fun ce =>
             forallb (fun anchor =>
                        Nat.eqb (length (le_embedding anchor)) (length v))
               (ce_embeddings ce))
    labelEmbeddings.

(** The character occurs in the text. *)
Fixpoint contains_char (sep : ascii) (s : string) : bool :=
  match s with
  | EmptyString => false
  | String c rest => (Ascii.eqb c sep || contains_char sep rest)%bool
  end.

(** [ce] binds every label of [d] to the vector at the same index of
    the response data [vs]. *)
Definition anchors_from (vs : list (option vector)) (d : LabelDefinition)
  (ce : CategoryEmbeddings) : Prop :=
  ce_category ce = def_category d /\
  length (ce_embeddings ce) = length (def_labels d) /\
  forall (i : nat) (l : string),
    def_labels d !! i = Some l ->
    exists v, vs !! i = Some (Some v) /\
              ce_embeddings ce !! i = Some (mkLabelEmbedding l v).

(** The response data lacks a vector for one of the labels. *)
Definition anchors_incomplete (r : EmbedResponse) (labels : list string) : Prop :=
  match data r with
  | None => labels <> []
  | Some vs => exists i, (i < length labels)%nat /\ mjoin (vs !! i) = None
  end.

(** [Math.ceil(n / d)] on counts, as in the progress messages of the
    two chunk loops. *)
Definition ceil_div (n d : nat) : nat := ((n + d - 1) / d)%nat.

(** The texts of the [j]-th chunk of the items from index [i] on. *)
Definition chunkTextsAt (items : list FeedbackItem) (i j : nat) : list string :=
  map content (slice (i + j * chunkSize) (i + j * chunkSize + chunkSize) items).

(** The rows of the [j]-th write of the results from index [i] on. *)
Definition saveBatchAt (results : list BatchResult) (i j : nat)
  : list ClassificationRow :=
  map (fun res => insertRow (br_id res) (br_classifications res))
    (slice (i + j * saveChunkSize) (i + j * saveChunkSize + saveChunkSize)
       results).

(** Every category of [ce] can be scored against [v]: it has an anchor
    and all its anchors have the dimension of [v]. *)
Definition scorable (v : vector) (ce : CategoryEmbeddings) : Prop :=
  ce_embeddings ce <> [] /\
  forall anchor, anchor ∈ ce_embeddings ce ->
                 length (le_embedding anchor) = length v.

(** The [TypeError] of [reduce] on an empty array. *)
Definition EmptyReduce : thrown :=
  ErrorInstance "TypeError" "Reduce of empty array with no initial value".

(** Occurrences of a character in a text. *)
Fixpoint count_char (c : ascii) (s : string) : nat :=
  match s with
  | EmptyString => 0
  | String x rest => ((if Ascii.eqb x c then 1 else 0) + count_char c rest)%nat
  end.

(** Which conditions of [getFeedback] a query string triggers. *)
Definition filterShape (searchParams : gmap string string) : list bool :=
  let present name :=
    match searchParams !! name with
    | Some v => JsString.truthy v
    | None => false
    end in
  [ present "source"; present "sentiment"; present "status";
    bool_decide (is_Some (searchParams !! "is_issue"));
    present "startDate"; present "endDate";
    match searchParams !! "sort" with
    | Some s => String.eqb s "importance"
    | None => false
    end ].

(* ================================================================== *)
(** * Concrete services and inputs *)
(* ================================================================== *)

Definition metrics_with (critical7d high7d critical30d : Z) : PrioritizedMetrics :=
  let m c h := mkAggregatedMetrics 40 50 25 25 [mkTheme "bug" 9] c h ["D1"] in
  mkPrioritizedMetrics (m critical7d high7d) (m critical30d 11) (m 20 30) [].

Definition cls_zero_polarity : Classifications :=
  <["polarity" := mkResult "polarity" "positive" 0%float]>
    (<["products" := mkResult "products" "D1" 0.8%float]> ∅).

Definition ai_chat_down : Ai :=
  mkAi (fun _ _ => Rejected NonError) (fun _ _ => Rejected NonError)
    (fun _ _ _ => Rejected (ErrorInstance "Error" "model overloaded")).

Definition ai_chat_empty : Ai :=
  mkAi (fun _ _ => Rejected NonError) (fun _ _ => Rejected NonError)
    (fun _ _ _ => Resolved (mkChatResponse (Some ""))).

Definition embed_by_emptiness (t : string) : vector :=
  if JsString.truthy t then [1; 1]%float else [0; 0]%float.

Definition ai_unit_vectors : Ai :=
  mkAi (fun _ texts =>
          Resolved (mkEmbedResponse
                      (Some (map (fun t => Some (embed_by_emptiness t)) texts))))
    (fun _ _ => Rejected NonError)
    (fun _ _ _ => Rejected NonError).

Definition items250 : list FeedbackItem :=
  imap (fun i _ => mkItem (Z.of_nat i) "slow dashboard") (replicate 250 tt).

(** A service whose third request (the urgency anchors) fails. *)
Definition ai_urgency_down : Ai :=
  mkAi (fun k texts =>
          if (k =? 2)%nat then Rejected (ErrorInstance "Error" "inference timeout")
          else Resolved (mkEmbedResponse
                           (Some (map (fun _ => Some [1; 0]%float) texts))))
    (fun _ _ => Rejected NonError)
    (fun _ _ _ => Rejected NonError).

Definition db_ok : D1Database := mkD1 (fun _ _ => None).

(** A service that answers the anchor requests with two-dimensional
    vectors (the first label of every category leaning towards the
    first axis) and every later request with three entries: a vector, a
    hole, and a vector of the wrong dimension. *)
Definition ai_holes : Ai :=
  mkAi (fun k texts =>
          if (k <? 5)%nat then
            Resolved (mkEmbedResponse
              (Some (imap (fun i _ =>
                             Some (if (i =? 0)%nat then [1; 2]%float
                                   else [0; 1]%float)) texts)))
          else
            Resolved (mkEmbedResponse
              (Some [Some [1; 0]%float; None; Some [1; 2; 3]%float])))
    (fun _ _ => Rejected NonError)
    (fun _ _ _ => Rejected NonError).

Definition items4 : list FeedbackItem :=
  [ mkItem 10 "production is down";
    mkItem 11 "love the new dashboard";
    mkItem 12 "please add dark mode";
    mkItem 13 "docs are unclear" ].

Definition world0 : World := mkWorld [] 0 [].

(** Urgency anchors on which the last three labels tie for an item
    along the second axis. *)
Definition urgency_anchors : CategoryEmbeddings :=
  mkCategoryEmbeddings "urgency"
    [ mkLabelEmbedding
        "critical urgent blocking production emergency immediate down"
        [1; 2]%float;
      mkLabelEmbedding "high priority important impacting significant"
        [0; 1]%float;
      mkLabelEmbedding "medium normal standard routine moderate" [0; 1]%float;
      mkLabelEmbedding "low minor casual suggestion nice-to-have future"
        [0; 1]%float ].

(** The anchors [ai_holes] answers with. *)
Definition anchors_demo : list CategoryEmbeddings :=
  map (fun d =>
         mkCategoryEmbeddings (def_category d)
           (imap (fun i l =>
                    mkLabelEmbedding l
                      (if (i =? 0)%nat then [1; 2]%float else [0; 1]%float))
              (def_labels d)))
    LABEL_DEFINITIONS.


(** A service that answers the first chunk request with a single
    vector, so that the vectors of later chunks move forward. *)
Definition ai_short_chunk : Ai :=
  mkAi (fun k texts =>
          if (k <? 5)%nat then
            Resolved (mkEmbedResponse
              (Some (imap (fun i _ =>
                             Some (if (i =? 0)%nat then [1; 2]%float
                                   else [0; 1]%float)) texts)))
          else if (k =? 5)%nat then
            Resolved (mkEmbedResponse (Some [Some [1; 0]%float]))
          else
            Resolved (mkEmbedResponse
              (Some (map (fun _ => Some [0; 1]%float) texts))))
    (fun _ _ => Rejected NonError)
    (fun _ _ _ => Rejected NonError).

Definition items101 : list FeedbackItem :=
  imap (fun i _ => mkItem (Z.of_nat i) "checkout is slow") (replicate 101 tt).

(** A service whose first chunk request (the sixth request) fails. *)
Definition ai_chunk_down : Ai :=
  mkAi (fun k texts =>
          if (k <? 5)%nat then
            Resolved (mkEmbedResponse
              (Some (map (fun _ => Some [1; 0]%float) texts)))
          else Rejected (ErrorInstance "Error" "rate limited"))
    (fun _ _ => Rejected NonError)
    (fun _ _ _ => Rejected NonError).

(** A database whose second write fails. *)
Definition db_second_write_fails : D1Database :=
  mkD1 (fun k _ => if (k =? 1)%nat then Some (ErrorInstance "Error" "D1_ERROR")
                   else None).

(** A service that embeds every text as the same unit vector. *)
Definition ai_constant : Ai :=
  mkAi (fun _ texts =>
          Resolved (mkEmbedResponse
                      (Some (map (fun _ => Some [1; 0]%float) texts))))
    (fun _ _ => Rejected NonError)
    (fun _ _ _ => Rejected NonError).

Definition items60 : list FeedbackItem :=
  imap (fun i _ => mkItem (Z.of_nat i) "docs are unclear") (replicate 60 tt).

(** A service whose answer to the polarity anchors (the second
    request) holds a single vector for the three labels. *)
Definition ai_short_anchors : Ai :=
  mkAi (fun k texts =>
          if (k =? 1)%nat then
            Resolved (mkEmbedResponse (Some [Some [1; 0]%float]))
          else Resolved (mkEmbedResponse
                           (Some (map (fun _ => Some [1; 0]%float) texts))))
    (fun _ _ => Rejected NonError)
    (fun _ _ _ => Rejected NonError).

(* ================================================================== *)
(** * Properties *)
(* ================================================================== *)

(** ** Numbers *)

Module NumFacts.
Import Num.

(** ** Order facts, derived from the IEEE specification of the
    comparison primitives. *)

Lemma SFcompare_antisym (x y : spec_float) (c : comparison) :
  SFcompare x y = Some c -> SFcompare y x = Some (CompOpp c).
Proof.
  destruct x as [sx|sx| |sx mx ex], y as [sy|sy| |sy my ey]; simpl;
    try discriminate;
    repeat match goal with s : bool |- _ => destruct s end;
    try (intros [= <-]; reflexivity).
  all: intros [= <-]; f_equal;
    rewrite (Z.compare_antisym ey ex);
    destruct (ey ?= ex)%Z; simpl; try reflexivity;
    change (Pos.compare_cont Eq mx my) with (Pos.compare mx my);
    change (Pos.compare_cont Eq my mx) with (Pos.compare my mx);
    rewrite (Pos.compare_antisym my mx); try reflexivity;
    destruct (my ?= mx)%positive; reflexivity.
Qed.

Lemma SFcompare_total (x y : spec_float) :
  x <> S754_nan -> y <> S754_nan -> exists c, SFcompare x y = Some c.
Proof.
  destruct x, y; simpl; intros Hx Hy; try congruence; eauto.
Qed.

Lemma SFcompare_some_l (x y : spec_float) (c : comparison) :
  SFcompare x y = Some c -> x <> S754_nan.
Proof. destruct x, y; simpl; congruence. Qed.

Lemma SFcompare_some_r (x y : spec_float) (c : comparison) :
  SFcompare x y = Some c -> y <> S754_nan.
Proof. destruct x, y; simpl; congruence. Qed.

Local Ltac order_cases :=
  repeat match goal with
    | |- context [(?a ?= ?b)%Z] =>
        destruct (Z.compare_spec a b); subst
    | H : context [(?a ?= ?b)%Z] |- _ =>
        destruct (Z.compare_spec a b); subst
    | |- context [Pos.compare_cont Eq ?a ?b] =>
        change (Pos.compare_cont Eq a b) with (Pos.compare a b);
        destruct (Pos.compare_spec a b); subst
    | H : context [Pos.compare_cont Eq ?a ?b] |- _ =>
        change (Pos.compare_cont Eq a b) with (Pos.compare a b) in H;
        destruct (Pos.compare_spec a b); subst
    end.

(** [x <= y] and [y < z] give [x < z]. *)
Lemma SFcompare_le_lt (x y z : spec_float) (c : comparison) :
  SFcompare x y = Some c -> c <> Gt ->
  SFcompare y z = Some Lt -> SFcompare x z = Some Lt.
Proof.
  destruct x as [sx|sx| |sx mx ex], y as [sy|sy| |sy my ey],
    z as [sz|sz| |sz mz ez]; simpl; try discriminate;
    repeat match goal with s : bool |- _ => destruct s end;
    intros [= <-] Hc; try congruence; try (intros [= ?]; congruence).
  all: intros [= H]; f_equal; revert Hc H; order_cases; simpl;
    try congruence; try lia.
Qed.

(** [x < y] and [y <= z] give [x < z]. *)
Lemma SFcompare_lt_le (x y z : spec_float) (c : comparison) :
  SFcompare x y = Some Lt ->
  SFcompare y z = Some c -> c <> Gt -> SFcompare x z = Some Lt.
Proof.
  destruct x as [sx|sx| |sx mx ex], y as [sy|sy| |sy my ey],
    z as [sz|sz| |sz mz ez]; simpl; try discriminate;
    repeat match goal with s : bool |- _ => destruct s end;
    intros H1 H2 Hc; try discriminate; try reflexivity;
    try (injection H2 as <-; congruence).
  all: injection H1 as H1; injection H2 as <-; f_equal;
    revert Hc H1; order_cases; simpl; try congruence; try lia.
Qed.

(** ** The same facts on numbers. *)

Lemma lt_compare (a b : Num.number) :
  lt a b = true <-> SFcompare (Prim2SF a) (Prim2SF b) = Some Lt.
Proof.
  unfold lt. rewrite FloatAxioms.ltb_spec. unfold SFltb.
  destruct (SFcompare _ _) as [[]|]; split; congruence.
Qed.

Lemma le_compare (a b : Num.number) :
  le a b = true <->
  exists c, SFcompare (Prim2SF a) (Prim2SF b) = Some c /\ c <> Gt.
Proof.
  unfold le. rewrite FloatAxioms.leb_spec. unfold SFleb.
  destruct (SFcompare _ _) as [[]|]; split;
    try congruence; try (intros [c [[= <-] Hc]]; congruence);
    intros _; eexists; split; try reflexivity; congruence.
Qed.

Lemma isNaN_spec (a : Num.number) :
  isNaN a = false <-> Prim2SF a <> S754_nan.
Proof.
  unfold isNaN, is_nan. rewrite FloatAxioms.eqb_spec. unfold SFeqb.
  destruct (Prim2SF a) as [s|s| |s m e]; simpl;
    try (destruct s); simpl; try (split; congruence).
  all: rewrite Z.compare_refl, Pos.compare_cont_refl; simpl;
    split; congruence.
Qed.

Lemma lt_notNaN (a b : Num.number) :
  lt a b = true -> isNaN a = false /\ isNaN b = false.
Proof.
  rewrite lt_compare, !isNaN_spec. intros H.
  eauto using SFcompare_some_l, SFcompare_some_r.
Qed.

Lemma lt_trans (a b c : Num.number) :
  lt a b = true -> lt b c = true -> lt a c = true.
Proof.
  rewrite !lt_compare. intros H1 H2.
  eapply (SFcompare_lt_le _ _ _ Lt); eauto; congruence.
Qed.

Lemma le_lt_trans (a b c : Num.number) :
  le a b = true -> lt b c = true -> lt a c = true.
Proof.
  rewrite le_compare, !lt_compare. intros (k & H1 & Hk) H2.
  eapply SFcompare_le_lt; eauto.
Qed.

Lemma lt_le_trans (a b c : Num.number) :
  lt a b = true -> le b c = true -> lt a c = true.
Proof.
  rewrite le_compare, !lt_compare. intros H1 (k & H2 & Hk).
  eapply SFcompare_lt_le; eauto.
Qed.

(** On numbers that are not [NaN] the order is total. *)
Lemma not_lt_le (a b : Num.number) :
  isNaN a = false -> isNaN b = false -> lt a b = false -> le b a = true.
Proof.
  rewrite !isNaN_spec, le_compare. intros Ha Hb Hlt.
  destruct (SFcompare_total _ _ Ha Hb) as [c Hc].
  exists (CompOpp c). split; [now apply SFcompare_antisym|].
  destruct c; simpl; try congruence.
  apply lt_compare in Hc. congruence.
Qed.

Lemma le_not_lt (a b : Num.number) : le b a = true -> lt a b = false.
Proof.
  rewrite le_compare. intros (c & Hc & Hgt).
  destruct (lt a b) eqn:E; [|reflexivity].
  apply lt_compare, SFcompare_antisym in E. simpl in E. congruence.
Qed.

Lemma lt_irrefl (a : Num.number) : lt a a = false.
Proof.
  destruct (lt a a) eqn:E; [|reflexivity].
  pose proof (proj1 (lt_compare a a) E) as H.
  pose proof (SFcompare_antisym _ _ _ H) as H'. simpl in H'. congruence.
Qed.

Lemma lt_le (a b : Num.number) : lt a b = true -> le a b = true.
Proof.
  rewrite lt_compare, le_compare. intros H.
  exists Lt. split; [assumption|congruence].
Qed.

End NumFacts.

(* ------------------------------------------------------------------ *)
(** ** Subtraction of numbers: sign and absolute value *)
(* ------------------------------------------------------------------ *)

Module SubFacts.
Local Open Scope Z_scope.

Lemma digits2_pos_bounds (m : positive) :
  2 ^ (Zpos (digits2_pos m) - 1) <= Zpos m < 2 ^ (Zpos (digits2_pos m)).
Proof.
  induction m as [m IH|m IH|]; cbn [digits2_pos].
  - rewrite Pos2Z.inj_succ.
    replace (Z.succ (Zpos (digits2_pos m)) - 1)
      with (Z.succ (Zpos (digits2_pos m) - 1)) by lia.
    rewrite !Z.pow_succ_r by lia. lia.
  - rewrite Pos2Z.inj_succ.
    replace (Z.succ (Zpos (digits2_pos m)) - 1)
      with (Z.succ (Zpos (digits2_pos m) - 1)) by lia.
    rewrite !Z.pow_succ_r by lia. lia.
  - cbn. lia.
Qed.

Lemma shr_1_pow (r : shr_record) (k : Z) :
  0 < k -> 2 ^ k <= shr_m r -> 2 ^ (k - 1) <= shr_m (shr_1 r).
Proof.
  destruct r as [m rb sb]. cbn [shr_m]. intros Hk Hm.
  assert (Hpow : 2 ^ k = 2 * 2 ^ (k - 1)).
  { replace k with (Z.succ (k - 1)) at 1 by lia.
    rewrite Z.pow_succ_r by lia. reflexivity. }
  assert (Hp : 0 < 2 ^ (k - 1)) by (apply Z.pow_pos_nonneg; lia).
  unfold shr_1. destruct m as [|[p|p|]|p]; cbn [shr_m]; lia.
Qed.

Lemma iter_shr_1_pow (p : positive) :
  forall (r : shr_record) (k : Z),
    Zpos p <= k -> 2 ^ k <= shr_m r ->
    2 ^ (k - Zpos p) <= shr_m (@SpecFloat.iter_pos _ shr_1 p r).
Proof.
  induction p as [p IH|p IH|]; intros r k Hk Hm; cbn [SpecFloat.iter_pos].
  - pose proof (shr_1_pow r k ltac:(lia) Hm) as H1.
    pose proof (IH (shr_1 r) (k - 1) ltac:(lia) H1) as H2.
    pose proof (IH _ (k - 1 - Zpos p) ltac:(lia) H2) as H3.
    replace (k - Zpos p~1) with (k - 1 - Zpos p - Zpos p) by lia. exact H3.
  - pose proof (IH r k ltac:(lia) Hm) as H2.
    pose proof (IH _ (k - Zpos p) ltac:(lia) H2) as H3.
    replace (k - Zpos p~0) with (k - Zpos p - Zpos p) by lia. exact H3.
  - apply shr_1_pow; [lia|exact Hm].
Qed.

Lemma shr_fexp_pos (m e : Z) (l : location) :
  0 < m -> -1074 <= e ->
  0 < shr_m (fst (shr_fexp prec emax m e l)) /\
  -1074 <= snd (shr_fexp prec emax m e l).
Proof.
  intros Hm He. unfold shr_fexp, shr.
  destruct m as [|p|p]; try lia. cbn [Zdigits2].
  assert (Hrec : shr_m (shr_record_of_loc (Zpos p) l) = Zpos p)
    by (destruct l as [|[]]; reflexivity).
  pose proof (digits2_pos_bounds p) as [Hlo _].
  destruct (SpecFloat.fexp prec emax (Zpos (digits2_pos p) + e) - e)
    as [|n|n] eqn:Hn; cbn [fst snd].
  - rewrite Hrec. lia.
  - assert (Hnd : Zpos n <= Zpos (digits2_pos p) - 1).
    { unfold SpecFloat.fexp, SpecFloat.emin, prec, emax in Hn. lia. }
    pose proof (iter_shr_1_pow n (shr_record_of_loc (Zpos p) l)
                  (Zpos (digits2_pos p) - 1) Hnd
                  ltac:(rewrite Hrec; exact Hlo)) as Hit.
    assert (0 < 2 ^ (Zpos (digits2_pos p) - 1 - Zpos n))
      by (apply Z.pow_pos_nonneg; lia).
    lia.
  - rewrite Hrec. lia.
Qed.

Lemma round_nearest_even_pos (m : Z) (l : location) :
  0 < m -> 0 < round_nearest_even m l.
Proof.
  intros Hm. unfold round_nearest_even.
  destruct l as [|[]]; try lia. destruct (Z.even m); lia.
Qed.

Lemma binary_round_aux_pos (m e : Z) (l : location) :
  0 < m -> -1074 <= e ->
  is_pos (binary_round_aux prec emax false m e l) = true.
Proof.
  intros Hm He. unfold binary_round_aux.
  pose proof (shr_fexp_pos m e l Hm He) as [H1 H2].
  destruct (shr_fexp prec emax m e l) as [mrs' e']. cbn [fst snd] in H1, H2.
  pose proof (round_nearest_even_pos (shr_m mrs') (loc_of_shr_record mrs') H1)
    as H3.
  pose proof (shr_fexp_pos _ e' loc_Exact H3 H2) as [H4 _].
  destruct (shr_fexp prec emax
              (round_nearest_even (shr_m mrs') (loc_of_shr_record mrs'))
              e' loc_Exact) as [mrs'' e''].
  cbn [fst] in H4. destruct (shr_m mrs'') as [|q|q]; try lia.
  destruct (e'' <=? emax - prec); reflexivity.
Qed.

Lemma binary_round_pos (m : positive) (e : Z) :
  -1074 <= e -> is_pos (binary_round prec emax false m e) = true.
Proof.
  intros He. unfold binary_round.
  destruct (shl_align m e (SpecFloat.fexp prec emax (Zpos (digits2_pos m) + e)))
    as [mz ez] eqn:E.
  apply binary_round_aux_pos; [lia|].
  unfold shl_align in E.
  destruct (SpecFloat.fexp prec emax (Zpos (digits2_pos m) + e) - e) eqn:Hd;
    injection E as _ <-; try assumption.
  unfold SpecFloat.fexp, SpecFloat.emin, prec, emax. lia.
Qed.

Lemma binary_round_neg (m : positive) (e : Z) :
  is_pos (binary_round prec emax true m e) = false.
Proof.
  unfold binary_round, binary_round_aux.
  destruct (shl_align m e _) as [mz ez].
  destruct (shr_fexp prec emax (Zpos mz) ez loc_Exact) as [mrs' e'].
  destruct (shr_fexp prec emax _ e' loc_Exact) as [mrs'' e''].
  destruct (shr_m mrs''); [reflexivity| |reflexivity].
  destruct (e'' <=? emax - prec); reflexivity.
Qed.

Lemma iter_xO (m d : positive) :
  Zpos (Pos.iter xO m d) = Zpos m * 2 ^ Zpos d.
Proof.
  induction d as [|d IH] using Pos.peano_ind.
  - cbn. lia.
  - rewrite Pos.iter_succ, Pos2Z.inj_succ, Z.pow_succ_r by lia.
    rewrite Pos2Z.inj_xO, IH. lia.
Qed.

Lemma shl_align_value (m : positive) (e e' : Z) :
  e' <= e -> Zpos (fst (shl_align m e e')) = Zpos m * 2 ^ (e - e').
Proof.
  intros He. unfold shl_align.
  destruct (e' - e) as [|d|d] eqn:Hd; cbn [fst].
  - replace (e - e') with 0 by lia. lia.
  - lia.
  - rewrite iter_xO. f_equal. f_equal. lia.
Qed.

Lemma bounded_canonical (m : positive) (e : Z) :
  bounded prec emax m e = true ->
  -1074 <= e /\ Zpos (digits2_pos m) <= 53 /\
  (-1074 < e -> Zpos (digits2_pos m) = 53).
Proof.
  unfold bounded, canonical_mantissa. intros H.
  apply andb_prop in H as [H _]. apply Z.eqb_eq in H.
  unfold SpecFloat.fexp, SpecFloat.emin, prec, emax in H. lia.
Qed.

Lemma scaled_lt (mx my : positive) (ex ey : Z) :
  bounded prec emax mx ex = true -> bounded prec emax my ey = true ->
  ex < ey -> Zpos mx < Zpos my * 2 ^ (ey - ex).
Proof.
  intros Hx Hy Hlt.
  apply bounded_canonical in Hx as (Hex & Hdx & _).
  apply bounded_canonical in Hy as (_ & _ & Hdy).
  specialize (Hdy ltac:(lia)).
  pose proof (digits2_pos_bounds mx) as [_ Hmx].
  pose proof (digits2_pos_bounds my) as [Hmy _]. rewrite Hdy in Hmy.
  assert (H1 : 2 ^ Zpos (digits2_pos mx) <= 2 ^ 53)
    by (apply Z.pow_le_mono_r; lia).
  assert (H2 : 2 ^ 1 <= 2 ^ (ey - ex)) by (apply Z.pow_le_mono_r; lia).
  change (2 ^ 1) with 2 in H2. change (2 ^ (53 - 1)) with 4503599627370496 in Hmy.
  change (2 ^ 53) with 9007199254740992 in H1. nia.
Qed.

Lemma SFcompare_finite (sx sy : bool) (mx my : positive) (ex ey : Z) :
  bounded prec emax mx ex = true -> bounded prec emax my ey = true ->
  SFcompare (S754_finite sx mx ex) (S754_finite sy my ey) =
  Some (cond_Zopp sx (Zpos (fst (shl_align mx ex (Z.min ex ey)))) ?=
        cond_Zopp sy (Zpos (fst (shl_align my ey (Z.min ex ey))))).
Proof.
  intros Hx Hy.
  rewrite !shl_align_value by lia.
  assert (Hcmp :
            match ex ?= ey with
            | Lt => Lt
            | Gt => Gt
            | Eq => Pos.compare_cont Eq mx my
            end =
            (Zpos mx * 2 ^ (ex - Z.min ex ey) ?= Zpos my * 2 ^ (ey - Z.min ex ey))).
  { destruct (Z.compare_spec ex ey) as [->|Hlt|Hgt].
    - rewrite Z.min_id, Z.sub_diag. cbn [Z.pow]. rewrite !Z.mul_1_r.
      reflexivity.
    - rewrite Z.min_l by lia. rewrite Z.sub_diag. cbn [Z.pow].
      rewrite Z.mul_1_r. symmetry. apply Z.compare_lt_iff.
      now apply scaled_lt.
    - rewrite Z.min_r by lia. rewrite Z.sub_diag. cbn [Z.pow].
      rewrite Z.mul_1_r. symmetry. apply Z.compare_gt_iff.
      now apply scaled_lt. }
  assert (Hpx : 0 < Zpos mx * 2 ^ (ex - Z.min ex ey))
    by (apply Z.mul_pos_pos; [lia|apply Z.pow_pos_nonneg; lia]).
  assert (Hpy : 0 < Zpos my * 2 ^ (ey - Z.min ex ey))
    by (apply Z.mul_pos_pos; [lia|apply Z.pow_pos_nonneg; lia]).
  cbn [SFcompare]. destruct sx, sy; cbn [cond_Zopp]; f_equal.
  - rewrite Z.compare_opp.
    assert (Hcmp' :
              match ex ?= ey with
              | Lt => Gt
              | Gt => Lt
              | Eq => CompOpp (Pos.compare_cont Eq mx my)
              end =
              CompOpp (match ex ?= ey with
                       | Lt => Lt
                       | Gt => Gt
                       | Eq => Pos.compare_cont Eq mx my
                       end))
      by (destruct (ex ?= ey); reflexivity).
    rewrite Hcmp', Hcmp. symmetry. apply Z.compare_antisym.
  - symmetry. apply Z.compare_lt_iff. lia.
  - symmetry. apply Z.compare_gt_iff. lia.
  - exact Hcmp.
Qed.

Lemma SFsub_pos_iff (x y : spec_float) :
  valid_binary x = true -> valid_binary y = true ->
  SFltb (S754_zero false) (SFsub prec emax y x) = SFltb x y.
Proof.
  intros Hx Hy.
  destruct x as [sx|sx| |sx mx ex], y as [sy|sy| |sy my ey];
    try reflexivity;
    try (destruct sx, sy; reflexivity);
    try (destruct sx; reflexivity);
    try (destruct sy; reflexivity).
  cbn [SpecFloat.valid_binary] in Hx, Hy.
  unfold SFltb at 2. rewrite (SFcompare_finite sx sy mx my ex ey Hx Hy).
  cbn [SFsub]. rewrite (Z.min_comm ey ex).
  set (X := cond_Zopp sx (Zpos (fst (shl_align mx ex (Z.min ex ey))))).
  set (Y := cond_Zopp sy (Zpos (fst (shl_align my ey (Z.min ex ey))))).
  pose proof (bounded_canonical mx ex Hx) as (Hex & _).
  pose proof (bounded_canonical my ey Hy) as (Hey & _).
  unfold binary_normalize.
  destruct (Y - X) as [|m|m] eqn:HM.
  - assert (X = Y) as -> by lia. now rewrite Z.compare_refl.
  - change (SFltb (S754_zero false) (binary_round prec emax false m (Z.min ex ey)))
      with (is_pos (binary_round prec emax false m (Z.min ex ey))).
    rewrite binary_round_pos by lia.
    assert (H : X < Y) by lia. apply Z.compare_lt_iff in H. now rewrite H.
  - change (SFltb (S754_zero false) (binary_round prec emax true m (Z.min ex ey)))
      with (is_pos (binary_round prec emax true m (Z.min ex ey))).
    rewrite binary_round_neg.
    assert (H : X > Y) by lia. apply Z.compare_gt_iff in H. 
    destruct (X ?= Y) eqn:E; try reflexivity.
    apply Z.compare_gt_iff in H. congruence.
Qed.

(** The sign of a difference is the order of its operands. *)
Lemma sub_gt_zero (a b : float) : (0 <? b - a)%float = (a <? b)%float.
Proof.
  rewrite !ltb_spec, sub_spec. change (Prim2SF 0%float) with (S754_zero false).
  apply SFsub_pos_iff; apply Prim2SF_valid.
Qed.

Lemma SFeqb_same_or_zeros (x y : spec_float) :
  SFeqb x y = true -> same_or_zeros x y /\ x <> S754_nan.
Proof.
  unfold SFeqb, same_or_zeros.
  destruct x as [sx|sx| |sx mx ex], y as [sy|sy| |sy my ey]; cbn [SFcompare];
    try discriminate;
    try (destruct sx; discriminate); try (destruct sy; discriminate).
  - intros _. split; [right; eauto|discriminate].
  - destruct sx, sy; try discriminate; intros _; (split; [now left|discriminate]).
  - destruct sx, sy; try discriminate.
    + destruct (Z.compare_spec ex ey) as [->|?|?]; try discriminate.
      intros H. split; [|discriminate]. left.
      destruct (Pos.compare_cont Eq mx my) eqn:E; try discriminate.
      apply Pos.compare_eq in E. now subst.
    + destruct (Z.compare_spec ex ey) as [->|?|?]; try discriminate.
      intros H. split; [|discriminate]. left.
      destruct (Pos.compare_cont Eq mx my) eqn:E; try discriminate.
      apply Pos.compare_eq in E. now subst.
Qed.

Lemma SFabs_sub_same_or_zeros (x x' y y' : spec_float) :
  same_or_zeros x x' -> same_or_zeros y y' ->
  SFabs (SFsub prec emax x y) = SFabs (SFsub prec emax x' y').
Proof.
  intros [->|(s & s' & -> & ->)] [->|(t & t' & -> & ->)].
  - reflexivity.
  - destruct x' as [sx|sx| |sx mx ex]; try reflexivity.
    destruct sx, t, t'; reflexivity.
  - destruct y' as [sy|sy| |sy my ey]; try reflexivity.
    destruct s, s', sy; reflexivity.
  - destruct s, s', t, t'; reflexivity.
Qed.

(** [Math.abs(a - b)] only depends on [a] and [b] up to [===]. *)
Lemma abs_sub_eqb (a a' b b' : float) :
  (a =? a')%float = true -> (b =? b')%float = true ->
  abs (a - b) = abs (a' - b').
Proof.
  rewrite !FloatAxioms.eqb_spec. intros Ha Hb.
  apply SFeqb_same_or_zeros in Ha as [Ha _], Hb as [Hb _].
  apply Prim2SF_inj. rewrite !abs_spec, !sub_spec.
  now apply SFabs_sub_same_or_zeros.
Qed.

End SubFacts.

Module JsStringFacts.
Import JsString.

Lemma split_nonempty (sep : ascii) (s : string) : split sep s <> [].
Proof.
  induction s as [|c rest IH]; simpl; [discriminate|].
  destruct (Ascii.eqb c sep); [discriminate|].
  destruct (split sep rest); [contradiction|discriminate].
Qed.

End JsStringFacts.

(* ------------------------------------------------------------------ *)
(** ** Vector math *)
(* ------------------------------------------------------------------ *)

Lemma reduce_indexed_combine (a b : vector) :
  forall (i : nat) (acc : number),
    (i + length a <= length b)%nat ->
    reduce_indexed (fun sum x k => (sum + x * vec_get b k)%float) acc i a =
    fold_left (fun sum xy => (sum + fst xy * snd xy)%float)
      (combine a (skipn i b)) acc.
Proof.
  induction a as [|x xs IH]; intros i acc Hlen; simpl; [reflexivity|].
  simpl in Hlen.
  assert (Hi : (i < length b)%nat) by lia.
  destruct (lookup_lt_is_Some_2 b i Hi) as [y Hy].
  assert (Hget : vec_get b i = y)
    by (unfold vec_get; now apply nth_lookup_Some).
  rewrite Hget, (drop_S b y i Hy). simpl. apply IH. lia.
Qed.

Lemma dotProduct_spec (a b : vector) :
  length a = length b -> dotProduct a b = spec_dot a b.
Proof.
  intros Hlen. unfold dotProduct, spec_dot.
  rewrite reduce_indexed_combine by (simpl; lia). reflexivity.
Qed.

Lemma fold_squares (a : vector) :
  forall acc : number,
    fold_left (fun sum x => (sum + x * x)%float) a acc =
    fold_left (fun sum xy => (sum + fst xy * snd xy)%float) (combine a a) acc.
Proof.
  induction a as [|x xs IH]; intros acc; simpl; [reflexivity|]. apply IH.
Qed.

Lemma magnitude_spec (a : vector) : magnitude a = spec_norm a.
Proof. unfold magnitude, spec_norm, spec_dot. now rewrite fold_squares. Qed.

(** C2: on vectors of different lengths [cosineSimilarity] throws the
    dimension-mismatch error; on vectors of equal length it returns
    exactly 0 (a number, not NaN, and no error) as soon as one of the two
    magnitudes is zero, and otherwise dot(a,b) / (|a| * |b|). *)
Theorem cosineSimilarity_cases (a b : vector) :
  (length a <> length b -> cosineSimilarity a b = Throw DimensionMismatch) /\
  (length a = length b ->
     (Num.strict_eq (spec_norm a) 0%float = true \/
      Num.strict_eq (spec_norm b) 0%float = true ->
        cosineSimilarity a b = Ok 0%float /\ Num.isNaN 0%float = false) /\
     (Num.strict_eq (spec_norm a) 0%float = false /\
      Num.strict_eq (spec_norm b) 0%float = false ->
        cosineSimilarity a b =
        Ok (spec_dot a b / (spec_norm a * spec_norm b))%float)).
Proof.
  unfold cosineSimilarity. split.
  - intros Hne. apply Nat.eqb_neq in Hne. now rewrite Hne.
  - intros Heq. rewrite (proj2 (Nat.eqb_eq _ _) Heq). simpl.
    rewrite !magnitude_spec, dotProduct_spec by assumption.
    split.
    + intros [H|H]; rewrite H; [|rewrite orb_true_r]; split; reflexivity.
    + intros [Ha Hb]. now rewrite Ha, Hb.
Qed.

Lemma cosineSimilarity_cases_witness :
  cosineSimilarity [1; 2]%float [3]%float = Throw DimensionMismatch /\
  cosineSimilarity [0; 0]%float [3; 4]%float = Ok 0%float /\
  cosineSimilarity [1; 0; 0; 0]%float [1; 1; 1; 1]%float = Ok 0.5%float.
Proof.
  split; [|split].
  - apply (proj1 (cosineSimilarity_cases [1; 2]%float [3]%float)).
    simpl. lia.
  - apply (proj1 (proj2 (cosineSimilarity_cases [0; 0]%float [3; 4]%float)
                    eq_refl)).
    left. reflexivity.
  - apply (proj2 (proj2 (cosineSimilarity_cases [1; 0; 0; 0]%float
                           [1; 1; 1; 1]%float) eq_refl)).
    split; reflexivity.
Defined.

(* ------------------------------------------------------------------ *)
(** ** Summary window selector *)
(* ------------------------------------------------------------------ *)

(** Distinct narrative focuses are announced by distinct FOCUS lines. *)
Lemma focusLine_inj (f g : Focus) (n : Z) :
  focusLine f n = focusLine g n -> f = g.
Proof.
  destruct f, g; simpl; intros H; try reflexivity; discriminate H.
Qed.

(** C3: the FOCUS line chosen by generateExecutiveSummary is the one of
    the ordered cascade (7-day critical > 0, else 7-day high < 5, else
    30-day critical < 5, else default), and of no other focus; the four
    rows of the window selection table follow. *)
Theorem windowContext_cascade (metrics : PrioritizedMetrics) :
  let critical7d := criticalCount (recent7d metrics) in
  let high7d := highCount (recent7d metrics) in
  let critical30d := criticalCount (recent30d metrics) in
  (forall f : Focus,
     windowContext metrics = focusLine f critical7d <->
     f = spec_focus critical7d high7d critical30d) /\
  (critical7d = 0 -> high7d = 3 ->
     windowContext metrics = focusLine ThirtyDayFallback critical7d) /\
  (critical7d = 2 ->
     windowContext metrics = focusLine SevenDayUrgent critical7d) /\
  (critical7d = 0 -> high7d = 7 -> critical30d = 2 ->
     windowContext metrics = focusLine AllTimeTrend critical7d) /\
  (critical7d = 0 -> high7d = 7 -> critical30d = 8 ->
     windowContext metrics = focusLine ThirtyDayPerformance critical7d).
Proof.
  intros c7 h7 c30.
  assert (Hsel : windowContext metrics = focusLine (spec_focus c7 h7 c30) c7).
  { unfold windowContext, spec_focus. fold c7 h7 c30.
    destruct (c7 >? 0)%Z; [reflexivity|].
    rewrite Z.geb_leb, (Z.ltb_antisym 5 h7).
    destruct (5 <=? h7)%Z; simpl; [|reflexivity].
    rewrite Z.geb_leb, (Z.ltb_antisym 5 c30).
    destruct (5 <=? c30)%Z; reflexivity. }
  split; [|repeat split].
  - intros f. rewrite Hsel. split.
    + intros H. symmetry. now apply focusLine_inj in H.
    + now intros ->.
  - intros H7 H. rewrite Hsel, H7, H. reflexivity.
  - intros H7. rewrite Hsel, H7. reflexivity.
  - intros H7 H H30. rewrite Hsel, H7, H, H30. reflexivity.
  - intros H7 H H30. rewrite Hsel, H7, H, H30. reflexivity.
Qed.

Lemma windowContext_cascade_witness :
  windowContext (metrics_with 0 3 9) =
    "FOCUS: Issues from the last 30 days (fallback due to low 7-day volume)." /\
  windowContext (metrics_with 2 0 0) =
    "FOCUS: Urgent issues from the last 7 days (2 critical items)." /\
  windowContext (metrics_with 0 7 2) =
    "FOCUS: Long-term trends and issues from the past year (fallback due to low 30-day volume)." /\
  windowContext (metrics_with 0 7 8) = "FOCUS: Recent 30-day performance trends.".
Proof.
  split; [|split; [|split]].
  - apply (proj1 (proj2 (windowContext_cascade (metrics_with 0 3 9))));
      reflexivity.
  - apply (proj1 (proj2 (proj2 (windowContext_cascade (metrics_with 2 0 0)))));
      reflexivity.
  - apply (proj1 (proj2 (proj2 (proj2
             (windowContext_cascade (metrics_with 0 7 2))))));
      reflexivity.
  - apply (proj2 (proj2 (proj2 (proj2
             (windowContext_cascade (metrics_with 0 7 8))))));
      reflexivity.
Defined.

(* ------------------------------------------------------------------ *)
(** ** Persistence mapping *)
(* ------------------------------------------------------------------ *)

Lemma saveClassifications_insertRow (db : D1Database) (feedbackId : Z)
  (cls : Classifications) (notes : option string) :
  saveClassifications db feedbackId cls notes =
  db_write db [insertRow feedbackId cls].
Proof. reflexivity. Qed.

Lemma saveChunks_rows (db : D1Database) (batchResults : list BatchResult) :
  forall (fuel i : nat) (w w' : World),
    saveChunks db batchResults fuel i w = (Ok tt, w') ->
    db_rows w' =
    db_rows w ++
      map (fun res => insertRow (br_id res) (br_classifications res))
        (skipn i batchResults).
Proof.
  induction fuel as [|fuel IH]; intros i w w' H; simpl in H; [discriminate|].
  destruct (i <? length batchResults)%nat eqn:Hi.
  - unfold bind, db_write in H.
    destruct (write_fails db (db_calls w) _); [discriminate|].
    apply IH in H. simpl in H. rewrite H, <- app_assoc, <- map_app.
    do 2 f_equal. unfold slice, saveChunkSize.
    replace (i + 50 - i)%nat with 50%nat by lia.
    rewrite <- (drop_drop batchResults 50 i). apply take_drop.
  - injection H as <-. apply Nat.ltb_ge in Hi.
    rewrite drop_ge by lia. simpl. now rewrite app_nil_r.
Qed.

(** C10: both save paths bind the same row, built with [x || null].
    For each category: when it is absent from the classification map,
    its label and confidence columns are NULL (no error); when it is
    present, an empty label is bound as NULL and any other label is
    bound as it is, and a confidence that is 0 (or not a number) is
    bound as NULL while any other confidence is bound as it is
    (churnRisk has a label column only). *)
Theorem insertRow_falsy_or_null (db : D1Database) (feedbackId : Z)
  (cls : Classifications) (cat : string) :
  cat ∈ categoryNames ->
  let row := insertRow feedbackId cls in
  (forall notes w, saveClassifications db feedbackId cls notes w =
             (match write_fails db (db_calls w) [row] with
              | Some e => Throw e
              | None => Ok tt
              end,
              mkWorld (ai_log w) (S (db_calls w))
                (match write_fails db (db_calls w) [row] with
                 | Some _ => db_rows w
                 | None => db_rows w ++ [row]
                 end))) /\
  (forall batchResults fuel i w w',
     saveChunks db batchResults fuel i w = (Ok tt, w') ->
     db_rows w' =
     db_rows w ++ map (fun res => insertRow (br_id res) (br_classifications res))
                    (skipn i batchResults)) /\
  (cls !! cat = None ->
     labelColumn cat row = None /\ confidenceColumn cat row = None) /\
  (forall r, cls !! cat = Some r ->
     Num.strict_eq (confidence r) 0%float = true ->
     confidenceColumn cat row = None) /\
  (forall r, cls !! cat = Some r ->
     (label r = "" -> labelColumn cat row = None) /\
     (label r <> "" -> labelColumn cat row = Some (label r)) /\
     (Num.isNaN (confidence r) = true -> confidenceColumn cat row = None) /\
     (Num.strict_eq (confidence r) 0%float = false ->
      Num.isNaN (confidence r) = false ->
      cat <> "churnRisk" ->
      confidenceColumn cat row = Some (confidence r))).
Proof.
  intros Hcat row. split; [|split; [|split; [|split]]].
  - intros notes w. rewrite saveClassifications_insertRow. unfold db_write.
    fold row. now destruct (write_fails db (db_calls w) [row]).
  - intros. eapply saveChunks_rows; eassumption.
  - intros Habs. unfold categoryNames in Hcat.
    repeat (apply elem_of_cons in Hcat as [->|Hcat]);
      [..|now apply elem_of_nil in Hcat];
      unfold row, insertRow, labelColumn, confidenceColumn; simpl;
      rewrite Habs; split; reflexivity.
  - intros r Hr Hz.
    assert (Hnull : orNull_number (Some (confidence r)) = None).
    { unfold Num.strict_eq in Hz. unfold orNull_number, Num.truthy.
      now rewrite Hz. }
    unfold categoryNames in Hcat.
    repeat (apply elem_of_cons in Hcat as [->|Hcat]);
      [..|now apply elem_of_nil in Hcat];
      unfold row, insertRow, confidenceColumn; simpl;
      try rewrite Hr; simpl; try exact Hnull; reflexivity.
  - intros r Hr.
    assert (Hlabel : labelColumn cat row = orNull_string (Some (label r))).
    { unfold categoryNames in Hcat.
      repeat (apply elem_of_cons in Hcat as [->|Hcat]);
        [..|now apply elem_of_nil in Hcat];
        unfold row, insertRow, labelColumn; simpl; now rewrite Hr. }
    assert (Hconf : cat <> "churnRisk" ->
                    confidenceColumn cat row =
                    orNull_number (Some (confidence r))).
    { intros Hne. unfold categoryNames in Hcat.
      repeat (apply elem_of_cons in Hcat as [->|Hcat]);
        [..|now apply elem_of_nil in Hcat];
        try contradiction;
        unfold row, insertRow, confidenceColumn; simpl; now rewrite Hr. }
    assert (Hchurn : cat = "churnRisk" -> confidenceColumn cat row = None)
      by (now intros ->).
    split; [|split; [|split]].
    + intros He. rewrite Hlabel, He. reflexivity.
    + intros Hne. rewrite Hlabel. cbn [orNull_string].
      destruct (label r); [contradiction|reflexivity].
    + intros Hnan. destruct (String.eqb_spec cat "churnRisk") as [Hc|Hc];
        [now apply Hchurn|].
      rewrite (Hconf Hc). unfold orNull_number, Num.truthy.
      unfold Num.isNaN in Hnan. rewrite Hnan, orb_true_r. reflexivity.
    + intros Hz Hnan Hc. rewrite (Hconf Hc).
      unfold orNull_number, Num.truthy.
      unfold Num.strict_eq in Hz. unfold Num.isNaN in Hnan.
      now rewrite Hz, Hnan.
Qed.

Lemma insertRow_falsy_or_null_witness :
  insertRow 7 cls_zero_polarity =
    mkRow 7 (Some "positive") None None None (Some "D1") (Some 0.8%float)
      None None None /\
  confidenceColumn "polarity" (insertRow 7 cls_zero_polarity) = None /\
  labelColumn "urgency" (insertRow 7 cls_zero_polarity) = None /\
  confidenceColumn "urgency" (insertRow 7 cls_zero_polarity) = None /\
  labelColumn "products" (insertRow 7 cls_zero_polarity) = Some "D1" /\
  confidenceColumn "products" (insertRow 7 cls_zero_polarity) =
    Some 0.8%float /\
  labelColumn "polarity"
    (insertRow 7 (<["polarity" := mkResult "polarity" "" 0.9%float]> ∅)) = None.
Proof.
  split; [reflexivity|].
  assert (Hp : "polarity" ∈ categoryNames) by (unfold categoryNames; repeat constructor).
  assert (Hu : "urgency" ∈ categoryNames) by (unfold categoryNames; repeat constructor).
  assert (Hd : "products" ∈ categoryNames) by (unfold categoryNames; repeat constructor).
  pose proof (insertRow_falsy_or_null (mkD1 (fun _ _ => None)) 7
                cls_zero_polarity "polarity" Hp) as (_ & _ & _ & Hzero & _).
  pose proof (insertRow_falsy_or_null (mkD1 (fun _ _ => None)) 7
                cls_zero_polarity "urgency" Hu) as (_ & _ & Habs & _).
  pose proof (insertRow_falsy_or_null (mkD1 (fun _ _ => None)) 7
                cls_zero_polarity "products" Hd) as (_ & _ & _ & _ & Hkept).
  pose proof (insertRow_falsy_or_null (mkD1 (fun _ _ => None)) 7
                (<["polarity" := mkResult "polarity" "" 0.9%float]> ∅)
                "polarity" Hp) as (_ & _ & _ & _ & Hempty).
  destruct (Hkept (mkResult "products" "D1" 0.8%float) eq_refl)
    as (_ & Hl & _ & Hc).
  split; [exact (Hzero (mkResult "polarity" "positive" 0%float) eq_refl eq_refl)|].
  split; [exact (proj1 (Habs eq_refl))|].
  split; [exact (proj2 (Habs eq_refl))|].
  split; [apply Hl; discriminate|].
  split; [apply Hc; [reflexivity|reflexivity|discriminate]|].
  exact (proj1 (Hempty (mkResult "polarity" "" 0.9%float) eq_refl) eq_refl).
Defined.

(* ------------------------------------------------------------------ *)
(** ** Summary composer *)
(* ------------------------------------------------------------------ *)

(** C8: generateExecutiveSummary always returns a string, after exactly
    one completion call.  When the call fails the string is the
    fallback text built from the error; when the call succeeds with an
    absent or empty response it is the non-empty placeholder; otherwise
    it is the response. *)
Theorem generateExecutiveSummary_never_throws (metrics : PrioritizedMetrics)
  (ai : Ai) (w : World) :
  exists s : string,
    generateExecutiveSummary metrics ai w =
      (Ok s, mkWorld (ai_log w ++ [CallChat (summaryPrompt metrics) 200])
               (db_calls w) (db_rows w)) /\
    (forall e,
       run_chat ai (length (ai_log w)) (summaryPrompt metrics) 200 = Rejected e ->
       s = "Unable to generate summary: " +:+ errorMessage e /\ s <> "") /\
    (forall r,
       run_chat ai (length (ai_log w)) (summaryPrompt metrics) 200 = Resolved r ->
       (response r = None \/ response r = Some "" ->
          s = "Summary generation in progress..." /\ s <> "") /\
       (forall t, response r = Some t -> t <> "" -> s = t)).
Proof.
  unfold generateExecutiveSummary, try_catch, bind, ai_run_chat, ret.
  destruct (run_chat ai (length (ai_log w)) (summaryPrompt metrics) 200)
    as [r|e] eqn:Hcall; simpl.
  - eexists. split; [reflexivity|]. split; [intros e [=]|].
    intros r' [= <-]. unfold responseOrPlaceholder. split.
    + intros [-> | ->]; simpl; split; try reflexivity; discriminate.
    + intros t -> Ht. destruct t; [contradiction|reflexivity].
  - eexists. split; [reflexivity|]. split; [|intros r [=]].
    intros e' [= <-]. split; [reflexivity|discriminate].
Qed.

Lemma generateExecutiveSummary_never_throws_witness :
  fst (generateExecutiveSummary (metrics_with 0 3 9) ai_chat_down
         (mkWorld [] 0 [])) =
    Ok "Unable to generate summary: model overloaded" /\
  fst (generateExecutiveSummary (metrics_with 0 3 9) ai_chat_empty
         (mkWorld [] 0 [])) =
    Ok "Summary generation in progress...".
Proof.
  split.
  - destruct (generateExecutiveSummary_never_throws (metrics_with 0 3 9)
                ai_chat_down (mkWorld [] 0 [])) as (s & -> & Hfail & _).
    destruct (Hfail _ eq_refl) as [-> _]. reflexivity.
  - destruct (generateExecutiveSummary_never_throws (metrics_with 0 3 9)
                ai_chat_empty (mkWorld [] 0 [])) as (s & -> & _ & Hok).
    destruct (proj1 (Hok _ eq_refl) (or_intror eq_refl)) as [-> _].
    reflexivity.
Defined.

(* ------------------------------------------------------------------ *)
(** ** Embedding batcher *)
(* ------------------------------------------------------------------ *)

Lemma chunks_fuel_cons {A} (fuel n : nat) (l : list A) :
  l <> [] ->
  chunks_fuel (S fuel) n l = take n l :: chunks_fuel fuel n (drop n l).
Proof. destruct l; [contradiction|reflexivity]. Qed.

Lemma chunks_fuel_concat {A} (n : nat) :
  (0 < n)%nat ->
  forall (fuel : nat) (l : list A),
    (length l < fuel)%nat -> concat (chunks_fuel fuel n l) = l.
Proof.
  intros Hn. induction fuel as [|fuel IH]; intros l Hl; [lia|].
  destruct l as [|x l]; [reflexivity|].
  cbn [chunks_fuel concat]. rewrite IH.
  - apply take_drop.
  - rewrite length_drop. simpl in *. lia.
Qed.

Lemma chunkSizes_step (n len : nat) :
  (0 < n)%nat -> (n <= len)%nat ->
  chunkSizes n len = n :: chunkSizes n (len - n).
Proof.
  intros Hn Hle. unfold chunkSizes.
  assert (Hd : (len / n = S ((len - n) / n))%nat).
  { replace len with ((len - n) + 1 * n)%nat at 1 by lia.
    rewrite Nat.div_add by lia. lia. }
  assert (Hm : (len mod n = (len - n) mod n)%nat).
  { replace len with ((len - n) + 1 * n)%nat at 1 by lia.
    now rewrite Nat.Div0.mod_add. }
  rewrite Hd, Hm. reflexivity.
Qed.

Lemma chunkSizes_small (n len : nat) :
  (0 < len)%nat -> (len < n)%nat -> chunkSizes n len = [len].
Proof.
  intros Hpos Hlt. unfold chunkSizes.
  rewrite Nat.div_small, Nat.mod_small by lia.
  destruct (Nat.eqb_spec len 0); [lia|reflexivity].
Qed.

Lemma chunks_fuel_sizes {A} (n : nat) :
  (0 < n)%nat ->
  forall (fuel : nat) (l : list A),
    (length l < fuel)%nat ->
    map length (chunks_fuel fuel n l) = chunkSizes n (length l).
Proof.
  intros Hn. induction fuel as [|fuel IH]; intros l Hl; [lia|].
  destruct l as [|x l].
  - unfold chunkSizes. simpl. rewrite Nat.Div0.div_0_l, Nat.Div0.mod_0_l.
    reflexivity.
  - cbn [chunks_fuel map]. rewrite length_take.
    destruct (Nat.le_gt_cases n (length (x :: l))) as [Hle|Hgt].
    + rewrite IH by (rewrite length_drop; simpl in *; lia).
      rewrite length_drop, (chunkSizes_step n (length (x :: l))) by lia.
      f_equal. cbn [length] in *. lia.
    + rewrite drop_ge by lia.
      rewrite chunkSizes_small by (cbn [length] in *; lia).
      destruct fuel; cbn [chunks_fuel map length] in *; f_equal; lia.
Qed.

Lemma embedChunks_pointwise (ai : Ai) (E : string -> vector)
  (items : list FeedbackItem) :
  embeds_pointwise ai E ->
  forall (fuel i : nat) (all : list (option vector)) (w : World),
    (length items - i < fuel)%nat ->
    embedChunks ai items fuel i all w =
    (Ok (all ++ map (fun it => Some (E (content it))) (drop i items)),
     mkWorld
       (ai_log w ++
          map (fun c => CallEmbed (map content c))
            (chunks_fuel fuel chunkSize (drop i items)))
       (db_calls w) (db_rows w)).
Proof.
  intros HE. induction fuel as [|fuel IH]; intros i all w Hfuel; [lia|].
  cbn [embedChunks].
  destruct (Nat.ltb_spec i (length items)) as [Hi|Hi].
  - unfold bind at 1. unfold ai_run_embed. rewrite HE. cbn [await].
    unfold bind, lift. cbn [data spread].
    rewrite IH by (unfold chunkSize; lia). cbn [ai_log db_calls db_rows].
    assert (Hslice : slice i (i + chunkSize) items = take chunkSize (drop i items)).
    { unfold slice. f_equal. lia. }
    assert (Hne : exists x rest, drop i items = x :: rest).
    { destruct (drop i items) as [|x rest] eqn:E0; [|eauto].
      apply (f_equal length) in E0. rewrite length_drop in E0.
      simpl in E0. lia. }
    destruct Hne as (x & rest & Hdrop).
    rewrite Hslice. f_equal.
    + f_equal. rewrite <- app_assoc. f_equal.
      rewrite map_map, <- map_app. f_equal.
      rewrite <- drop_drop. apply take_drop.
    + f_equal. rewrite <- app_assoc. f_equal.
      rewrite chunks_fuel_cons by (rewrite Hdrop; discriminate).
      cbn [map app]. now rewrite <- drop_drop.
  - rewrite drop_ge by lia. unfold ret. simpl. rewrite !app_nil_r.
    destruct fuel; destruct w; reflexivity.
Qed.

(** C5: against an embedding service that returns one vector per text,
    the batcher issues exactly one call per consecutive chunk of 100
    items (the last chunk holding the remainder), and the concatenated
    vectors are in input order: one per item, the i-th vector being the
    embedding of the i-th item.  For 250 items the calls have sizes 100,
    100 and 50. *)
Theorem embedChunks_order (ai : Ai) (E : string -> vector)
  (items : list FeedbackItem) (w : World) :
  embeds_pointwise ai E ->
  exists (vectors : list (option vector)) (chunks : list (list FeedbackItem))
         (w' : World),
    embedChunks ai items (S (length items)) 0 [] w = (Ok vectors, w') /\
    ai_log w' = ai_log w ++ map (fun c => CallEmbed (map content c)) chunks /\
    db_calls w' = db_calls w /\ db_rows w' = db_rows w /\
    concat chunks = items /\
    map length chunks = chunkSizes 100 (length items) /\
    length vectors = length items /\
    (forall (i : nat) (it : FeedbackItem),
       items !! i = Some it -> vectors !! i = Some (Some (E (content it)))) /\
    (length items = 250%nat -> map length chunks = [100; 100; 50]%nat).
Proof.
  intros HE.
  pose proof (embedChunks_pointwise ai E items HE (S (length items)) 0 [] w)
    as Hrun.
  rewrite drop_0 in Hrun. cbn [app] in Hrun.
  assert (Hsizes : map length (chunks_fuel (S (length items)) chunkSize items) =
                   chunkSizes 100 (length items)).
  { apply (chunks_fuel_sizes 100); lia. }
  eexists _, (chunks_fuel (S (length items)) chunkSize items), _.
  split; [apply Hrun; lia|]. cbn [ai_log db_calls db_rows].
  repeat split.
  - apply (chunks_fuel_concat 100); lia.
  - exact Hsizes.
  - now rewrite length_map.
  - intros i it Hi. now rewrite list_lookup_fmap, Hi.
  - intros H250. rewrite Hsizes, H250. reflexivity.
Qed.

Lemma embedChunks_order_witness :
  exists (vectors : list (option vector)) (w' : World),
    embedChunks ai_unit_vectors items250 251 0 [] (mkWorld [] 0 []) =
      (Ok vectors, w') /\
    length vectors = 250%nat /\
    length (ai_log w') = 3%nat.
Proof.
  destruct (embedChunks_order ai_unit_vectors embed_by_emptiness
              items250 (mkWorld [] 0 []) (fun _ _ => eq_refl))
    as (vectors & chunks & w' & Hrun & Hlog & _ & _ & _ & _ & Hlen & _ & H250).
  exists vectors, w'. split; [exact Hrun|]. split; [exact Hlen|].
  rewrite Hlog. cbn [ai_log app]. rewrite length_map.
  rewrite <- (length_map length chunks), (H250 eq_refl). reflexivity.
Defined.

(* ------------------------------------------------------------------ *)
(** ** Anchor precomputation *)
(* ------------------------------------------------------------------ *)

Lemma mapi_throw_not_fuel {A B} (f : A -> nat -> outcome B) :
  (forall x i, f x i <> Fuel) ->
  forall (l : list A) (i : nat), mapi_throw f i l <> Fuel.
Proof.
  intros Hf. induction l as [|x xs IH]; intros i; simpl; [discriminate|].
  specialize (Hf x i). destruct (f x i); simpl; try congruence.
  specialize (IH (S i)). destruct (mapi_throw f (S i) xs); simpl; congruence.
Qed.

Lemma anchor_of_not_fuel (d : option (list (option vector))) (l : string)
  (i : nat) : anchor_of d l i <> Fuel.
Proof.
  unfold anchor_of. destruct d as [vs|]; [|discriminate].
  destruct (mjoin (vs !! i)); discriminate.
Qed.

Lemma mapi_anchor_ok (vs : list (option vector)) :
  forall (labels : list string) (i : nat),
    (forall j, (j < length labels)%nat ->
               exists v, vs !! (i + j)%nat = Some (Some v)) ->
    exists embs,
      mapi_throw (anchor_of (Some vs)) i labels = Ok embs /\
      map le_label embs = labels.
Proof.
  induction labels as [|l ls IH]; intros i Hall; cbn [mapi_throw].
  - exists []. split; reflexivity.
  - destruct (Hall 0%nat ltac:(simpl; lia)) as [v Hv].
    rewrite Nat.add_0_r in Hv.
    assert (Ha : anchor_of (Some vs) l i = Ok (mkLabelEmbedding l v))
      by (unfold anchor_of; now rewrite Hv).
    destruct (IH (S i)) as (embs & Hembs & Hlabels).
    { intros j Hj. destruct (Hall (S j) ltac:(simpl; lia)) as [v' Hv'].
      exists v'. now replace (S i + j)%nat with (i + S j)%nat by lia. }
    rewrite Ha. cbn [obind]. rewrite Hembs. cbn [obind].
    eexists. split; [reflexivity|]. simpl. now rewrite Hlabels.
Qed.

Lemma precomputeCategory_world (ai : Ai) (d : LabelDefinition) (w : World) :
  snd (precomputeCategory ai d w) = after_embed w (def_labels d) /\
  fst (precomputeCategory ai d w) <> Fuel.
Proof.
  unfold precomputeCategory, try_catch, bind, ai_run_embed, lift, ret, throw.
  destruct (run_embed ai (length (ai_log w)) (def_labels d)) as [r|e]; simpl;
    [|split; [reflexivity|discriminate]].
  pose proof (mapi_throw_not_fuel (anchor_of (data r)) (anchor_of_not_fuel _)
                (def_labels d) 0%nat) as Hnf.
  destruct (mapi_throw (anchor_of (data r)) 0 (def_labels d)); simpl;
    split; try reflexivity; try discriminate; congruence.
Qed.

Lemma precomputeCategory_rejected (ai : Ai) (d : LabelDefinition) (w : World)
  (e : thrown) :
  run_embed ai (length (ai_log w)) (def_labels d) = Rejected e ->
  precomputeCategory ai d w = (Throw e, after_embed w (def_labels d)).
Proof.
  intros H.
  unfold precomputeCategory, try_catch, bind, ai_run_embed, throw.
  now rewrite H.
Qed.

Lemma precomputeCategory_ok (ai : Ai) (d : LabelDefinition) (w : World) :
  anchors_complete (run_embed ai (length (ai_log w)) (def_labels d))
    (def_labels d) ->
  exists ce,
    precomputeCategory ai d w = (Ok ce, after_embed w (def_labels d)) /\
    anchors_of d ce.
Proof.
  intros (vs & Hr & Hall).
  destruct (mapi_anchor_ok vs (def_labels d) 0%nat) as (embs & Hembs & Hl).
  { intros j Hj. simpl. now apply Hall. }
  exists (mkCategoryEmbeddings (def_category d) embs). split.
  - unfold precomputeCategory, try_catch, bind, ai_run_embed, lift, ret.
    rewrite Hr. simpl. rewrite Hembs. reflexivity.
  - split; [reflexivity|exact Hl].
Qed.

Lemma precomputeLoop_world (ai : Ai) :
  forall (defs : list LabelDefinition) (acc : list CategoryEmbeddings)
         (w : World),
    fst (precomputeLoop ai defs acc w) <> Fuel /\
    db_calls (snd (precomputeLoop ai defs acc w)) = db_calls w /\
    db_rows (snd (precomputeLoop ai defs acc w)) = db_rows w /\
    exists n : nat,
      ai_log (snd (precomputeLoop ai defs acc w)) =
      ai_log w ++ map anchor_call (take n defs).
Proof.
  induction defs as [|d defs IH]; intros acc w; simpl.
  - repeat split; try discriminate. exists 0%nat. simpl. now rewrite app_nil_r.
  - unfold bind.
    destruct (precomputeCategory_world ai d w) as [Hw Hnf].
    destruct (precomputeCategory ai d w) as [[ce|e|] w1]; simpl in *; subst w1.
    + destruct (IH (acc ++ [ce]) (after_embed w (def_labels d)))
        as (H1 & H2 & H3 & n & H4).
      repeat split; try assumption. exists (S n).
      rewrite H4. simpl. now rewrite <- app_assoc.
    + repeat split; try discriminate. exists 1%nat. simpl.
      destruct defs; reflexivity.
    + contradiction.
Qed.

Lemma precomputeLoop_first_failure (ai : Ai) :
  forall (defs : list LabelDefinition) (acc : list CategoryEmbeddings)
         (w : World) (k : nat) (d : LabelDefinition) (e : thrown),
    defs !! k = Some d ->
    (forall j dj, (j < k)%nat -> defs !! j = Some dj ->
       anchors_complete (run_embed ai (length (ai_log w) + j) (def_labels dj))
         (def_labels dj)) ->
    run_embed ai (length (ai_log w) + k) (def_labels d) = Rejected e ->
    precomputeLoop ai defs acc w =
    (Throw e,
     mkWorld (ai_log w ++ map anchor_call (take (S k) defs))
       (db_calls w) (db_rows w)).
Proof.
  induction defs as [|d0 defs IH]; intros acc w k d e Hk Hgood Hrej;
    [discriminate|].
  cbn [precomputeLoop]. unfold bind. destruct k as [|k].
  - injection Hk as ->. rewrite Nat.add_0_r in Hrej.
    rewrite (precomputeCategory_rejected ai d w e Hrej).
    simpl. destruct defs; reflexivity.
  - destruct (precomputeCategory_ok ai d0 w) as (ce & Hce & _).
    { specialize (Hgood 0%nat d0 ltac:(lia) eq_refl).
      now rewrite Nat.add_0_r in Hgood. }
    rewrite Hce.
    rewrite (IH (acc ++ [ce]) (after_embed w (def_labels d0)) k d e Hk).
    + simpl. f_equal. f_equal. now rewrite <- app_assoc.
    + intros j dj Hj Hdj. simpl. rewrite length_app. simpl.
      replace (length (ai_log w) + 1 + j)%nat
        with (length (ai_log w) + S j)%nat by lia.
      apply Hgood; [lia|exact Hdj].
    + simpl. rewrite length_app. simpl.
      now replace (length (ai_log w) + 1 + k)%nat
        with (length (ai_log w) + S k)%nat by lia.
Qed.

(** C7: when the embedding call of a category fails during anchor
    precomputation (every earlier category having received all its
    vectors), precomputeLabelEmbeddings throws that very error; and
    whenever precomputeLabelEmbeddings throws, the whole job throws the
    same error in the same world: no write was attempted, no row was
    added, and the only AI requests made are anchor requests, so no item
    was embedded or classified. *)
Theorem anchor_failure_aborts_job (feedbackItems : list FeedbackItem)
  (db : D1Database) (ai : Ai) (w : World) :
  (forall (k : nat) (d : LabelDefinition) (e : thrown),
     LABEL_DEFINITIONS !! k = Some d ->
     (forall j dj, (j < k)%nat -> LABEL_DEFINITIONS !! j = Some dj ->
        anchors_complete (run_embed ai (length (ai_log w) + j) (def_labels dj))
          (def_labels dj)) ->
     run_embed ai (length (ai_log w) + k) (def_labels d) = Rejected e ->
     precomputeLabelEmbeddings ai w =
     (Throw e,
      mkWorld (ai_log w ++ map anchor_call (take (S k) LABEL_DEFINITIONS))
        (db_calls w) (db_rows w))) /\
  (forall (e : thrown) (w' : World),
     precomputeLabelEmbeddings ai w = (Throw e, w') ->
     batchClassifyFeedback feedbackItems db ai w = (Throw e, w') /\
     db_calls w' = db_calls w /\
     db_rows w' = db_rows w /\
     exists n : nat,
       ai_log w' = ai_log w ++ map anchor_call (take n LABEL_DEFINITIONS)).
Proof.
  split.
  - intros k d e Hk Hgood Hrej. unfold precomputeLabelEmbeddings.
    now apply (precomputeLoop_first_failure ai LABEL_DEFINITIONS [] w k d e).
  - intros e w' Hpre.
    pose proof (precomputeLoop_world ai LABEL_DEFINITIONS [] w)
      as (_ & Hc & Hr & n & Hlog).
    unfold precomputeLabelEmbeddings in Hpre. rewrite Hpre in Hc, Hr, Hlog.
    simpl in Hc, Hr, Hlog. repeat split; try assumption.
    + unfold batchClassifyFeedback, bind, precomputeLabelEmbeddings.
      now rewrite Hpre.
    + now exists n.
Qed.

Lemma all_answered (texts labels : list string) (f : string -> option vector)
  (i : nat) :
  (forall t, exists v, f t = Some v) ->
  (i < length texts)%nat ->
  exists v, map f texts !! i = Some (Some v).
Proof.
  intros Hf Hi. destruct (lookup_lt_is_Some_2 texts i Hi) as [t Ht].
  destruct (Hf t) as [v Hv]. exists v.
  now rewrite list_lookup_fmap, Ht, <- Hv.
Qed.

Lemma anchor_failure_aborts_job_witness :
  batchClassifyFeedback [mkItem 1 "site is down"] db_ok ai_urgency_down
    (mkWorld [] 0 []) =
  (Throw (ErrorInstance "Error" "inference timeout"),
   mkWorld (map anchor_call (take 3 LABEL_DEFINITIONS)) 0 []).
Proof.
  destruct (anchor_failure_aborts_job [mkItem 1 "site is down"] db_ok
              ai_urgency_down (mkWorld [] 0 [])) as [Hfirst Hjob].
  apply Hjob.
  apply (Hfirst 2%nat
           (mkLabelDefinition "urgency"
              [ "critical urgent blocking production emergency immediate down";
                "high priority important impacting significant";
                "medium normal standard routine moderate";
                "low minor casual suggestion nice-to-have future" ])
           (ErrorInstance "Error" "inference timeout") eq_refl).
  - intros j dj Hj Hdj.
    assert (Hk : (j =? 2)%nat = false) by (apply Nat.eqb_neq; lia).
    eexists. split.
    + simpl. rewrite Hk. reflexivity.
    + intros i Hi. apply (all_answered _ (def_labels dj)); eauto.
  - reflexivity.
Defined.

(* ------------------------------------------------------------------ *)
(** ** Counts of the bulk job *)
(* ------------------------------------------------------------------ *)

Lemma count_some_none {A} (l : list (option A)) :
  (count_some l + count_none l = length l)%nat.
Proof.
  unfold count_some, count_none. induction l as [|[a|] l IH].
  - reflexivity.
  - rewrite filter_cons_True by eauto.
    rewrite (filter_cons_False (fun x => x = None)) by discriminate.
    simpl. lia.
  - rewrite filter_cons_False by (intros [? [=]]).
    rewrite (filter_cons_True (fun x => x = None)) by reflexivity.
    simpl. lia.
Qed.

Lemma count_some_omap {A} (l : list (option A)) :
  count_some l = length (omap (fun x => x) l).
Proof.
  unfold count_some. induction l as [|[a|] l IH].
  - reflexivity.
  - rewrite filter_cons_True by eauto. simpl. now rewrite IH.
  - rewrite filter_cons_False by (intros [? [=]]). simpl. exact IH.
Qed.

Lemma itemResults_length LE embs :
  forall items i, length (itemResults LE embs i items) = length items.
Proof. induction items as [|x xs IH]; intros i; simpl; [|rewrite IH]; reflexivity. Qed.

Lemma itemResults_lookup LE embs :
  forall items i j item,
    items !! j = Some item ->
    itemResults LE embs i items !! j = Some (itemResult LE embs (i + j) item).
Proof.
  induction items as [|x xs IH]; intros i j item Hj; [discriminate|].
  destruct j as [|j]; simpl in *.
  - injection Hj as ->. now rewrite Nat.add_0_r.
  - rewrite (IH (S i) j item Hj). do 2 f_equal. lia.
Qed.

Lemma classifyLoop_results LE embs :
  forall (items : list FeedbackItem) (i : nat) (st : LoopState),
    let rs := itemResults LE embs i items in
    classifyLoop LE embs items i st =
    mkLoopState (st_classified st + count_some rs)
      (st_failed st + count_none rs)
      (st_batchResults st ++ omap (fun x => x) rs).
Proof.
  induction items as [|item rest IH]; intros i st; cbn zeta.
  - destruct st. simpl. unfold count_some, count_none. simpl.
    now rewrite !Nat.add_0_r, app_nil_r.
  - cbn [classifyLoop itemResults]. unfold itemResult at 1 2 3.
    unfold count_some, count_none in *.
    destruct (mjoin (embs !! i)) as [v|].
    + destruct (classifyCategories v LE ∅) as [c|e|]; rewrite IH; cbn zeta;
        cbn [st_classified st_failed st_batchResults].
      * rewrite filter_cons_True by eauto.
        rewrite (filter_cons_False (fun x => x = None)) by discriminate.
        cbn [omap list_omap length]. rewrite <- app_assoc. f_equal. lia.
      * rewrite filter_cons_False by (intros [? [=]]).
        rewrite (filter_cons_True (fun x => x = None)) by reflexivity.
        cbn [omap list_omap length]. f_equal. lia.
      * rewrite filter_cons_False by (intros [? [=]]).
        rewrite (filter_cons_True (fun x => x = None)) by reflexivity.
        cbn [omap list_omap length]. f_equal. lia.
    + rewrite IH; cbn zeta; cbn [st_classified st_failed st_batchResults].
      rewrite filter_cons_False by (intros [? [=]]).
      rewrite (filter_cons_True (fun x => x = None)) by reflexivity.
      cbn [omap list_omap length]. f_equal. lia.
Qed.

Lemma embedChunks_db (ai : Ai) (items : list FeedbackItem) :
  forall (fuel i : nat) (all : list (option vector)) (w : World),
    db_calls (snd (embedChunks ai items fuel i all w)) = db_calls w /\
    db_rows (snd (embedChunks ai items fuel i all w)) = db_rows w.
Proof.
  induction fuel as [|fuel IH]; intros i all w; cbn [embedChunks];
    [split; reflexivity|].
  destruct (i <? length items)%nat; [|split; reflexivity].
  unfold bind, ai_run_embed, lift.
  destruct (run_embed ai (length (ai_log w)) _) as [r|e]; cbn [await];
    [|split; reflexivity].
  destruct (spread (data r)) as [vs|e|]; try (split; reflexivity).
  destruct (IH (i + chunkSize)%nat (all ++ vs)
              (mkWorld (ai_log w ++ [CallEmbed (map content
                 (slice i (i + chunkSize) items))]) (db_calls w) (db_rows w)))
    as [H1 H2].
  split; assumption.
Qed.

Lemma embedChunks_returns (ai : Ai) (items : list FeedbackItem) :
  (forall k texts, exists vs,
      run_embed ai k texts = Resolved (mkEmbedResponse (Some vs))) ->
  forall (fuel i : nat) (all : list (option vector)) (w : World),
    (length items - i < fuel)%nat ->
    exists embs w', embedChunks ai items fuel i all w = (Ok embs, w').
Proof.
  intros Hai. induction fuel as [|fuel IH]; intros i all w Hfuel; [lia|].
  cbn [embedChunks].
  destruct (Nat.ltb_spec i (length items)) as [Hi|Hi]; [|unfold ret; eauto].
  unfold bind at 1. unfold ai_run_embed.
  destruct (Hai (length (ai_log w))
              (map content (slice i (i + chunkSize) items))) as [vs ->].
  cbn [await]. unfold bind, lift. cbn [data spread].
  apply IH. unfold chunkSize. lia.
Qed.

Lemma saveChunks_ai_log (db : D1Database) (results : list BatchResult) :
  forall (fuel i : nat) (w : World),
    ai_log (snd (saveChunks db results fuel i w)) = ai_log w.
Proof.
  induction fuel as [|fuel IH]; intros i w; cbn [saveChunks]; [reflexivity|].
  destruct (i <? length results)%nat; [|reflexivity].
  unfold bind, db_write.
  destruct (write_fails db (db_calls w) _); [reflexivity|].
  now rewrite IH.
Qed.

Lemma saveChunks_returns (db : D1Database) (results : list BatchResult) :
  (forall k rows, write_fails db k rows = None) ->
  forall (fuel i : nat) (w : World),
    (length results - i < fuel)%nat ->
    exists w', saveChunks db results fuel i w = (Ok tt, w').
Proof.
  intros Hdb. induction fuel as [|fuel IH]; intros i w Hfuel; [lia|].
  cbn [saveChunks].
  destruct (Nat.ltb_spec i (length results)) as [Hi|Hi]; [|unfold ret; eauto].
  unfold bind, db_write. rewrite Hdb. apply IH. unfold saveChunkSize. lia.
Qed.

(** C9: when the bulk job returns counts, they partition the input:
    [classified] counts the items that got a result, [failed] the others,
    and their sum is the number of items.  An item whose vector is
    missing is among the failed ones; the rows added to the table are
    exactly those of the classified items, in order; and no AI request
    is made after the chunk requests (nothing is retried).  The job does
    return counts whenever the anchors were computed, every embedding
    request resolves with a data array and no write fails. *)
Theorem batch_counts_partition (feedbackItems : list FeedbackItem)
  (db : D1Database) (ai : Ai) (w : World) :
  (forall (counts : Counts) (w' : World),
     batchClassifyFeedback feedbackItems db ai w = (Ok counts, w') ->
     exists (labelEmbeddings : list CategoryEmbeddings)
            (feedbackEmbeddings : list (option vector)) (w1 w2 : World),
       precomputeLabelEmbeddings ai w = (Ok labelEmbeddings, w1) /\
       embedChunks ai feedbackItems (S (length feedbackItems)) 0 [] w1 =
         (Ok feedbackEmbeddings, w2) /\
       let rs := itemResults labelEmbeddings feedbackEmbeddings 0 feedbackItems in
       (classified counts + failed counts = length feedbackItems)%nat /\
       classified counts = count_some rs /\
       failed counts = count_none rs /\
       (forall i item,
          feedbackItems !! i = Some item ->
          mjoin (feedbackEmbeddings !! i) = None -> rs !! i = Some None) /\
       db_rows w' =
         db_rows w ++
         map (fun res => insertRow (br_id res) (br_classifications res))
           (omap (fun x => x) rs) /\
       ai_log w' = ai_log w2) /\
  (forall (labelEmbeddings : list CategoryEmbeddings) (w1 : World),
     precomputeLabelEmbeddings ai w = (Ok labelEmbeddings, w1) ->
     (forall k texts, exists vs,
         run_embed ai k texts = Resolved (mkEmbedResponse (Some vs))) ->
     (forall k rows, write_fails db k rows = None) ->
     exists (counts : Counts) (w' : World),
       batchClassifyFeedback feedbackItems db ai w = (Ok counts, w')).
Proof.
  split.
  - intros counts w' Hjob. unfold batchClassifyFeedback, bind in Hjob.
    pose proof (precomputeLoop_world ai LABEL_DEFINITIONS [] w)
      as (_ & _ & Hrows1 & _).
    fold (precomputeLabelEmbeddings ai) in Hrows1.
    destruct (precomputeLabelEmbeddings ai w) as [[LE|e|] w1] eqn:Hpre;
      try discriminate.
    pose proof (embedChunks_db ai feedbackItems (S (length feedbackItems))
                  0 [] w1) as [_ Hrows2].
    destruct (embedChunks ai feedbackItems (S (length feedbackItems)) 0 [] w1)
      as [[embs|e|] w2] eqn:Hemb; try discriminate.
    rewrite classifyLoop_results in Hjob. cbn zeta in Hjob.
    cbn [st_classified st_failed st_batchResults app] in Hjob.
    set (rs := itemResults LE embs 0 feedbackItems) in *.
    pose proof (saveChunks_ai_log db (omap (fun x => x) rs)
                  (S (length (omap (fun x => x) rs))) 0 w2) as Hlog.
    destruct (saveChunks db (omap (fun x => x) rs) _ 0 w2)
      as [[[]|e|] w3] eqn:Hsave; try discriminate.
    unfold ret in Hjob. injection Hjob as <- <-.
    apply saveChunks_rows in Hsave. rewrite drop_0 in Hsave.
    simpl in Hrows1, Hrows2, Hlog.
    exists LE, embs, w1, w2. cbn zeta. fold rs. cbn [classified failed].
    split; [reflexivity|]. split; [exact Hemb|].
    split; [|split; [reflexivity|split; [reflexivity|split; [|split]]]].
    + pose proof (count_some_none rs) as Hsum.
      unfold rs in Hsum at 3. rewrite itemResults_length in Hsum. exact Hsum.
    + intros i item Hi Hmiss. unfold rs.
      rewrite (itemResults_lookup LE embs feedbackItems 0 i item Hi).
      unfold itemResult. simpl. now rewrite Hmiss.
    + now rewrite Hsave, Hrows2, Hrows1.
    + exact Hlog.
  - intros LE w1 Hpre Hai Hdb. unfold batchClassifyFeedback, bind.
    rewrite Hpre.
    destruct (embedChunks_returns ai feedbackItems Hai
                (S (length feedbackItems)) 0 [] w1 ltac:(lia))
      as (embs & w2 & ->).
    match goal with
    | |- context [saveChunks db ?r ?f 0 w2] =>
        destruct (saveChunks_returns db r Hdb f 0 w2 ltac:(lia)) as [w3 ->]
    end.
    unfold ret. eauto.
Qed.

Example batch_holes_run :
  exists w',
    batchClassifyFeedback items4 db_ok ai_holes world0 =
      (Ok (mkCounts 1 3), w') /\
    map feedback_id (db_rows w') = [10] /\
    length (ai_log w') = 6%nat.
Proof. eexists. split; [vm_compute; reflexivity|]. split; reflexivity. Qed.

Lemma ai_holes_resolves (k : nat) (texts : list string) :
  exists vs, run_embed ai_holes k texts = Resolved (mkEmbedResponse (Some vs)).
Proof. simpl. destruct (k <? 5)%nat; eauto. Qed.

Lemma batch_counts_partition_witness :
  exists (counts : Counts) (w' : World),
    batchClassifyFeedback items4 db_ok ai_holes world0 = (Ok counts, w') /\
    (classified counts + failed counts = 4)%nat.
Proof.
  destruct (batch_counts_partition items4 db_ok ai_holes world0)
    as [Hparts Hreturns].
  destruct (precomputeLabelEmbeddings ai_holes world0) as [[LE|e|] w1] eqn:Hpre;
    [|vm_compute in Hpre; discriminate Hpre
     |vm_compute in Hpre; discriminate Hpre].
  destruct (Hreturns LE w1 eq_refl ai_holes_resolves (fun _ _ => eq_refl))
    as (counts & w' & Hrun).
  exists counts, w'. split; [exact Hrun|].
  destruct (Hparts counts w' Hrun)
    as (LE' & embs & w1' & w2 & _ & _ & Hsum & _).
  exact Hsum.
Defined.

(* ------------------------------------------------------------------ *)
(** ** Selection of the best anchor *)
(* ------------------------------------------------------------------ *)

Lemma mapi_throw_ok {A B} (f : A -> nat -> outcome B) :
  forall (l : list A) (i : nat) (ys : list B),
    mapi_throw f i l = Ok ys ->
    length ys = length l /\
    forall j x, l !! j = Some x ->
      exists y, ys !! j = Some y /\ f x (i + j)%nat = Ok y.
Proof.
  induction l as [|x xs IH]; intros i ys H; cbn [mapi_throw] in H.
  - injection H as <-. split; [reflexivity|]. intros j x [=].
  - destruct (f x i) as [y| |] eqn:Hy; try discriminate. cbn [obind] in H.
    destruct (mapi_throw f (S i) xs) as [ys'| |] eqn:Hys; try discriminate.
    injection H as <-. destruct (IH (S i) ys' Hys) as [Hlen Hall].
    split; [simpl; now rewrite Hlen|].
    intros [|j] x' Hx'; simpl in Hx'.
    + injection Hx' as <-. exists y. now rewrite Nat.add_0_r.
    + destruct (Hall j x' Hx') as (y' & Hy' & Hf). exists y'.
      split; [exact Hy'|]. now replace (i + S j)%nat with (S i + j)%nat by lia.
Qed.

(** The scores are those of the anchors, in enumeration order. *)
Lemma similaritiesOf_lookup (v : vector) (ce : CategoryEmbeddings)
  (sims : list Scored) :
  similaritiesOf v ce = Ok sims ->
  length sims = length (ce_embeddings ce) /\
  forall j s, sims !! j = Some s ->
    exists anchor,
      ce_embeddings ce !! j = Some anchor /\
      s_label s = le_label anchor /\
      cosineSimilarity v (le_embedding anchor) = Ok (score s).
Proof.
  intros H. apply mapi_throw_ok in H as [Hlen Hall]. split; [exact Hlen|].
  intros j s Hs.
  assert (Hj : (j < length (ce_embeddings ce))%nat)
    by (rewrite <- Hlen; eapply lookup_lt_Some; eauto).
  destruct (lookup_lt_is_Some_2 _ _ Hj) as [anchor Ha].
  destruct (Hall j anchor Ha) as (y & Hy & Hf).
  rewrite Hs in Hy. injection Hy as <-. exists anchor.
  split; [exact Ha|].
  destruct (cosineSimilarity v (le_embedding anchor)) as [c| |];
    try discriminate.
  simpl in Hf. injection Hf as <-. split; reflexivity.
Qed.

Lemma le_refl_notNaN (a : number) : Num.isNaN a = false -> Num.le a a = true.
Proof.
  intros H. apply NumFacts.not_lt_le; try assumption. apply NumFacts.lt_irrefl.
Qed.

Lemma fold_pickBest_first_maximum :
  forall (xs l : list Scored) (k : nat) (m : Scored),
    first_maximum l k m ->
    (forall s, s ∈ l ++ xs -> Num.isNaN (score s) = false) ->
    exists k', first_maximum (l ++ xs) k' (fold_left pickBest xs m).
Proof.
  induction xs as [|c xs IH]; intros l k m Hinv Hnan.
  - rewrite app_nil_r. now exists k.
  - cbn [fold_left].
    replace (l ++ c :: xs) with ((l ++ [c]) ++ xs) in *
      by (now rewrite <- app_assoc).
    destruct Hinv as (Hk & Hle & Hlt).
    assert (Hkl : (k < length l)%nat) by (eapply lookup_lt_Some; eauto).
    assert (Hm : Num.isNaN (score m) = false).
    { apply Hnan. rewrite !elem_of_app. left. left.
      eapply list_elem_of_lookup_2; eauto. }
    assert (Hc : Num.isNaN (score c) = false).
    { apply Hnan. rewrite !elem_of_app. left. right. apply list_elem_of_here. }
    unfold pickBest at 2. unfold Num.gt.
    destruct (PrimFloat.ltb (score m) (score c)) eqn:Hcmp.
    + apply (IH (l ++ [c]) (length l) c); [|exact Hnan].
      change (Num.lt (score m) (score c) = true) in Hcmp.
      split; [|split].
      * now rewrite lookup_app_r, Nat.sub_diag by lia.
      * intros j s Hs. apply lookup_app_Some in Hs as [Hs|[Hj Hs]].
        -- apply NumFacts.lt_le.
           eapply NumFacts.le_lt_trans; [eapply Hle; eauto|exact Hcmp].
        -- apply list_lookup_singleton_Some in Hs as [_ <-].
           now apply le_refl_notNaN.
      * intros j s Hj Hs. rewrite lookup_app_l in Hs by lia.
        eapply NumFacts.le_lt_trans; [eapply Hle; eauto|exact Hcmp].
    + apply (IH (l ++ [c]) k m); [|exact Hnan].
      change (Num.lt (score m) (score c) = false) in Hcmp.
      split; [|split].
      * now rewrite lookup_app_l by lia.
      * intros j s Hs. apply lookup_app_Some in Hs as [Hs|[Hj Hs]].
        -- eapply Hle; eauto.
        -- apply list_lookup_singleton_Some in Hs as [_ <-].
           now apply NumFacts.not_lt_le.
      * intros j s Hj Hs. rewrite lookup_app_l in Hs by lia.
        eapply Hlt; eauto.
Qed.

Lemma bestMatchOf_first_maximum (sims : list Scored) :
  sims <> [] ->
  (forall s, s ∈ sims -> Num.isNaN (score s) = false) ->
  exists k winner,
    bestMatchOf sims = Ok winner /\ first_maximum sims k winner.
Proof.
  destruct sims as [|x xs]; [contradiction|]. intros _ Hnan.
  destruct (fold_pickBest_first_maximum xs [x] 0%nat x) as [k Hk].
  - split; [reflexivity|]. split.
    + intros j s Hs. apply list_lookup_singleton_Some in Hs as [_ <-].
      apply le_refl_notNaN, Hnan, list_elem_of_here.
    + intros j s Hj. lia.
  - exact Hnan.
  - exists k, (fold_left pickBest xs x). split; [reflexivity|exact Hk].
Qed.

(** On the label texts of [LABEL_DEFINITIONS], the first element of
    [split(' ')] is the first whitespace-delimited token. *)
Lemma extractLabelName_first_token (d : LabelDefinition) (l : string) :
  d ∈ LABEL_DEFINITIONS -> l ∈ def_labels d ->
  extractLabelName l = JsString.first_whitespace_token l /\
  JsString.truthy (extractLabelName l) = true.
Proof.
  unfold LABEL_DEFINITIONS. intros Hd Hl.
  repeat (apply elem_of_cons in Hd as [->|Hd]);
    [..|now apply elem_of_nil in Hd];
    cbn [def_labels] in Hl;
    repeat (apply elem_of_cons in Hl as [->|Hl]);
    try (now apply elem_of_nil in Hl);
    (split; vm_compute; reflexivity).
Qed.

Lemma category_of_definition (d : LabelDefinition) :
  d ∈ LABEL_DEFINITIONS -> def_category d ∈ categoryNames /\ def_labels d <> [].
Proof.
  unfold LABEL_DEFINITIONS. intros Hd.
  repeat (apply elem_of_cons in Hd as [->|Hd]);
    [..|now apply elem_of_nil in Hd];
    (split; [unfold categoryNames; cbn [def_category]; repeat constructor
            |discriminate]).
Qed.

Lemma labelColumn_insert (feedbackId : Z) (cls : Classifications)
  (cat : string) (r : ClassificationResult) :
  cat ∈ categoryNames ->
  labelColumn cat (insertRow feedbackId (<[cat := r]> cls)) =
  orNull_string (Some (label r)).
Proof.
  unfold categoryNames. intros Hcat.
  repeat (apply elem_of_cons in Hcat as [->|Hcat]);
    [..|now apply elem_of_nil in Hcat];
    unfold labelColumn, insertRow; simpl; now rewrite lookup_insert_eq.
Qed.

(** C6: for an anchor set of the label table whose scores are numbers,
    the anchor picked by the reduce is a first maximum of the cosine
    scores: no score exceeds the winner's and every earlier anchor scores
    strictly less, so among tied anchors the first in enumeration order
    wins and the reduce returns normally.  The classification stored for
    the category carries the first whitespace-delimited token of the
    winning label text and the winning score, and the label column of
    the persisted row is that token. *)
Theorem bestMatch_selection (feedbackEmbedding : vector)
  (d : LabelDefinition) (categoryData : CategoryEmbeddings)
  (similarities : list Scored) (classifications : Classifications)
  (feedbackId : Z) :
  d ∈ LABEL_DEFINITIONS ->
  anchors_of d categoryData ->
  similaritiesOf feedbackEmbedding categoryData = Ok similarities ->
  (forall s, s ∈ similarities -> Num.isNaN (score s) = false) ->
  exists (k : nat) (anchor : LabelEmbedding) (winner : Scored),
    ce_embeddings categoryData !! k = Some anchor /\
    similarities !! k = Some winner /\
    s_label winner = le_label anchor /\
    cosineSimilarity feedbackEmbedding (le_embedding anchor) = Ok (score winner) /\
    bestMatchOf similarities = Ok winner /\
    (forall j s, similarities !! j = Some s ->
                 Num.le (score s) (score winner) = true) /\
    (forall j s, (j < k)%nat -> similarities !! j = Some s ->
                 Num.lt (score s) (score winner) = true) /\
    let result :=
      mkResult (ce_category categoryData)
        (JsString.first_whitespace_token (le_label anchor)) (score winner) in
    classifyCategories feedbackEmbedding [categoryData] classifications =
      Ok (<[ce_category categoryData := result]> classifications) /\
    labelColumn (ce_category categoryData)
      (insertRow feedbackId
         (<[ce_category categoryData := result]> classifications)) =
      Some (JsString.first_whitespace_token (le_label anchor)).
Proof.
  intros Hd [Hcat Hlabels] Hsims Hnan.
  destruct (category_of_definition d Hd) as [Hname Hne].
  destruct (similaritiesOf_lookup _ _ _ Hsims) as [Hlen Hlook].
  assert (Hsne : similarities <> []).
  { intros ->. apply Hne. rewrite <- Hlabels.
    destruct (ce_embeddings categoryData); [reflexivity|discriminate]. }
  destruct (bestMatchOf_first_maximum similarities Hsne Hnan)
    as (k & winner & Hbest & Hk & Hle & Hlt).
  destruct (Hlook k winner Hk) as (anchor & Ha & Hl & Hcos).
  assert (Hin : le_label anchor ∈ def_labels d).
  { rewrite <- Hlabels. apply list_elem_of_fmap. exists anchor.
    split; [reflexivity|]. eapply list_elem_of_lookup_2; eauto. }
  destruct (extractLabelName_first_token d _ Hd Hin) as [Htok Htruthy].
  exists k, anchor, winner. repeat (split; [assumption|]). cbn zeta. split.
  - cbn [classifyCategories]. rewrite Hsims. cbn [obind]. rewrite Hbest.
    cbn [obind]. now rewrite Hl, Htok.
  - rewrite labelColumn_insert by (now rewrite Hcat).
    cbn [orNull_string label]. now rewrite <- Htok, Htruthy.
Qed.

Lemma bestMatch_selection_witness :
  classifyCategories [0; 1]%float [urgency_anchors] ∅ =
    Ok (<["urgency" := mkResult "urgency" "high" 1%float]> ∅).
Proof.
  destruct (bestMatch_selection [0; 1]%float urgency_definition
              urgency_anchors
              [ mkScored
                  "critical urgent blocking production emergency immediate down"
                  0.89442719099991586%float;
                mkScored "high priority important impacting significant" 1%float;
                mkScored "medium normal standard routine moderate" 1%float;
                mkScored "low minor casual suggestion nice-to-have future"
                  1%float ]
              ∅ 1)
    as (k & anchor & winner & Ha & Hk & _ & _ & Hbest & _ & _ & Hcls & _).
  - unfold LABEL_DEFINITIONS, urgency_definition. repeat constructor.
  - split; reflexivity.
  - reflexivity.
  - intros s Hs.
    repeat (apply elem_of_cons in Hs as [->|Hs]); try reflexivity.
    now apply elem_of_nil in Hs.
  - injection Hbest as <-.
    destruct k as [|[|[|[|k]]]]; try discriminate Hk.
    injection Ha as <-. exact Hcls.
Defined.

(* ------------------------------------------------------------------ *)
(** ** Refinement gate of the single-item classifier *)
(* ------------------------------------------------------------------ *)

Lemma cosineSimilarity_returns (a b : vector) :
  length a = length b -> exists s, cosineSimilarity a b = Ok s.
Proof.
  intros H. unfold cosineSimilarity. rewrite (proj2 (Nat.eqb_eq _ _) H).
  cbn [negb]. destruct (_ || _)%bool; eauto.
Qed.

Lemma mapi_throw_returns {A B} (f : A -> nat -> outcome B) :
  forall (l : list A) (i : nat),
    (forall x j, x ∈ l -> exists y, f x j = Ok y) ->
    exists ys, mapi_throw f i l = Ok ys.
Proof.
  induction l as [|x xs IH]; intros i Hall; cbn [mapi_throw]; [eauto|].
  destruct (Hall x i (list_elem_of_here _ _)) as [y ->]. cbn [obind].
  destruct (IH (S i)) as [ys ->].
  - intros x' j Hx'. apply Hall. now apply list_elem_of_further.
  - cbn [obind]. eauto.
Qed.

Lemma similaritiesOf_returns (v : vector) (ce : CategoryEmbeddings) :
  (forall anchor, anchor ∈ ce_embeddings ce ->
                  length (le_embedding anchor) = length v) ->
  exists sims, similaritiesOf v ce = Ok sims.
Proof.
  intros Hdim. apply mapi_throw_returns. intros anchor j Ha.
  destruct (cosineSimilarity_returns v (le_embedding anchor)) as [s ->].
  - symmetry. now apply Hdim.
  - cbn [obind]. eauto.
Qed.

Lemma fold_pickBest_in (xs : list Scored) :
  forall x, fold_left pickBest xs x ∈ x :: xs.
Proof.
  induction xs as [|c xs IH]; intros x; cbn [fold_left].
  - apply list_elem_of_here.
  - specialize (IH (pickBest x c)).
    assert (Hm : pickBest x c = c \/ pickBest x c = x)
      by (unfold pickBest; destruct (Num.gt (score c) (score x)); auto).
    remember (pickBest x c) as m eqn:Em. clear Em.
    destruct Hm as [-> | ->].
    + now apply list_elem_of_further.
    + apply elem_of_cons in IH as [->|IH]; [apply list_elem_of_here|].
      now do 2 apply list_elem_of_further.
Qed.

Lemma bestMatchOf_in (sims : list Scored) (best : Scored) :
  bestMatchOf sims = Ok best -> best ∈ sims.
Proof.
  destruct sims as [|x xs]; [discriminate|]. intros [= <-].
  apply fold_pickBest_in.
Qed.

(** On well-formed anchors of matching dimension a category is scored
    without exception, and the best match carries one of its labels. *)
Lemma category_scored (v : vector) (d : LabelDefinition)
  (ce : CategoryEmbeddings) :
  d ∈ LABEL_DEFINITIONS ->
  anchors_of d ce ->
  (forall anchor, anchor ∈ ce_embeddings ce ->
                  length (le_embedding anchor) = length v) ->
  exists sims best,
    similaritiesOf v ce = Ok sims /\
    bestMatchOf sims = Ok best /\
    s_label best ∈ def_labels d.
Proof.
  intros Hd [Hcat Hlabels] Hdim.
  destruct (similaritiesOf_returns v ce Hdim) as [sims Hsims].
  destruct (similaritiesOf_lookup v ce sims Hsims) as [Hlen Hlook].
  destruct (category_of_definition d Hd) as [_ Hne].
  destruct sims as [|x xs] eqn:Es.
  { exfalso. apply Hne. rewrite <- Hlabels.
    destruct (ce_embeddings ce); [reflexivity|discriminate]. }
  rewrite <- Es in *. exists sims, (fold_left pickBest xs x).
  assert (Hbest : bestMatchOf sims = Ok (fold_left pickBest xs x))
    by (now rewrite Es).
  split; [exact Hsims|]. split; [exact Hbest|].
  apply bestMatchOf_in in Hbest.
  apply list_elem_of_lookup_1 in Hbest as [j Hj].
  destruct (Hlook j _ Hj) as (anchor & Ha & Hl & _).
  rewrite Hl, <- Hlabels. apply list_elem_of_fmap. exists anchor.
  split; [reflexivity|]. eapply list_elem_of_lookup_2; eauto.
Qed.

(** One update of [lowestConfidence]. *)
Lemma lowest_step (lowest s c : number) :
  Num.isNaN lowest = false ->
  let lowest' := if Num.lt s lowest then s else lowest in
  Num.isNaN lowest' = false /\
  (Num.lt lowest' c = true <-> Num.lt lowest c = true \/ Num.lt s c = true).
Proof.
  intros Hnan. cbn zeta. destruct (Num.lt s lowest) eqn:Hs.
  - split; [now apply NumFacts.lt_notNaN in Hs|].
    split; [now right|]. intros [H|H]; [|exact H].
    eapply NumFacts.lt_trans; eauto.
  - split; [exact Hnan|]. split; [now left|]. intros [H|H]; [exact H|].
    destruct (NumFacts.lt_notNaN _ _ H) as [Hsn _].
    eapply NumFacts.le_lt_trans; [|exact H].
    now apply NumFacts.not_lt_le.
Qed.

(** On the urgency labels, [startsWith('critical')] on the label text
    and equality of the extracted label with 'critical' agree. *)
Lemma urgency_critical_prefix (l : string) :
  l ∈ def_labels urgency_definition ->
  JsString.startsWith l "critical" = true <-> extractLabelName l = "critical".
Proof.
  unfold urgency_definition. cbn [def_labels]. intros Hl.
  repeat (apply elem_of_cons in Hl as [->|Hl]);
    [..|now apply elem_of_nil in Hl];
    vm_compute; split; congruence.
Qed.

(** The sort only reorders the candidates. *)
Lemma sort_insert_perm (x : Scored) (l : list Scored) :
  sort_insert x l ≡ₚ x :: l.
Proof.
  induction l as [|y l IH]; cbn [sort_insert]; [reflexivity|].
  destruct (Num.gt (compareFn y x) 0%float); [reflexivity|].
  rewrite IH. apply Permutation_swap.
Qed.

Lemma sortByScoreDesc_perm (l : list Scored) : sortByScoreDesc l ≡ₚ l.
Proof.
  unfold sortByScoreDesc.
  assert (H : forall acc, fold_left (fun sorted x => sort_insert x sorted) l acc
                          ≡ₚ acc ++ l).
  { induction l as [|x l IH]; intros acc; cbn [fold_left].
    - now rewrite app_nil_r.
    - rewrite IH, sort_insert_perm. cbn [app]. apply Permutation_middle. }
  apply (H []).
Qed.

(* ------------------------------------------------------------------ *)
(** ** Order of the scores and the sort of the candidates *)
(* ------------------------------------------------------------------ *)

Lemma le_notNaN (a b : number) :
  Num.le a b = true -> Num.isNaN a = false /\ Num.isNaN b = false.
Proof.
  rewrite NumFacts.le_compare, !NumFacts.isNaN_spec. intros (c & Hc & _).
  eauto using NumFacts.SFcompare_some_l, NumFacts.SFcompare_some_r.
Qed.

Lemma le_trans (a b c : number) :
  Num.le a b = true -> Num.le b c = true -> Num.le a c = true.
Proof.
  intros Hab Hbc.
  destruct (le_notNaN a b Hab) as [Ha _], (le_notNaN b c Hbc) as [_ Hc].
  apply NumFacts.not_lt_le; [exact Hc|exact Ha|].
  destruct (Num.lt c a) eqn:Hca; [|reflexivity].
  pose proof (NumFacts.lt_le_trans c a b Hca Hab) as Hcb.
  pose proof (NumFacts.le_not_lt c b Hbc) as Hn. congruence.
Qed.

Lemma le_antisym_eqb (a b : number) :
  Num.le a b = true -> Num.le b a = true -> Num.strict_eq a b = true.
Proof.
  rewrite !NumFacts.le_compare. intros (c & Hc & Hgt) (c' & Hc' & Hgt').
  unfold Num.strict_eq. rewrite FloatAxioms.eqb_spec. unfold SFeqb.
  rewrite Hc. apply NumFacts.SFcompare_antisym in Hc. rewrite Hc in Hc'.
  injection Hc' as <-. destruct c; simpl in *; congruence.
Qed.

(** [b.score - a.score > 0] exactly when [a.score < b.score]. *)
Lemma compareFn_gt (a b : Scored) :
  Num.gt (compareFn a b) 0%float = Num.lt (score a) (score b).
Proof. unfold compareFn, Num.gt, Num.lt. apply SubFacts.sub_gt_zero. Qed.

Lemma sort_insert_descending (x : Scored) (l : list Scored) :
  Num.isNaN (score x) = false ->
  Forall (fun y => Num.isNaN (score y) = false) l ->
  descending l -> descending (sort_insert x l).
Proof.
  unfold descending. intros Hx Hl Hs.
  induction l as [|y l IH]; cbn [sort_insert].
  - repeat constructor.
  - apply Forall_cons in Hl as [Hy Hl].
    apply StronglySorted_inv in Hs as [Hs Hy_all].
    rewrite compareFn_gt.
    destruct (Num.lt (score y) (score x)) eqn:Hlt.
    + constructor; [now constructor|]. constructor.
      * now apply NumFacts.lt_le.
      * apply List.Forall_forall. intros z Hz.
        rewrite List.Forall_forall in Hy_all.
        eapply le_trans; [apply Hy_all, Hz|now apply NumFacts.lt_le].
    + constructor; [now apply IH|].
      apply List.Forall_forall. intros z Hz.
      apply list_elem_of_In in Hz. rewrite sort_insert_perm in Hz.
      apply elem_of_cons in Hz as [->|Hz].
      * now apply NumFacts.not_lt_le.
      * rewrite List.Forall_forall in Hy_all. apply Hy_all.
        now apply list_elem_of_In.
Qed.

Lemma sortByScoreDesc_descending (l : list Scored) :
  Forall (fun y => Num.isNaN (score y) = false) l ->
  descending (sortByScoreDesc l).
Proof.
  unfold sortByScoreDesc. intros Hl.
  assert (H : forall acc,
             Forall (fun y => Num.isNaN (score y) = false) acc ->
             descending acc ->
             descending (fold_left (fun sorted x => sort_insert x sorted) l acc)).
  { induction l as [|x l IH]; intros acc Hacc Hs; cbn [fold_left];
      [exact Hs|].
    apply Forall_cons in Hl as [Hx Hl]. apply IH; [exact Hl| |].
    - rewrite sort_insert_perm. now constructor.
    - now apply sort_insert_descending. }
  apply H; [constructor|constructor].
Qed.

(** On candidates in descending order, the two highest scores of the
    specification are the scores of the first two. *)
Lemma top_two_descending (t0 t1 : Scored) (r : list Scored) :
  descending (t0 :: t1 :: r) ->
  Forall (fun y => Num.isNaN (score y) = false) (t0 :: t1 :: r) ->
  top_two_close (map score (t0 :: t1 :: r)) <->
  Num.lt (Num.abs (score t0 - score t1)%float) 0.15%float = true.
Proof.
  unfold descending. intros Hs Hn.
  apply StronglySorted_inv in Hs as [Hs H0].
  apply StronglySorted_inv in Hs as [_ H1].
  rewrite List.Forall_forall in H0, H1.
  assert (Hrefl : forall s, s ∈ map score (t0 :: t1 :: r) -> Num.le s s = true).
  { intros s Hin. apply list_elem_of_fmap in Hin as (y & -> & Hy).
    apply le_refl_notNaN. rewrite Forall_forall in Hn. now apply Hn. }
  assert (G0 : forall s, s ∈ map score (t1 :: r) -> Num.le s (score t0) = true).
  { intros s Hin. apply list_elem_of_fmap in Hin as (y & -> & Hy).
    apply H0. now apply list_elem_of_In. }
  assert (G1 : forall s, s ∈ map score r -> Num.le s (score t1) = true).
  { intros s Hin. apply list_elem_of_fmap in Hin as (y & -> & Hy).
    apply H1. now apply list_elem_of_In. }
  cbn [map] in *. split.
  - intros (best & second & others & Hperm & Hbest & Hsecond & Hclose).
    assert (Hrefl' : forall s, s ∈ best :: second :: others -> Num.le s s = true)
      by (intros s Hin; apply Hrefl; now rewrite Hperm).
    assert (Hle_all0 : forall s, s ∈ score t0 :: score t1 :: map score r ->
                                 Num.le s (score t0) = true).
    { intros s Hin. apply elem_of_cons in Hin as [->|Hin];
        [apply Hrefl; now left|now apply G0]. }
    assert (Hle_allb : forall s, s ∈ best :: second :: others ->
                                 Num.le s best = true).
    { intros s Hin. apply elem_of_cons in Hin as [->|Hin];
        [apply Hrefl'; now left|now apply Hbest]. }
    assert (Hle_all1 : forall s, s ∈ score t1 :: map score r ->
                                 Num.le s (score t1) = true).
    { intros s Hin. apply elem_of_cons in Hin as [->|Hin];
        [apply Hrefl; right; now left|now apply G1]. }
    assert (Hle_alls : forall s, s ∈ second :: others ->
                                 Num.le s second = true).
    { intros s Hin. apply elem_of_cons in Hin as [->|Hin];
        [apply Hrefl'; right; now left|now apply Hsecond]. }
    assert (E0 : Num.strict_eq best (score t0) = true).
    { apply le_antisym_eqb.
      - apply Hle_all0. rewrite Hperm. now left.
      - apply Hle_allb. rewrite <- Hperm. now left. }
    assert (E1 : Num.strict_eq second (score t1) = true).
    { apply Permutation_cons_inv_l in Hperm as (k1 & k2 & Hsplit & Hrest).
      destruct k1 as [|b k1]; cbn [app] in Hsplit, Hrest.
      - injection Hsplit as _ <-.
        apply le_antisym_eqb.
        + apply Hle_all1. rewrite Hrest. now left.
        + apply Hle_alls. rewrite <- Hrest. now left.
      - injection Hsplit as <- Hso.
        assert (Hb : Num.le best (score t1) = true)
          by (apply Hle_all1; rewrite Hrest; now left).
        assert (Ht0 : Num.le (score t0) second = true).
        { apply Hle_alls. rewrite Hso. apply elem_of_app. right. now left. }
        apply le_antisym_eqb.
        + eapply le_trans; [|exact Hb]. apply Hbest. now left.
        + eapply le_trans; [|exact Ht0]. apply G0. now left. }
    unfold Num.abs, Num.strict_eq in *.
    now rewrite <- (SubFacts.abs_sub_eqb best (score t0) second (score t1) E0 E1).
  - intros Hclose. exists (score t0), (score t1), (map score r).
    split; [reflexivity|]. split; [exact G0|]. split; [exact G1|exact Hclose].
Qed.

Lemma top_two_close_perm (l k : list number) :
  l ≡ₚ k -> top_two_close l <-> top_two_close k.
Proof.
  intros Hperm. unfold top_two_close.
  split; intros (b & s & o & Hp & H); exists b, s, o;
    (split; [|exact H]); [now rewrite <- Hperm|now rewrite Hperm].
Qed.

Lemma similaritiesOf_scores (v : vector) (ce : CategoryEmbeddings)
  (sims : list Scored) :
  similaritiesOf v ce = Ok sims ->
  Forall2 (fun anchor s => cosineSimilarity v (le_embedding anchor) = Ok s)
    (ce_embeddings ce) (map score sims).
Proof.
  intros H. destruct (similaritiesOf_lookup v ce sims H) as [Hlen Hlook].
  apply Forall2_same_length_lookup_2; [now rewrite length_map|].
  intros i anchor s Ha Hs. rewrite list_lookup_fmap in Hs.
  destruct (sims !! i) as [y|] eqn:Hy; [|discriminate].
  injection Hs as <-.
  destruct (Hlook i y Hy) as (anchor' & Ha' & _ & Hcos). congruence.
Qed.

Lemma scores_unique (v : vector) (anchors : list LabelEmbedding) :
  forall scores scores',
    Forall2 (fun anchor s => cosineSimilarity v (le_embedding anchor) = Ok s)
      anchors scores ->
    Forall2 (fun anchor s => cosineSimilarity v (le_embedding anchor) = Ok s)
      anchors scores' ->
    scores = scores'.
Proof.
  induction anchors as [|a l IH]; intros scores scores' H H'.
  - apply Forall2_nil_inv_l in H, H'. congruence.
  - apply Forall2_cons_inv_l in H as (s & r & Hs & Hr & ->).
    apply Forall2_cons_inv_l in H' as (s' & r' & Hs' & Hr' & ->).
    f_equal; [congruence|now apply IH].
Qed.

Lemma polarity_scores_are_numbersb_sound (v : vector)
  (labelEmbeddings : list CategoryEmbeddings) :
  polarity_scores_are_numbersb v labelEmbeddings = true ->
  polarity_scores_are_numbers v labelEmbeddings.
Proof.
  unfold polarity_scores_are_numbersb, polarity_scores_are_numbers.
  intros H ce anchor s Hce Hcat Ha Hs.
  rewrite forallb_forall in H. apply list_elem_of_In in Hce, Ha.
  specialize (H ce Hce). rewrite Hcat in H. cbn in H.
  rewrite forallb_forall in H.
  specialize (H anchor Ha). rewrite Hs in H.
  now apply negb_true_iff in H.
Qed.

(** The polarity flag of the code and condition (c). *)
Lemma mixed_flag (v : vector) (ce : CategoryEmbeddings) (sims : list Scored) :
  similaritiesOf v ce = Ok sims ->
  (forall anchor s, anchor ∈ ce_embeddings ce ->
     cosineSimilarity v (le_embedding anchor) = Ok s -> Num.isNaN s = false) ->
  (2 <= length sims)%nat ->
  closeTopTwo (slice 0 2 (sortByScoreDesc sims)) = true <->
  top_two_close (map score sims).
Proof.
  intros Hsims Hnum Hlen.
  assert (Hn : Forall (fun y => Num.isNaN (score y) = false) sims).
  { destruct (similaritiesOf_lookup v ce sims Hsims) as [_ Hlook].
    apply Forall_lookup. intros i y Hy.
    destruct (Hlook i y Hy) as (anchor & Ha & _ & Hcos).
    eapply Hnum; [eapply list_elem_of_lookup_2; eauto|exact Hcos]. }
  pose proof (sortByScoreDesc_perm sims) as Hperm.
  pose proof (sortByScoreDesc_descending sims Hn) as Hdesc.
  assert (Hn' : Forall (fun y => Num.isNaN (score y) = false)
                  (sortByScoreDesc sims)) by (now rewrite Hperm).
  rewrite <- (top_two_close_perm (map score (sortByScoreDesc sims))
                (map score sims)) by (now apply fmap_Permutation).
  assert (Hlen' : length (sortByScoreDesc sims) = length sims)
    by (now apply Permutation_length).
  destruct (sortByScoreDesc sims) as [|t0 [|t1 r]];
    cbn [length] in Hlen'; try lia.
  rewrite (top_two_descending t0 t1 r Hdesc Hn').
  unfold slice. cbn [skipn firstn Nat.sub closeTopTwo]. reflexivity.
Qed.

(** classifyFeedback is the embedding request followed by the scoring
    of the returned vector. *)
Lemma classifyFeedback_embedding (feedbackText : string) (feedbackId : Z)
  (labelEmbeddings : list CategoryEmbeddings) (ai : Ai) (w : World)
  (embeddingData : EmbedOneData) :
  run_embed_one ai (length (ai_log w)) feedbackText = Resolved embeddingData ->
  classifyFeedback feedbackText feedbackId labelEmbeddings ai w =
  (classifyEmbedding
     match embeddingData with Nested first _ => first | Flat v => v end
     feedbackId labelEmbeddings,
   mkWorld (ai_log w ++ [CallEmbedOne feedbackText]) (db_calls w) (db_rows w)).
Proof.
  intros H. unfold classifyFeedback, bind, ai_run_embed_one, lift.
  rewrite H. reflexivity.
Qed.

(** Scores the category [c], whose anchors are described by [A]. *)
Ltac score_category A Hdim c s b S B L :=
  match type of A with
  | anchors_of ?d _ =>
      let M := fresh "M" in
      assert (M : d ∈ LABEL_DEFINITIONS)
        by (unfold LABEL_DEFINITIONS; repeat constructor);
      destruct (category_scored _ d c M A
                  (fun anchor => Hdim c anchor ltac:(repeat constructor)))
        as (s & b & S & B & L)
  end.

(** C4: for the anchors of the label table (vectors of one dimension,
    polarity scores that are numbers) classifyFeedback classifies the
    item, and needsRefinement holds exactly when (a) some category's
    confidence, hence the lowest one, is below 0.65, or (b) the raw
    urgency label is 'critical', or (c) the two highest of the polarity
    scores, whichever candidates carry them, differ by less than 0.15.
    The reason is the first of (a) 'low_confidence', (b)
    'critical_urgency', (c) 'mixed_sentiment' that holds, whatever the
    later ones are, and there is no reason when no refinement is
    needed. *)
Theorem refinement_gate (feedbackEmbedding : vector) (feedbackId : Z)
  (labelEmbeddings : list CategoryEmbeddings) :
  Forall2 anchors_of LABEL_DEFINITIONS labelEmbeddings ->
  dimensions_agree feedbackEmbedding labelEmbeddings ->
  polarity_scores_are_numbers feedbackEmbedding labelEmbeddings ->
  exists r : FeedbackClassifications,
    classifyEmbedding feedbackEmbedding feedbackId labelEmbeddings = Ok r /\
    let low := low_confidence (classifications r) in
    let critical := critical_urgency (classifications r) in
    let mixed := mixed_sentiment feedbackEmbedding labelEmbeddings in
    (needsRefinement r = true <-> low \/ critical \/ mixed) /\
    (low -> refinementReason r = Some "low_confidence") /\
    (~ low -> critical -> refinementReason r = Some "critical_urgency") /\
    (~ low -> ~ critical -> mixed -> refinementReason r = Some "mixed_sentiment") /\
    (needsRefinement r = false -> refinementReason r = None).
Proof.
  intros Hanchors Hdim Hnum.
  unfold LABEL_DEFINITIONS in Hanchors.
  apply Forall2_cons_inv_l in Hanchors as (c1 & r1 & A1 & Hanchors & ->).
  apply Forall2_cons_inv_l in Hanchors as (c2 & r2 & A2 & Hanchors & ->).
  apply Forall2_cons_inv_l in Hanchors as (c3 & r3 & A3 & Hanchors & ->).
  apply Forall2_cons_inv_l in Hanchors as (c4 & r4 & A4 & Hanchors & ->).
  apply Forall2_cons_inv_l in Hanchors as (c5 & r5 & A5 & Hanchors & ->).
  apply Forall2_nil_inv_l in Hanchors as ->.
  score_category A1 Hdim c1 s1 b1 S1 B1 L1.
  score_category A2 Hdim c2 s2 b2 S2 B2 L2.
  score_category A3 Hdim c3 s3 b3 S3 B3 L3.
  score_category A4 Hdim c4 s4 b4 S4 B4 L4.
  score_category A5 Hdim c5 s5 b5 S5 B5 L5.
  assert (Hlen2 : (2 <= length s2)%nat).
  { destruct (similaritiesOf_lookup _ _ _ S2) as [-> _].
    destruct A2 as [_ Hl]. apply (f_equal length) in Hl.
    rewrite length_map in Hl. rewrite Hl. cbn. lia. }
  destruct A1 as [K1 _], A2 as [K2 _], A3 as [K3 _], A4 as [K4 _], A5 as [K5 _].
  cbn [def_category] in K1, K2, K3, K4, K5.
  unfold classifyEmbedding. cbn [trackCategories].
  rewrite S1, S2, S3, S4, S5. cbn [obind].
  rewrite B1, B2, B3, B4, B5. cbn [obind].
  eexists. split; [reflexivity|].
  unfold trackCategory.
  cbn [needsRefinement refinementReason classifications lowestConfidence
         hasCriticalUrgency hasMixedSentiment tr_classifications].
  rewrite K1, K2, K3, K4, K5.
  repeat match goal with
         | |- context [String.eqb ?a ?b] =>
             let v := eval vm_compute in (String.eqb a b) in
             change (String.eqb a b) with v
         end.
  cbn [andb].
  pose proof (lowest_step 1%float (score b1) 0.65%float eq_refl) as [N1 E1].
  cbn zeta in N1, E1.
  set (l1 := if Num.lt (score b1) 1%float then score b1 else 1%float) in *.
  pose proof (lowest_step l1 (score b2) 0.65%float N1) as [N2 E2].
  cbn zeta in N2, E2.
  set (l2 := if Num.lt (score b2) l1 then score b2 else l1) in *.
  pose proof (lowest_step l2 (score b3) 0.65%float N2) as [N3 E3].
  cbn zeta in N3, E3.
  set (l3 := if Num.lt (score b3) l2 then score b3 else l2) in *.
  pose proof (lowest_step l3 (score b4) 0.65%float N3) as [N4 E4].
  cbn zeta in N4, E4.
  set (l4 := if Num.lt (score b4) l3 then score b4 else l3) in *.
  pose proof (lowest_step l4 (score b5) 0.65%float N4) as [N5 E5].
  cbn zeta in N5, E5.
  set (l5 := if Num.lt (score b5) l4 then score b5 else l4) in *.
  assert (E0 : Num.lt 1%float 0.65%float = false) by reflexivity.
  set (cls := <["churnRisk" := _]> _).
  assert (Hlow : low_confidence cls <-> Num.lt l5 0.65%float = true).
  { rewrite E5, E4, E3, E2, E1, E0. unfold low_confidence, cls. split.
    - intros (cat & res & Hres & Hlt).
      repeat (apply lookup_insert_Some in Hres as [[_ <-]|[_ Hres]];
              [cbn [confidence] in Hlt; tauto|]).
      now rewrite lookup_empty in Hres.
    - intros [[[[[H|H]|H]|H]|H]|H]; [discriminate| | | | |].
      + exists "products". eexists.
        split; [now rewrite !lookup_insert_ne, lookup_insert_eq by done|].
        exact H.
      + exists "polarity". eexists.
        split; [now rewrite !lookup_insert_ne, lookup_insert_eq by done|].
        exact H.
      + exists "urgency". eexists.
        split; [now rewrite !lookup_insert_ne, lookup_insert_eq by done|].
        exact H.
      + exists "feedbackType". eexists.
        split; [now rewrite !lookup_insert_ne, lookup_insert_eq by done|].
        exact H.
      + exists "churnRisk". eexists.
        split; [now rewrite lookup_insert_eq|]. exact H. }
  assert (Hcrit : critical_urgency cls <->
                  JsString.startsWith (s_label b3) "critical" = true).
  { rewrite (urgency_critical_prefix _ L3). unfold critical_urgency, cls.
    rewrite !lookup_insert_ne, lookup_insert_eq by done. split.
    - now intros (res & [= <-] & Hl).
    - intros Hl. eexists. split; [reflexivity|exact Hl]. }
  assert (Hmix : mixed_sentiment feedbackEmbedding [c1; c2; c3; c4; c5] <->
                 closeTopTwo (slice 0 2 (sortByScoreDesc s2)) = true).
  { rewrite (mixed_flag feedbackEmbedding c2 s2 S2
               (fun anchor s => Hnum c2 anchor s ltac:(repeat constructor) K2)
               Hlen2).
    pose proof (similaritiesOf_scores _ _ _ S2) as Hscores.
    unfold mixed_sentiment. split.
    - intros (ce & scores & Hce & Hcat & Hsc & Hclose).
      repeat (apply elem_of_cons in Hce as [->|Hce]);
        try (now apply elem_of_nil in Hce); try congruence.
      now rewrite (scores_unique _ _ _ _ Hscores Hsc).
    - intros Hclose. exists c2, (map score s2).
      repeat split; try assumption. repeat constructor. }
  clearbody cls l5.
  destruct (Num.lt l5 0.65%float),
    (JsString.startsWith (s_label b3) "critical"),
    (closeTopTwo (slice 0 2 (sortByScoreDesc s2)));
    cbn [orb]; intuition congruence.
Qed.

Lemma dimensions_agreeb_sound (v : vector)
  (labelEmbeddings : list CategoryEmbeddings) :
  dimensions_agreeb v labelEmbeddings = true ->
  dimensions_agree v labelEmbeddings.
Proof.
  unfold dimensions_agreeb, dimensions_agree. intros H ce anchor Hce Ha.
  rewrite forallb_forall in H. apply list_elem_of_In in Hce, Ha.
  specialize (H ce Hce). rewrite forallb_forall in H.
  now apply Nat.eqb_eq, H.
Qed.

Lemma anchors_demo_wellformed : Forall2 anchors_of LABEL_DEFINITIONS anchors_demo.
Proof. unfold anchors_demo, LABEL_DEFINITIONS. repeat constructor. Qed.

(** An item far from every anchor: the three conditions hold together
    and the reason is the first one. *)
Example refinement_all_three :
  match classifyEmbedding [0; -1]%float 1 anchors_demo with
  | Ok r =>
      (needsRefinement r, refinementReason r,
       confidence <$> classifications r !! "urgency",
       label <$> classifications r !! "urgency")
  | _ => (false, None, None, None)
  end = (true, Some "low_confidence", Some (-0.89442719099991586)%float,
         Some "critical").
Proof. vm_compute. reflexivity. Qed.

(** An item equally near two polarity anchors, with every confidence
    high and a non-critical urgency: only (c) holds. *)
Example refinement_mixed_only :
  match classifyEmbedding [0; 1]%float 2 anchors_demo with
  | Ok r =>
      (needsRefinement r, refinementReason r,
       confidence <$> classifications r !! "polarity",
       label <$> classifications r !! "urgency")
  | _ => (false, None, None, None)
  end = (true, Some "mixed_sentiment", Some 1%float, Some "high").
Proof. vm_compute. reflexivity. Qed.

Lemma mixed_sentiment_demo : mixed_sentiment [0; 1]%float anchors_demo.
Proof.
  eexists _, [0.89442719099991586; 1; 1]%float.
  split; [unfold anchors_demo, LABEL_DEFINITIONS; cbn [map];
          apply list_elem_of_further, list_elem_of_here|].
  split; [reflexivity|].
  split; [repeat constructor|].
  exists 1%float, 1%float, [0.89442719099991586%float].
  split; [|split; [|split]].
  - change ([0.89442719099991586; 1; 1]%float)
      with ([0.89442719099991586%float] ++ [1; 1]%float).
    change ([1; 1; 0.89442719099991586]%float)
      with ([1; 1]%float ++ [0.89442719099991586%float]).
    apply Permutation_app_comm.
  - intros s Hs. repeat (apply elem_of_cons in Hs as [->|Hs]);
      [reflexivity|reflexivity|now apply elem_of_nil in Hs].
  - intros s Hs. repeat (apply elem_of_cons in Hs as [->|Hs]);
      [reflexivity|now apply elem_of_nil in Hs].
  - reflexivity.
Qed.

Lemma refinement_gate_witness :
  (exists r : FeedbackClassifications,
     classifyEmbedding [0; -1]%float 1 anchors_demo = Ok r /\
     (low_confidence (classifications r) ->
      refinementReason r = Some "low_confidence")) /\
  (exists r : FeedbackClassifications,
     classifyEmbedding [0; 1]%float 2 anchors_demo = Ok r /\
     needsRefinement r = true).
Proof.
  split.
  - destruct (refinement_gate [0; -1]%float 1 anchors_demo
                anchors_demo_wellformed
                (dimensions_agreeb_sound [0; -1]%float anchors_demo eq_refl)
                (polarity_scores_are_numbersb_sound [0; -1]%float anchors_demo
                   eq_refl))
      as (r & Hr & _ & Hlow & _).
    exists r. split; [exact Hr|exact Hlow].
  - destruct (refinement_gate [0; 1]%float 2 anchors_demo
                anchors_demo_wellformed
                (dimensions_agreeb_sound [0; 1]%float anchors_demo eq_refl)
                (polarity_scores_are_numbersb_sound [0; 1]%float anchors_demo
                   eq_refl))
      as (r & Hr & Hneeds & _).
    exists r. split; [exact Hr|].
    apply Hneeds. right. right. exact mixed_sentiment_demo.
Defined.

(* ------------------------------------------------------------------ *)
(** ** Urgency downgrade *)
(* ------------------------------------------------------------------ *)








(** A stored 'critical' whose confidence column is NULL (a score of
    exactly 0 goes through [x || null]) is reported as 'high' by the read
    path while the filter of [highCount] does not select it. *)
Example null_confidence_critical :
  let row := insertRow 12 (<["urgency" := mkResult "urgency" "critical" 0%float]> ∅) in
  urgency row = Some "critical" /\ urgency_confidence row = None /\
  urgencyColumn row = Some "high" /\
  isCriticalRow row = false /\ isHighRow row = false.
Proof. cbn zeta. repeat split; reflexivity. Qed.

(** Two rows stored as 'critical', one of them with a confidence below
    the threshold, and one row stored as 'high': row by row the rule
    gives one 'critical' and two 'high', while the urgency distribution
    of getMetrics has the two stored 'critical' rows in one entry. *)
Example getMetrics_counts_by_stored_label :
  let rows :=
    [ mkRow 1 None None (Some "critical") (Some 0.9%float) None None None None None;
      mkRow 2 None None (Some "critical") (Some 0.3%float) None None None None None;
      mkRow 3 None None (Some "high") (Some 0.7%float) None None None None None ] in
  map urgencyColumn rows = [Some "critical"; Some "high"; Some "high"] /\
  criticalCountOf rows = 1 /\ highCountOf rows = 2 /\
  getMetrics_urgencyDistribution head rows =
    [(Some "critical", 2); (Some "high", 1)] /\
  getMetrics_urgencyDistribution last rows =
    [(Some "high", 2); (Some "high", 1)].
Proof. cbn zeta. repeat split; reflexivity. Qed.


(* ------------------------------------------------------------------ *)
(** ** Vector math, continued *)
(* ------------------------------------------------------------------ *)

Lemma SFmul_comm (prec emax : Z) (x y : spec_float) :
  SFmul prec emax x y = SFmul prec emax y x.
Proof.
  destruct x as [sx|sx| |sx mx ex], y as [sy|sy| |sy my ey]; simpl;
    try reflexivity; try (now rewrite xorb_comm).
  now rewrite xorb_comm, Pos.mul_comm, Z.add_comm.
Qed.

Lemma number_mul_comm (x y : number) : (x * y = y * x)%float.
Proof.
  apply Prim2SF_inj. rewrite !mul_spec. apply SFmul_comm.
Qed.

Lemma spec_dot_comm_acc (a b : vector) :
  forall acc : number,
    fold_left (fun sum xy => (sum + fst xy * snd xy)%float) (combine a b) acc =
    fold_left (fun sum xy => (sum + fst xy * snd xy)%float) (combine b a) acc.
Proof.
  revert b. induction a as [|x a IH]; intros [|y b] acc; try reflexivity.
  simpl. rewrite (number_mul_comm x y). apply IH.
Qed.

(** X1: the similarity does not depend on the order of its two
    arguments, error case included. *)
Theorem cosineSimilarity_symmetric (a b : vector) :
  cosineSimilarity a b = cosineSimilarity b a.
Proof.
  unfold cosineSimilarity. rewrite (Nat.eqb_sym (length b) (length a)).
  destruct (Nat.eqb_spec (length a) (length b)) as [Hlen|Hlen];
    [|reflexivity].
  cbn [negb]. rewrite (dotProduct_spec a b Hlen).
  rewrite (dotProduct_spec b a (eq_sym Hlen)).
  unfold spec_dot. rewrite (spec_dot_comm_acc a b).
  rewrite (orb_comm (Num.strict_eq (magnitude a) 0%float)).
  now rewrite (number_mul_comm (magnitude a) (magnitude b)).
Qed.

(* ------------------------------------------------------------------ *)
(** ** Label names *)
(* ------------------------------------------------------------------ *)

Lemma append_cons (c : ascii) (a b : string) :
  String c a +:+ b = String c (a +:+ b).
Proof. reflexivity. Qed.

Lemma append_empty_r (a : string) : a +:+ "" = a.
Proof. induction a as [|c a IH]; [reflexivity|]. now rewrite append_cons, IH. Qed.

Lemma split_head (sep : ascii) (s : string) :
  exists w ws, JsString.split sep s = w :: ws /\
    contains_char sep w = false /\
    exists rest, s = w +:+ rest /\
                 (rest = "" /\ ws = [] \/
                  exists r, rest = String sep r /\ ws = JsString.split sep r).
Proof.
  induction s as [|c s IH]; cbn [JsString.split].
  - exists "", []. repeat split. exists "". split; [reflexivity|now left].
  - destruct (Ascii.eqb_spec c sep) as [->|Hc].
    + exists "", (JsString.split sep s). repeat split.
      exists (String sep s). split; [reflexivity|]. right. now exists s.
    + destruct IH as (w & ws & -> & Hw & rest & Hs & Hrest).
      exists (String c w), ws. split; [reflexivity|]. split.
      * cbn [contains_char]. rewrite Hw.
        destruct (Ascii.eqb_spec c sep); [contradiction|reflexivity].
      * exists rest. split; [|exact Hrest].
        rewrite append_cons. now f_equal.
Qed.

(** X2: extractLabelName returns the part of the text before its first
    space: the result has no space, the text is the result followed
    either by nothing or by a space and the remainder; hence a text
    without space is returned whole and extracting twice changes
    nothing. *)
Theorem extractLabelName_prefix (fullLabel : string) :
  contains_char " " (extractLabelName fullLabel) = false /\
  (exists rest,
     fullLabel = extractLabelName fullLabel +:+ rest /\
     (rest = "" \/ exists r, rest = String " " r)) /\
  (contains_char " " fullLabel = false ->
   extractLabelName fullLabel = fullLabel) /\
  extractLabelName (extractLabelName fullLabel) = extractLabelName fullLabel.
Proof.
  assert (Hno : forall s, contains_char " " s = false -> extractLabelName s = s).
  { intros s Hs. unfold extractLabelName.
    destruct (split_head " " s) as (w & ws & -> & Hw & rest & Heq & Hrest).
    destruct Hrest as [[-> _]|[r [-> _]]].
    - now rewrite Heq, append_empty_r.
    - exfalso. rewrite Heq in Hs. clear -Hs.
      induction w as [|c w IH].
      + discriminate Hs.
      + rewrite append_cons in Hs. cbn [contains_char] in Hs.
        apply orb_false_iff in Hs as [_ Hs]. auto. }
  destruct (split_head " " fullLabel) as (w & ws & Hsplit & Hw & rest & Heq & Hrest).
  assert (Hex : extractLabelName fullLabel = w)
    by (unfold extractLabelName; now rewrite Hsplit).
  rewrite Hex. split; [exact Hw|]. split; [|split].
  - exists rest. split; [exact Heq|]. destruct Hrest as [[-> _]|[r [-> _]]]; eauto.
  - intros Hs. rewrite <- Hex. now apply Hno.
  - now apply Hno.
Qed.

Lemma extractLabelName_prefix_witness :
  extractLabelName "feature_request" = "feature_request".
Proof.
  apply (proj1 (proj2 (proj2 (extractLabelName_prefix "feature_request")))).
  reflexivity.
Defined.

(* ------------------------------------------------------------------ *)
(** ** Anchor precomputation, continued *)
(* ------------------------------------------------------------------ *)

Lemma precomputeCategory_inv (ai : Ai) (d : LabelDefinition) (w w1 : World)
  (ce : CategoryEmbeddings) :
  precomputeCategory ai d w = (Ok ce, w1) ->
  w1 = after_embed w (def_labels d) /\
  anchors_of d ce /\
  (def_labels d <> [] ->
   exists vs,
     run_embed ai (length (ai_log w)) (def_labels d) =
       Resolved (mkEmbedResponse (Some vs)) /\
     anchors_from vs d ce).
Proof.
  unfold precomputeCategory, try_catch, bind, ai_run_embed, lift, ret, throw.
  destruct (run_embed ai (length (ai_log w)) (def_labels d)) as [[dt]|e];
    cbn [await data]; [|discriminate].
  destruct (mapi_throw (anchor_of dt) 0 (def_labels d)) as [embs|e|] eqn:Hm;
    try discriminate.
  intros [= <- <-]. split; [reflexivity|].
  destruct (mapi_throw_ok _ _ _ _ Hm) as [Hlen Hall].
  assert (Hlab : map le_label embs = def_labels d).
  { apply list_eq. intros i. rewrite list_lookup_fmap.
    destruct (def_labels d !! i) as [l|] eqn:Hl.
    - destruct (Hall i l Hl) as (y & -> & Hy). unfold anchor_of in Hy.
      destruct dt as [vs|]; [|discriminate].
      destruct (mjoin (vs !! (0 + i)%nat)); [|discriminate].
      now injection Hy as <-.
    - apply lookup_ge_None in Hl. rewrite <- Hlen in Hl.
      now rewrite (proj2 (lookup_ge_None embs i) Hl). }
  split; [split; [reflexivity|exact Hlab]|].
  intros Hne. destruct dt as [vs|].
  - exists vs. split; [reflexivity|]. split; [reflexivity|].
    split; [exact Hlen|]. intros i l Hl.
    destruct (Hall i l Hl) as (y & Hy & Hf). unfold anchor_of in Hf.
    cbn [Nat.add] in Hf. destruct (mjoin (vs !! i)) as [v|] eqn:Hv;
      [|discriminate].
    injection Hf as <-. exists v. split; [|exact Hy].
    destruct (vs !! i) as [[v'|]|]; simpl in Hv; congruence.
  - destruct (def_labels d) as [|l ls]; [contradiction|].
    destruct (Hall 0%nat l eq_refl) as (y & _ & Hf). discriminate Hf.
Qed.

Lemma precomputeLoop_inv (ai : Ai) :
  forall (defs : list LabelDefinition) (acc res : list CategoryEmbeddings)
         (w w1 : World),
    precomputeLoop ai defs acc w = (Ok res, w1) ->
    exists ces,
      res = acc ++ ces /\
      Forall2 anchors_of defs ces /\
      w1 = mkWorld (ai_log w ++ map anchor_call defs) (db_calls w) (db_rows w) /\
      forall j d, defs !! j = Some d -> def_labels d <> [] ->
        exists ce vs,
          ces !! j = Some ce /\
          run_embed ai (length (ai_log w) + j) (def_labels d) =
            Resolved (mkEmbedResponse (Some vs)) /\
          anchors_from vs d ce.
Proof.
  induction defs as [|d defs IH]; intros acc res w w1 H; cbn [precomputeLoop] in H.
  - injection H as <- <-. exists []. rewrite !app_nil_r.
    repeat split; [constructor|now destruct w|intros j d [=]].
  - unfold bind in H.
    destruct (precomputeCategory ai d w) as [[ce|e|] w0] eqn:Hc; try discriminate.
    apply precomputeCategory_inv in Hc as (-> & Ha & Hfrom).
    apply IH in H as (ces & -> & Hces & -> & Hrest).
    exists (ce :: ces). split; [now rewrite <- app_assoc|].
    split; [now constructor|]. split.
    + cbn [after_embed ai_log db_calls db_rows map]. now rewrite <- app_assoc.
    + intros [|j] d' Hd' Hne; cbn in Hd'.
      * injection Hd' as <-. destruct (Hfrom Hne) as (vs & Hr & Hf).
        exists ce, vs. rewrite Nat.add_0_r.
        split; [reflexivity|]. split; [exact Hr|exact Hf].
      * destruct (Hrest j d' Hd' Hne) as (ce' & vs & Hl & Hr & Hf).
        exists ce', vs. split; [exact Hl|]. split; [|exact Hf].
        cbn [after_embed ai_log] in Hr. rewrite length_app in Hr. cbn in Hr.
        now replace (length (ai_log w) + S j)%nat
          with (length (ai_log w) + 1 + j)%nat by lia.
Qed.

Lemma precomputeLoop_complete (ai : Ai) :
  forall (defs : list LabelDefinition) (acc : list CategoryEmbeddings) (w : World),
    (forall j d, defs !! j = Some d ->
       anchors_complete (run_embed ai (length (ai_log w) + j) (def_labels d))
         (def_labels d)) ->
    exists res w1, precomputeLoop ai defs acc w = (Ok res, w1).
Proof.
  induction defs as [|d defs IH]; intros acc w Hall; cbn [precomputeLoop].
  - unfold ret. eauto.
  - unfold bind. destruct (precomputeCategory_ok ai d w) as (ce & -> & _).
    { specialize (Hall 0%nat d eq_refl). now rewrite Nat.add_0_r in Hall. }
    apply IH. intros j dj Hj. cbn [after_embed ai_log]. rewrite length_app.
    cbn [length]. replace (length (ai_log w) + 1 + j)%nat
      with (length (ai_log w) + S j)%nat by lia.
    now apply Hall.
Qed.

Lemma label_definitions_nonempty (j : nat) (d : LabelDefinition) :
  LABEL_DEFINITIONS !! j = Some d -> def_labels d <> [].
Proof.
  intros H. apply list_elem_of_lookup_2 in H.
  now apply category_of_definition in H.
Qed.

(** X3: when each of the five anchor requests is answered with a vector
    for every label, precomputeLabelEmbeddings returns one anchor set
    per category, in the order of the label table, and binds each label
    to the vector at the same index of that category's response; it
    makes exactly those five requests and leaves the database alone. *)
Theorem precompute_binds_by_index (ai : Ai) (w : World) :
  (forall j d, LABEL_DEFINITIONS !! j = Some d ->
     anchors_complete (run_embed ai (length (ai_log w) + j) (def_labels d))
       (def_labels d)) ->
  exists labelEmbeddings : list CategoryEmbeddings,
    precomputeLabelEmbeddings ai w =
      (Ok labelEmbeddings,
       mkWorld (ai_log w ++ map anchor_call LABEL_DEFINITIONS)
         (db_calls w) (db_rows w)) /\
    Forall2 anchors_of LABEL_DEFINITIONS labelEmbeddings /\
    forall j d, LABEL_DEFINITIONS !! j = Some d ->
      exists ce vs,
        labelEmbeddings !! j = Some ce /\
        run_embed ai (length (ai_log w) + j) (def_labels d) =
          Resolved (mkEmbedResponse (Some vs)) /\
        anchors_from vs d ce.
Proof.
  intros Hall. unfold precomputeLabelEmbeddings.
  destruct (precomputeLoop_complete ai LABEL_DEFINITIONS [] w Hall)
    as (res & w1 & Hrun).
  destruct (precomputeLoop_inv ai _ _ _ _ _ Hrun) as (ces & -> & HF & -> & Hb).
  exists ces. cbn [app]. split; [exact Hrun|]. split; [exact HF|].
  intros j d Hd. apply Hb; [exact Hd|]. eapply label_definitions_nonempty; eauto.
Qed.

Lemma ai_holes_anchors_complete (w : World) :
  length (ai_log w) = 0%nat ->
  forall (j : nat) (d : LabelDefinition),
  LABEL_DEFINITIONS !! j = Some d ->
  anchors_complete (run_embed ai_holes (length (ai_log w) + j) (def_labels d))
    (def_labels d).
Proof.
  intros Hw j d Hd. rewrite Hw. cbn [Nat.add].
  assert (Hj : (j < 5)%nat) by (apply lookup_lt_Some in Hd; exact Hd).
  cbn [ai_holes run_embed]. rewrite (proj2 (Nat.ltb_lt j 5) Hj).
  eexists. split; [reflexivity|]. intros i Hi.
  destruct (lookup_lt_is_Some_2 _ _ Hi) as [l Hl].
  rewrite list_lookup_imap, Hl. cbn. eauto.
Qed.

Lemma precompute_binds_by_index_witness :
  exists labelEmbeddings w1,
    precomputeLabelEmbeddings ai_holes world0 = (Ok labelEmbeddings, w1) /\
    Forall2 anchors_of LABEL_DEFINITIONS labelEmbeddings.
Proof.
  destruct (precompute_binds_by_index ai_holes world0
              (ai_holes_anchors_complete world0 eq_refl))
    as (LE & Hrun & HF & _).
  eexists LE, _. split; [exact Hrun|exact HF].
Defined.

(* ------------------------------------------------------------------ *)
(** ** The loops of the bulk job *)
(* ------------------------------------------------------------------ *)

Lemma ceil_div_step (m d : nat) :
  (0 < d)%nat -> (0 < m)%nat -> ceil_div m d = S (ceil_div (m - d) d).
Proof.
  intros Hd Hm. unfold ceil_div.
  destruct (Nat.le_gt_cases d m) as [Hle|Hgt].
  - replace (m + d - 1)%nat with ((m - d + d - 1) + 1 * d)%nat by lia.
    rewrite Nat.div_add by lia. lia.
  - replace (m - d)%nat with 0%nat by lia.
    replace (m + d - 1)%nat with ((m - 1) + 1 * d)%nat by lia.
    rewrite Nat.div_add by lia.
    rewrite (Nat.div_small (m - 1) d) by lia.
    rewrite (Nat.div_small (0 + d - 1) d) by lia. reflexivity.
Qed.

Lemma ceil_div_0 (d : nat) : (0 < d)%nat -> ceil_div 0 d = 0%nat.
Proof. intros Hd. unfold ceil_div. apply Nat.div_small. lia. Qed.

Lemma chunkTextsAt_shift (items : list FeedbackItem) (i j : nat) :
  chunkTextsAt items (i + chunkSize) j = chunkTextsAt items i (S j).
Proof.
  unfold chunkTextsAt.
  replace (i + chunkSize + j * chunkSize)%nat
    with (i + S j * chunkSize)%nat by (cbn [Nat.mul]; lia).
  reflexivity.
Qed.

Lemma chunkTextsAt_0 (items : list FeedbackItem) (i : nat) :
  chunkTextsAt items i 0 = map content (slice i (i + chunkSize) items).
Proof. unfold chunkTextsAt. cbn [Nat.mul]. now rewrite Nat.add_0_r. Qed.

(** What a completed run of the chunk loop did: one request per chunk,
    and the concatenation of the data arrays received. *)
Lemma embedChunks_inv (ai : Ai) (items : list FeedbackItem) :
  forall (fuel i : nat) (all embs : list (option vector)) (w w2 : World),
    embedChunks ai items fuel i all w = (Ok embs, w2) ->
    exists ds : list (list (option vector)),
      embs = all ++ concat ds /\
      length ds = ceil_div (length items - i) chunkSize /\
      w2 = mkWorld
             (ai_log w ++
                map (fun j => CallEmbed (chunkTextsAt items i j))
                  (seq 0 (length ds)))
             (db_calls w) (db_rows w) /\
      forall j dj, ds !! j = Some dj ->
        run_embed ai (length (ai_log w) + j) (chunkTextsAt items i j) =
          Resolved (mkEmbedResponse (Some dj)).
Proof.
  induction fuel as [|fuel IH]; intros i all embs w w2 H;
    cbn [embedChunks] in H; [discriminate|].
  destruct (Nat.ltb_spec i (length items)) as [Hi|Hi].
  - unfold bind at 1 in H. unfold ai_run_embed in H.
    destruct (run_embed ai (length (ai_log w)) _) as [[dt]|e] eqn:Hr;
      cbn [await] in H; [|discriminate].
    unfold bind, lift in H. cbn [data] in H.
    destruct dt as [d0|]; cbn [spread] in H; [|discriminate].
    apply IH in H as (ds & -> & Hlen & -> & Hcalls).
    exists (d0 :: ds). cbn [concat length ai_log db_calls db_rows].
    split; [now rewrite <- app_assoc|]. split; [|split].
    + rewrite (ceil_div_step (length items - i) chunkSize)
        by (unfold chunkSize; lia).
      f_equal. rewrite Hlen. f_equal. lia.
    + f_equal. rewrite <- app_assoc. f_equal.
      cbn [seq map app]. f_equal.
      * now rewrite chunkTextsAt_0.
      * rewrite <- seq_shift, map_map. apply map_ext. intros j.
        now rewrite chunkTextsAt_shift.
    + intros [|j] dj Hj; cbn in Hj.
      * injection Hj as <-. now rewrite Nat.add_0_r, chunkTextsAt_0.
      * specialize (Hcalls j dj Hj). cbn [ai_log] in Hcalls.
        rewrite length_app in Hcalls.
        cbn [length] in Hcalls.
        replace (length (ai_log w) + S j)%nat
          with (length (ai_log w) + 1 + j)%nat by lia.
        now rewrite <- Hcalls, chunkTextsAt_shift.
  - injection H as <- <-. exists []. cbn [concat length seq map].
    rewrite !app_nil_r. split; [reflexivity|]. split.
    + replace (length items - i)%nat with 0%nat by lia.
      now rewrite ceil_div_0 by (unfold chunkSize; lia).
    + split; [now destruct w|]. intros j dj [=].
Qed.

Lemma saveChunks_inv (db : D1Database) (results : list BatchResult) :
  forall (fuel i : nat) (w w3 : World),
    saveChunks db results fuel i w = (Ok tt, w3) ->
    w3 = mkWorld (ai_log w)
           (db_calls w + ceil_div (length results - i) saveChunkSize)
           (db_rows w ++
              map (fun res => insertRow (br_id res) (br_classifications res))
                (drop i results)).
Proof.
  induction fuel as [|fuel IH]; intros i w w3 H; cbn [saveChunks] in H;
    [discriminate|].
  destruct (Nat.ltb_spec i (length results)) as [Hi|Hi].
  - unfold bind, db_write in H.
    destruct (write_fails db (db_calls w) _); [discriminate|].
    apply IH in H as ->. cbn [ai_log db_calls db_rows]. f_equal.
    + rewrite (ceil_div_step (length results - i) saveChunkSize)
        by (unfold saveChunkSize; lia).
      replace (length results - (i + saveChunkSize))%nat
        with (length results - i - saveChunkSize)%nat by lia. lia.
    + rewrite <- app_assoc, <- map_app. do 2 f_equal.
      unfold slice.
      replace (i + saveChunkSize - i)%nat with saveChunkSize by lia.
      rewrite <- (drop_drop results saveChunkSize i). apply take_drop.
  - injection H as <-. replace (length results - i)%nat with 0%nat by lia.
    rewrite ceil_div_0 by (unfold saveChunkSize; lia).
    rewrite drop_ge by lia. cbn [map]. rewrite app_nil_r, Nat.add_0_r.
    now destruct w.
Qed.

(** What a completed run of the job did. *)
Lemma batchClassifyFeedback_inv (feedbackItems : list FeedbackItem)
  (db : D1Database) (ai : Ai) (w w' : World) (counts : Counts) :
  batchClassifyFeedback feedbackItems db ai w = (Ok counts, w') ->
  exists (labelEmbeddings : list CategoryEmbeddings)
         (feedbackEmbeddings : list (option vector)) (w1 w2 : World),
    precomputeLabelEmbeddings ai w = (Ok labelEmbeddings, w1) /\
    embedChunks ai feedbackItems (S (length feedbackItems)) 0 [] w1 =
      (Ok feedbackEmbeddings, w2) /\
    let rs := itemResults labelEmbeddings feedbackEmbeddings 0 feedbackItems in
    classified counts = count_some rs /\
    failed counts = count_none rs /\
    saveChunks db (omap (fun x => x) rs)
      (S (length (omap (fun x => x) rs))) 0 w2 = (Ok tt, w').
Proof.
  intros Hjob. unfold batchClassifyFeedback, bind in Hjob.
  destruct (precomputeLabelEmbeddings ai w) as [[LE|e|] w1] eqn:Hpre;
    try discriminate.
  destruct (embedChunks ai feedbackItems (S (length feedbackItems)) 0 [] w1)
    as [[embs|e|] w2] eqn:Hemb; try discriminate.
  rewrite classifyLoop_results in Hjob. cbn zeta in Hjob.
  cbn [st_classified st_failed st_batchResults app] in Hjob.
  destruct (saveChunks db _ _ 0 w2) as [[[]|e|] w3] eqn:Hsave;
    try discriminate.
  unfold ret in Hjob. injection Hjob as <- <-.
  exists LE, embs, w1, w2. cbn zeta. cbn [classified failed].
  repeat split; try reflexivity; assumption.
Qed.

Lemma precompute_inv (ai : Ai) (w w1 : World)
  (labelEmbeddings : list CategoryEmbeddings) :
  precomputeLabelEmbeddings ai w = (Ok labelEmbeddings, w1) ->
  Forall2 anchors_of LABEL_DEFINITIONS labelEmbeddings /\
  w1 = mkWorld (ai_log w ++ map anchor_call LABEL_DEFINITIONS)
         (db_calls w) (db_rows w).
Proof.
  intros H. apply precomputeLoop_inv in H as (ces & -> & HF & -> & _).
  now split.
Qed.

(** X4: a run of the bulk job that returns counts has made exactly
    5 + ceil(n / 100) embedding requests for its n items and
    ceil(classified / 50) database writes. *)
Theorem batch_call_counts (feedbackItems : list FeedbackItem)
  (db : D1Database) (ai : Ai) (w w' : World) (counts : Counts) :
  batchClassifyFeedback feedbackItems db ai w = (Ok counts, w') ->
  length (ai_log w') =
    (length (ai_log w) + 5 + ceil_div (length feedbackItems) 100)%nat /\
  db_calls w' = (db_calls w + ceil_div (classified counts) 50)%nat.
Proof.
  intros Hjob.
  apply batchClassifyFeedback_inv in Hjob
    as (LE & embs & w1 & w2 & Hpre & Hemb & Hc & _ & Hsave).
  apply precompute_inv in Hpre as [_ ->].
  apply embedChunks_inv in Hemb as (ds & _ & Hlen & -> & _).
  apply saveChunks_inv in Hsave as ->.
  cbn [ai_log db_calls]. split.
  - rewrite !length_app, !length_map, length_seq, Hlen, Nat.sub_0_r.
    reflexivity.
  - rewrite Nat.sub_0_r, Hc, count_some_omap. reflexivity.
Qed.

Lemma batch_call_counts_witness :
  exists w',
    batchClassifyFeedback items4 db_ok ai_holes world0 =
      (Ok (mkCounts 1 3), w') /\
    length (ai_log w') = 6%nat /\ db_calls w' = 1%nat.
Proof.
  eexists. split; [vm_compute; reflexivity|].
  refine (batch_call_counts items4 db_ok ai_holes world0 _ (mkCounts 1 3) _).
  vm_compute. reflexivity.
Defined.

(** X5: the vectors the chunk loop returns are the data arrays of the
    responses, concatenated in request order, whatever their lengths:
    the j-th request carries the texts of items 100j .. 100j+99, and when
    a response holds fewer vectors than its chunk, the vectors of the
    later chunks stand at earlier positions than their items. *)
Theorem embedChunks_concatenates (ai : Ai) (feedbackItems : list FeedbackItem)
  (embs : list (option vector)) (w w2 : World) :
  embedChunks ai feedbackItems (S (length feedbackItems)) 0 [] w = (Ok embs, w2) ->
  exists ds : list (list (option vector)),
    embs = concat ds /\
    length ds = ceil_div (length feedbackItems) 100 /\
    forall j dj, ds !! j = Some dj ->
      run_embed ai (length (ai_log w) + j)
        (map content (slice (j * 100) (j * 100 + 100) feedbackItems)) =
      Resolved (mkEmbedResponse (Some dj)).
Proof.
  intros H. apply embedChunks_inv in H as (ds & -> & Hlen & _ & Hcalls).
  exists ds. split; [reflexivity|]. split.
  - now rewrite Hlen, Nat.sub_0_r.
  - intros j dj Hj. specialize (Hcalls j dj Hj).
    unfold chunkTextsAt in Hcalls. exact Hcalls.
Qed.

Lemma embedChunks_concatenates_witness :
  exists embs w2,
    embedChunks ai_short_chunk items101 102 0 []
      (mkWorld (map anchor_call LABEL_DEFINITIONS) 0 []) = (Ok embs, w2) /\
    embs = [Some [1; 0]%float; Some [0; 1]%float].
Proof.
  eexists _, _. split; [vm_compute; reflexivity|].
  destruct (embedChunks_concatenates ai_short_chunk items101 _
              (mkWorld (map anchor_call LABEL_DEFINITIONS) 0 []) _
              ltac:(vm_compute; reflexivity))
    as (ds & Hds & _). reflexivity.
Defined.

Lemma saveChunks_extends (db : D1Database) (results : list BatchResult) :
  forall (fuel i : nat) (w : World),
    exists added,
      db_rows (snd (saveChunks db results fuel i w)) = db_rows w ++ added /\
      (db_calls w <= db_calls (snd (saveChunks db results fuel i w)))%nat.
Proof.
  induction fuel as [|fuel IH]; intros i w; cbn [saveChunks].
  - exists []. cbn. now rewrite app_nil_r.
  - destruct (i <? length results)%nat.
    + unfold bind, db_write.
      destruct (write_fails db (db_calls w) _).
      * exists []. cbn. rewrite app_nil_r. split; [reflexivity|lia].
      * match goal with
        | |- context [saveChunks db results fuel ?i' ?w'] =>
            destruct (IH i' w') as (added & Hrows & Hcalls)
        end.
        cbn [db_rows db_calls] in Hrows, Hcalls.
        eexists. rewrite Hrows, <- app_assoc. split; [reflexivity|lia].
    + exists []. cbn. now rewrite app_nil_r.
Qed.

Lemma batchClassifyFeedback_extends (feedbackItems : list FeedbackItem)
  (db : D1Database) (ai : Ai) (w : World) :
  exists added : list ClassificationRow,
    db_rows (snd (batchClassifyFeedback feedbackItems db ai w)) =
    db_rows w ++ added.
Proof.
  unfold batchClassifyFeedback, bind.
  pose proof (precomputeLoop_world ai LABEL_DEFINITIONS [] w)
    as (_ & _ & Hrows1 & _).
  fold (precomputeLabelEmbeddings ai) in Hrows1.
  destruct (precomputeLabelEmbeddings ai w) as [[LE|e|] w1];
    cbn [snd] in *; try (exists []; now rewrite app_nil_r).
  pose proof (embedChunks_db ai feedbackItems (S (length feedbackItems))
                0 [] w1) as [_ Hrows2].
  destruct (embedChunks ai feedbackItems (S (length feedbackItems)) 0 [] w1)
    as [[embs|e|] w2]; cbn [snd] in *;
    try (exists []; rewrite app_nil_r; congruence).
  match goal with
  | |- context [saveChunks db ?r ?f 0 w2] =>
      destruct (saveChunks_extends db r f 0 w2) as (added & Hrows3 & _);
      revert Hrows3;
      destruct (saveChunks db r f 0 w2) as [[[]|e|] w3]
  end; unfold ret; cbn [snd] in *; intros Hrows3; exists added; congruence.
Qed.

(** X6: whatever happens (counts returned or an exception at any
    stage), the job only appends to the classifications table: the rows
    present before are still there, unchanged and in place, and no
    existing row is updated or deleted. *)
Theorem batch_only_appends (feedbackItems : list FeedbackItem)
  (db : D1Database) (ai : Ai) (w : World) :
  exists added : list ClassificationRow,
    db_rows (snd (batchClassifyFeedback feedbackItems db ai w)) =
    db_rows w ++ added.
Proof. apply batchClassifyFeedback_extends. Qed.

(** X7: with no item to classify the job still requests the five anchor
    sets; when they arrive it returns zero counts without any chunk
    request and without touching the database. *)
Theorem batch_empty_input (db : D1Database) (ai : Ai) (w w1 : World)
  (labelEmbeddings : list CategoryEmbeddings) :
  precomputeLabelEmbeddings ai w = (Ok labelEmbeddings, w1) ->
  batchClassifyFeedback [] db ai w = (Ok (mkCounts 0 0), w1) /\
  ai_log w1 = ai_log w ++ map anchor_call LABEL_DEFINITIONS /\
  db_calls w1 = db_calls w /\ db_rows w1 = db_rows w.
Proof.
  intros Hpre. split.
  - unfold batchClassifyFeedback, bind. rewrite Hpre. reflexivity.
  - apply precompute_inv in Hpre as [_ ->]. repeat split.
Qed.

Lemma batch_empty_input_witness :
  exists w1,
    batchClassifyFeedback [] db_ok ai_holes world0 = (Ok (mkCounts 0 0), w1) /\
    length (ai_log w1) = 5%nat.
Proof.
  destruct (precomputeLabelEmbeddings ai_holes world0) as [[LE|e|] w1] eqn:Hpre;
    [|vm_compute in Hpre; discriminate Hpre
     |vm_compute in Hpre; discriminate Hpre].
  destruct (batch_empty_input db_ok ai_holes world0 w1 LE Hpre)
    as (Hrun & Hlog & _).
  exists w1. split; [exact Hrun|]. rewrite Hlog. reflexivity.
Defined.

Lemma embedChunks_first_failure (ai : Ai) (items : list FeedbackItem)
  (e : thrown) :
  forall (j fuel i : nat) (all : list (option vector)) (w : World),
    (i + j * chunkSize < length items)%nat ->
    (length items - i < fuel)%nat ->
    (forall k, (k < j)%nat ->
       exists dk, run_embed ai (length (ai_log w) + k) (chunkTextsAt items i k) =
                  Resolved (mkEmbedResponse (Some dk))) ->
    run_embed ai (length (ai_log w) + j) (chunkTextsAt items i j) = Rejected e ->
    embedChunks ai items fuel i all w =
    (Throw e,
     mkWorld
       (ai_log w ++
          map (fun k => CallEmbed (chunkTextsAt items i k)) (seq 0 (S j)))
       (db_calls w) (db_rows w)).
Proof.
  induction j as [|j IH]; intros fuel i all w Hj Hfuel Hok Hrej;
    (destruct fuel as [|fuel]; [lia|]); cbn [embedChunks];
    cbn [Nat.mul] in Hj;
    rewrite (proj2 (Nat.ltb_lt i (length items))) by lia;
    unfold bind at 1; unfold ai_run_embed.
  - rewrite Nat.add_0_r, chunkTextsAt_0 in Hrej. rewrite Hrej.
    cbn [await seq map]. now rewrite chunkTextsAt_0.
  - destruct (Hok 0%nat ltac:(lia)) as [d0 H0].
    rewrite Nat.add_0_r, chunkTextsAt_0 in H0. rewrite H0.
    cbn [await]. unfold bind, lift. cbn [data spread].
    rewrite (IH fuel (i + chunkSize)%nat).
    + cbn [ai_log db_calls db_rows]. f_equal. f_equal.
      rewrite <- app_assoc. f_equal. cbn [app].
      change (seq 0 (S (S j))) with (0%nat :: seq 1 (S j)). cbn [map]. f_equal.
      * now rewrite chunkTextsAt_0.
      * rewrite <- seq_shift, map_map. apply map_ext. intros k.
        now rewrite chunkTextsAt_shift.
    + unfold chunkSize in *. lia.
    + unfold chunkSize. lia.
    + intros k Hk. cbn [ai_log]. rewrite length_app. cbn [length].
      destruct (Hok (S k) ltac:(lia)) as [dk Hdk]. exists dk.
      rewrite chunkTextsAt_shift.
      now replace (length (ai_log w) + 1 + k)%nat
        with (length (ai_log w) + S k)%nat by lia.
    + cbn [ai_log]. rewrite length_app. cbn [length].
      rewrite chunkTextsAt_shift.
      now replace (length (ai_log w) + 1 + j)%nat
        with (length (ai_log w) + S j)%nat by lia.
Qed.

(** X8: when the request for a chunk of items is rejected (the anchors
    and the earlier chunks having been answered), the whole job throws
    that error: no counts are returned and nothing is written, not even
    for the items of the chunks already embedded. *)
Theorem chunk_failure_aborts_job (feedbackItems : list FeedbackItem)
  (db : D1Database) (ai : Ai) (w w1 : World)
  (labelEmbeddings : list CategoryEmbeddings) (j : nat) (e : thrown) :
  precomputeLabelEmbeddings ai w = (Ok labelEmbeddings, w1) ->
  (j * 100 < length feedbackItems)%nat ->
  (forall k, (k < j)%nat ->
     exists dk,
       run_embed ai (length (ai_log w1) + k)
         (map content (slice (k * 100) (k * 100 + 100) feedbackItems)) =
       Resolved (mkEmbedResponse (Some dk))) ->
  run_embed ai (length (ai_log w1) + j)
    (map content (slice (j * 100) (j * 100 + 100) feedbackItems)) = Rejected e ->
  exists w2,
    batchClassifyFeedback feedbackItems db ai w = (Throw e, w2) /\
    db_calls w2 = db_calls w /\ db_rows w2 = db_rows w /\
    length (ai_log w2) = (length (ai_log w) + 5 + S j)%nat.
Proof.
  intros Hpre Hj Hok Hrej.
  unfold batchClassifyFeedback, bind. rewrite Hpre.
  rewrite (embedChunks_first_failure ai feedbackItems e j
             (S (length feedbackItems)) 0 [] w1); try assumption; try lia.
  eexists. split; [reflexivity|].
  apply precompute_inv in Hpre as [_ ->]. cbn [ai_log db_calls db_rows].
  repeat split.
  rewrite !length_app, !length_map, length_seq. reflexivity.
Qed.

Lemma chunk_failure_aborts_job_witness :
  exists w2,
    batchClassifyFeedback items4 db_ok ai_chunk_down world0 =
      (Throw (ErrorInstance "Error" "rate limited"), w2) /\
    db_rows w2 = [].
Proof.
  destruct (precomputeLabelEmbeddings ai_chunk_down world0)
    as [[LE|e|] w1] eqn:Hpre;
    [|vm_compute in Hpre; discriminate Hpre
     |vm_compute in Hpre; discriminate Hpre].
  destruct (chunk_failure_aborts_job items4 db_ok ai_chunk_down world0 w1 LE
              0 (ErrorInstance "Error" "rate limited") Hpre)
    as (w2 & Hrun & _ & Hrows & _).
  - cbn. lia.
  - intros k Hk. lia.
  - apply precompute_inv in Hpre as [_ ->]. reflexivity.
  - exists w2. split; [exact Hrun|exact Hrows].
Defined.

Lemma saveBatchAt_shift (results : list BatchResult) (i j : nat) :
  saveBatchAt results (i + saveChunkSize) j = saveBatchAt results i (S j).
Proof.
  unfold saveBatchAt.
  replace (i + saveChunkSize + j * saveChunkSize)%nat
    with (i + S j * saveChunkSize)%nat by (cbn [Nat.mul]; lia).
  reflexivity.
Qed.

Lemma saveBatchAt_0 (results : list BatchResult) (i : nat) :
  saveBatchAt results i 0 =
  map (fun res => insertRow (br_id res) (br_classifications res))
    (slice i (i + saveChunkSize) results).
Proof. unfold saveBatchAt. cbn [Nat.mul]. now rewrite Nat.add_0_r. Qed.

Lemma saveChunks_first_failure (db : D1Database) (results : list BatchResult)
  (e : thrown) :
  forall (j fuel i : nat) (w : World),
    (i + j * saveChunkSize < length results)%nat ->
    (length results - i < fuel)%nat ->
    (forall k, (k < j)%nat ->
       write_fails db (db_calls w + k) (saveBatchAt results i k) = None) ->
    write_fails db (db_calls w + j) (saveBatchAt results i j) = Some e ->
    saveChunks db results fuel i w =
    (Throw e,
     mkWorld (ai_log w) (db_calls w + S j)
       (db_rows w ++
          map (fun res => insertRow (br_id res) (br_classifications res))
            (take (j * saveChunkSize) (drop i results)))).
Proof.
  induction j as [|j IH]; intros fuel i w Hj Hfuel Hok Hfail;
    (destruct fuel as [|fuel]; [lia|]); cbn [saveChunks];
    cbn [Nat.mul] in Hj;
    rewrite (proj2 (Nat.ltb_lt i (length results))) by lia;
    unfold bind, db_write.
  - rewrite Nat.add_0_r, saveBatchAt_0 in Hfail. rewrite Hfail.
    cbn [Nat.mul take map]. now rewrite app_nil_r, Nat.add_1_r.
  - pose proof (Hok 0%nat ltac:(lia)) as H0.
    rewrite Nat.add_0_r, saveBatchAt_0 in H0. rewrite H0.
    rewrite (IH fuel (i + saveChunkSize)%nat).
    + cbn [ai_log db_calls db_rows]. f_equal. f_equal; [lia|].
      rewrite <- app_assoc, <- map_app. do 2 f_equal.
      unfold slice.
      replace (i + saveChunkSize - i)%nat with saveChunkSize by lia.
      rewrite <- (drop_drop results saveChunkSize i).
      cbn [Nat.mul]. apply take_take_drop.
    + unfold saveChunkSize in *. lia.
    + unfold saveChunkSize. lia.
    + intros k Hk. cbn [db_calls]. rewrite saveBatchAt_shift.
      replace (S (db_calls w) + k)%nat with (db_calls w + S k)%nat by lia.
      apply Hok. lia.
    + cbn [db_calls]. rewrite saveBatchAt_shift.
      now replace (S (db_calls w) + j)%nat with (db_calls w + S j)%nat by lia.
Qed.

(** X9: when the j-th database write of the job fails (the earlier ones
    having succeeded), the job throws that error instead of returning
    counts; the rows of the first j batches of 50 stay committed and no
    later row is written: there is no rollback and no retry. *)
Theorem write_failure_keeps_earlier_batches (feedbackItems : list FeedbackItem)
  (db : D1Database) (ai : Ai) (w w1 w2 : World)
  (labelEmbeddings : list CategoryEmbeddings)
  (feedbackEmbeddings : list (option vector)) (j : nat) (e : thrown) :
  precomputeLabelEmbeddings ai w = (Ok labelEmbeddings, w1) ->
  embedChunks ai feedbackItems (S (length feedbackItems)) 0 [] w1 =
    (Ok feedbackEmbeddings, w2) ->
  let results :=
    omap (fun x => x)
      (itemResults labelEmbeddings feedbackEmbeddings 0 feedbackItems) in
  let batch k :=
    map (fun res => insertRow (br_id res) (br_classifications res))
      (slice (k * 50) (k * 50 + 50) results) in
  (j * 50 < length results)%nat ->
  (forall k, (k < j)%nat -> write_fails db (db_calls w + k) (batch k) = None) ->
  write_fails db (db_calls w + j) (batch j) = Some e ->
  exists w3,
    batchClassifyFeedback feedbackItems db ai w = (Throw e, w3) /\
    db_rows w3 =
      db_rows w ++
      map (fun res => insertRow (br_id res) (br_classifications res))
        (take (j * 50) results) /\
    db_calls w3 = (db_calls w + S j)%nat.
Proof.
  intros Hpre Hemb results batch Hj Hok Hfail.
  pose proof (embedChunks_db ai feedbackItems (S (length feedbackItems))
                0 [] w1) as [Hc2 Hr2].
  rewrite Hemb in Hc2, Hr2. cbn [snd] in Hc2, Hr2.
  pose proof Hpre as Hpre'. apply precompute_inv in Hpre' as [_ Hw1].
  assert (Hc1 : db_calls w1 = db_calls w) by (now rewrite Hw1).
  assert (Hr1 : db_rows w1 = db_rows w) by (now rewrite Hw1).
  unfold batchClassifyFeedback, bind. rewrite Hpre, Hemb.
  rewrite classifyLoop_results. cbn zeta.
  cbn [st_classified st_failed st_batchResults app]. fold results.
  rewrite (saveChunks_first_failure db results e j
             (S (length results)) 0 w2).
  - eexists. split; [reflexivity|]. cbn [db_rows db_calls].
    rewrite drop_0, Hr2, Hr1, Hc2, Hc1. split; reflexivity.
  - exact Hj.
  - lia.
  - intros k Hk. rewrite Hc2, Hc1. exact (Hok k Hk).
  - rewrite Hc2, Hc1. exact Hfail.
Qed.

Lemma write_failure_keeps_earlier_batches_witness :
  exists w3,
    batchClassifyFeedback items60 db_second_write_fails ai_constant world0 =
      (Throw (ErrorInstance "Error" "D1_ERROR"), w3) /\
    length (db_rows w3) = 50%nat /\ db_calls w3 = 2%nat.
Proof.
  destruct (precomputeLabelEmbeddings ai_constant world0)
    as [[LE|e|] w1] eqn:Hpre;
    [|vm_compute in Hpre; discriminate Hpre
     |vm_compute in Hpre; discriminate Hpre].
  destruct (embedChunks ai_constant items60 (S (length items60)) 0 [] w1)
    as [[embs|e|] w2] eqn:Hemb;
    [|apply precompute_inv in Hpre as [_ ->];
      vm_compute in Hemb; discriminate Hemb
     |apply precompute_inv in Hpre as [_ ->];
      vm_compute in Hemb; discriminate Hemb].
  assert (HLE : LE = fst (match precomputeLabelEmbeddings ai_constant world0
                          with (Ok l, _) => (l, tt) | _ => ([], tt) end))
    by (now rewrite Hpre).
  assert (Hembs : embs = map (fun _ => Some [1; 0]%float) items60).
  { pose proof Hpre as Hp. apply precompute_inv in Hp as [_ ->].
    vm_compute in Hemb. injection Hemb as <- _. reflexivity. }
  destruct (write_failure_keeps_earlier_batches items60 db_second_write_fails
              ai_constant world0 w1 w2 LE embs 1
              (ErrorInstance "Error" "D1_ERROR") Hpre Hemb)
    as (w3 & Hrun & Hrows & Hcalls).
  - rewrite HLE, Hembs. vm_compute. lia.
  - intros k Hk. assert (k = 0%nat) as -> by lia. reflexivity.
  - reflexivity.
  - exists w3. split; [exact Hrun|]. split; [|exact Hcalls].
    rewrite Hrows, HLE, Hembs. vm_compute. reflexivity.
Defined.

(* ------------------------------------------------------------------ *)
(** ** Incomplete anchor responses *)
(* ------------------------------------------------------------------ *)

Lemma mapi_anchor_missing (vs : list (option vector)) :
  forall (labels : list string) (i0 i : nat),
    (i < length labels)%nat ->
    mjoin (vs !! (i0 + i)%nat) = None ->
    mapi_throw (anchor_of (Some vs)) i0 labels = Throw TypeError_undefined.
Proof.
  induction labels as [|l ls IH]; intros i0 i Hi Hmiss; cbn [length] in Hi;
    [lia|].
  cbn [mapi_throw]. unfold anchor_of at 1.
  destruct (mjoin (vs !! i0)) as [v|] eqn:Hv; [|reflexivity].
  cbn [obind]. destruct i as [|i].
  - rewrite Nat.add_0_r in Hmiss. congruence.
  - rewrite (IH (S i0) i); [reflexivity|lia|].
    now replace (S i0 + i)%nat with (i0 + S i)%nat by lia.
Qed.

Lemma precomputeCategory_incomplete (ai : Ai) (d : LabelDefinition) (w : World)
  (r : EmbedResponse) :
  run_embed ai (length (ai_log w)) (def_labels d) = Resolved r ->
  anchors_incomplete r (def_labels d) ->
  precomputeCategory ai d w =
  (Throw TypeError_undefined, after_embed w (def_labels d)).
Proof.
  intros Hr Hinc.
  unfold precomputeCategory, try_catch, bind, ai_run_embed, lift, throw.
  rewrite Hr. cbn [await]. unfold anchors_incomplete in Hinc.
  destruct (data r) as [vs|].
  - destruct Hinc as (i & Hi & Hmiss).
    now rewrite (mapi_anchor_missing vs (def_labels d) 0 i Hi Hmiss).
  - destruct (def_labels d) as [|l ls]; [contradiction|]. reflexivity.
Qed.

Lemma precomputeLoop_first_incomplete (ai : Ai) :
  forall (defs : list LabelDefinition) (acc : list CategoryEmbeddings)
         (w : World) (k : nat) (d : LabelDefinition) (r : EmbedResponse),
    defs !! k = Some d ->
    (forall j dj, (j < k)%nat -> defs !! j = Some dj ->
       anchors_complete (run_embed ai (length (ai_log w) + j) (def_labels dj))
         (def_labels dj)) ->
    run_embed ai (length (ai_log w) + k) (def_labels d) = Resolved r ->
    anchors_incomplete r (def_labels d) ->
    precomputeLoop ai defs acc w =
    (Throw TypeError_undefined,
     mkWorld (ai_log w ++ map anchor_call (take (S k) defs))
       (db_calls w) (db_rows w)).
Proof.
  induction defs as [|d0 defs IH]; intros acc w k d r Hk Hgood Hr Hinc;
    [discriminate|].
  cbn [precomputeLoop]. unfold bind. destruct k as [|k].
  - injection Hk as ->. rewrite Nat.add_0_r in Hr.
    rewrite (precomputeCategory_incomplete ai d w r Hr Hinc).
    cbn. destruct defs; reflexivity.
  - destruct (precomputeCategory_ok ai d0 w) as (ce & Hce & _).
    { specialize (Hgood 0%nat d0 ltac:(lia) eq_refl).
      now rewrite Nat.add_0_r in Hgood. }
    rewrite Hce.
    rewrite (IH (acc ++ [ce]) (after_embed w (def_labels d0)) k d r Hk).
    + cbn. f_equal. f_equal. now rewrite <- app_assoc.
    + intros j dj Hj Hdj. cbn. rewrite length_app. cbn.
      replace (length (ai_log w) + 1 + j)%nat
        with (length (ai_log w) + S j)%nat by lia.
      apply Hgood; [lia|exact Hdj].
    + cbn. rewrite length_app. cbn.
      now replace (length (ai_log w) + 1 + k)%nat
        with (length (ai_log w) + S k)%nat by lia.
    + exact Hinc.
Qed.

(** X10: an anchor response that lacks a vector for one of the labels
    of its category (a short data array, a hole, or no data at all) is
    never accepted: precomputeLabelEmbeddings throws a TypeError on it,
    and the job aborts with it before any item request or write. *)
Theorem incomplete_anchors_abort_job (feedbackItems : list FeedbackItem)
  (db : D1Database) (ai : Ai) (w : World) (k : nat) (d : LabelDefinition)
  (r : EmbedResponse) :
  LABEL_DEFINITIONS !! k = Some d ->
  (forall j dj, (j < k)%nat -> LABEL_DEFINITIONS !! j = Some dj ->
     anchors_complete (run_embed ai (length (ai_log w) + j) (def_labels dj))
       (def_labels dj)) ->
  run_embed ai (length (ai_log w) + k) (def_labels d) = Resolved r ->
  anchors_incomplete r (def_labels d) ->
  let w' := mkWorld (ai_log w ++ map anchor_call (take (S k) LABEL_DEFINITIONS))
              (db_calls w) (db_rows w) in
  precomputeLabelEmbeddings ai w = (Throw TypeError_undefined, w') /\
  batchClassifyFeedback feedbackItems db ai w = (Throw TypeError_undefined, w').
Proof.
  intros Hk Hgood Hr Hinc w'.
  assert (Hpre : precomputeLabelEmbeddings ai w = (Throw TypeError_undefined, w'))
    by (now apply (precomputeLoop_first_incomplete ai LABEL_DEFINITIONS [] w k d r)).
  split; [exact Hpre|].
  unfold batchClassifyFeedback, bind. now rewrite Hpre.
Qed.

Lemma incomplete_anchors_abort_job_witness :
  batchClassifyFeedback items4 db_ok ai_short_anchors world0 =
  (Throw TypeError_undefined,
   mkWorld (map anchor_call (take 2 LABEL_DEFINITIONS)) 0 []).
Proof.
  refine (proj2 (incomplete_anchors_abort_job items4 db_ok ai_short_anchors
                   world0 1
                   (mkLabelDefinition "polarity"
                      [ "positive satisfied excellent working well happy pleased";
                        "neutral okay fine average acceptable functional";
                        "negative frustrated broken failing disappointed angry" ])
                   (mkEmbedResponse (Some [Some [1; 0]%float]))
                   eq_refl _ eq_refl _)).
  - intros j dj Hj Hdj. assert (j = 0%nat) as -> by lia.
    injection Hdj as <-. eexists. split; [reflexivity|].
    intros i Hi. cbn in Hi.
    do 6 (destruct i as [|i]; [cbn; eauto|]). lia.
  - exists 1%nat. split; [cbn; lia|reflexivity].
Defined.

(* ------------------------------------------------------------------ *)
(** ** When an item can be scored *)
(* ------------------------------------------------------------------ *)

Lemma cosineSimilarity_outcome (a b : vector) :
  match cosineSimilarity a b with
  | Ok _ => length a = length b
  | Throw e => e = DimensionMismatch /\ length a <> length b
  | Fuel => False
  end.
Proof.
  unfold cosineSimilarity. destruct (Nat.eqb_spec (length a) (length b)) as [H|H];
    cbn [negb].
  - destruct (_ || _)%bool; exact H.
  - split; [reflexivity|exact H].
Qed.

Lemma similaritiesOf_outcome (v : vector) (ce : CategoryEmbeddings) :
  match similaritiesOf v ce with
  | Ok sims =>
      length sims = length (ce_embeddings ce) /\
      forall anchor, anchor ∈ ce_embeddings ce ->
                     length (le_embedding anchor) = length v
  | Throw e =>
      e = DimensionMismatch /\
      exists anchor, anchor ∈ ce_embeddings ce /\
                     length (le_embedding anchor) <> length v
  | Fuel => False
  end.
Proof.
  unfold similaritiesOf. generalize 0%nat.
  induction (ce_embeddings ce) as [|a l IH]; intros i; cbn [mapi_throw].
  - split; [reflexivity|]. intros anchor H. now apply elem_of_nil in H.
  - pose proof (cosineSimilarity_outcome v (le_embedding a)) as Hc.
    destruct (cosineSimilarity v (le_embedding a)) as [s|e|]; cbn [obind];
      [|destruct Hc as [-> Hc]; split; [reflexivity|];
        exists a; split; [apply list_elem_of_here|congruence]
       |contradiction].
    specialize (IH (S i)).
    destruct (mapi_throw _ (S i) l) as [ys|e|]; cbn [obind];
      [|destruct IH as [-> (anchor & Hin & Hne)]; split; [reflexivity|];
        exists anchor; split; [now apply list_elem_of_further|exact Hne]
       |contradiction].
    destruct IH as [Hlen Hall]. split; [cbn [length]; now rewrite Hlen|].
    intros anchor Hin. apply elem_of_cons in Hin as [->|Hin];
      [now symmetry|now apply Hall].
Qed.

Lemma classifyCategories_outcome (v : vector) :
  forall (labelEmbeddings : list CategoryEmbeddings) (acc : Classifications),
    match classifyCategories v labelEmbeddings acc with
    | Ok _ => Forall (scorable v) labelEmbeddings
    | Throw e =>
        (e = DimensionMismatch \/ e = EmptyReduce) /\
        ~ Forall (scorable v) labelEmbeddings
    | Fuel => False
    end.
Proof.
  induction labelEmbeddings as [|ce rest IH]; intros acc;
    cbn [classifyCategories]; [constructor|].
  pose proof (similaritiesOf_outcome v ce) as Hs.
  destruct (similaritiesOf v ce) as [sims|e|]; cbn [obind];
    [|destruct Hs as [-> (anchor & Hin & Hne)]; split; [now left|];
      intros HF; apply Forall_cons in HF as [[_ Hdim] _];
      now apply Hne, Hdim
     |contradiction].
  destruct Hs as [Hlen Hdim].
  destruct sims as [|x xs]; cbn [bestMatchOf reduce1 obind].
  - split; [now right|]. intros HF. apply Forall_cons in HF as [[Hne _] _].
    apply Hne. destruct (ce_embeddings ce); [reflexivity|discriminate].
  - match goal with
    | |- context [classifyCategories v rest ?acc'] => specialize (IH acc')
    end.
    assert (Hce : scorable v ce).
    { split; [|exact Hdim]. intros E. rewrite E in Hlen. discriminate. }
    destruct (classifyCategories v rest _) as [c|e|]; [| |contradiction].
    + now constructor.
    + destruct IH as [He Hn]. split; [exact He|].
      intros HF. apply Forall_cons in HF as [_ HF]. now apply Hn.
Qed.

Lemma classifyCategories_returns (v : vector)
  (labelEmbeddings : list CategoryEmbeddings) (acc : Classifications) :
  Forall (scorable v) labelEmbeddings ->
  exists c, classifyCategories v labelEmbeddings acc = Ok c.
Proof.
  intros HF. pose proof (classifyCategories_outcome v labelEmbeddings acc) as H.
  destruct (classifyCategories v labelEmbeddings acc) as [c|e|];
    [eauto|now destruct H as [_ H]|contradiction].
Qed.

(** X11: the category loop of the bulk job succeeds on an item vector
    exactly when every category has at least one anchor and all its
    anchors have the dimension of the vector; otherwise it throws the
    dimension error of cosineSimilarity or the TypeError of reduce on
    an empty array (which the job catches and counts as a failed item). *)
Theorem classifyCategories_scorable (feedbackEmbedding : vector)
  (labelEmbeddings : list CategoryEmbeddings) (acc : Classifications) :
  ((exists c, classifyCategories feedbackEmbedding labelEmbeddings acc = Ok c)
   <-> Forall (scorable feedbackEmbedding) labelEmbeddings) /\
  (forall e, classifyCategories feedbackEmbedding labelEmbeddings acc = Throw e ->
             e = DimensionMismatch \/ e = EmptyReduce) /\
  classifyCategories feedbackEmbedding labelEmbeddings acc <> Fuel.
Proof.
  pose proof (classifyCategories_outcome feedbackEmbedding labelEmbeddings acc)
    as H.
  split; [split|split].
  - intros [c Hc]. now rewrite Hc in H.
  - apply classifyCategories_returns.
  - intros e He. rewrite He in H. now destruct H.
  - intros HF. now rewrite HF in H.
Qed.

(* ------------------------------------------------------------------ *)
(** ** The two classifiers agree *)
(* ------------------------------------------------------------------ *)

Lemma trackCategories_classifications (v : vector) :
  forall (labelEmbeddings : list CategoryEmbeddings) (t : Tracking),
    obind (trackCategories v labelEmbeddings t)
      (fun t' => Ok (tr_classifications t')) =
    classifyCategories v labelEmbeddings (tr_classifications t).
Proof.
  induction labelEmbeddings as [|ce rest IH]; intros t;
    cbn [trackCategories classifyCategories]; [reflexivity|].
  destruct (similaritiesOf v ce) as [sims|e|]; cbn [obind]; try reflexivity.
  destruct (bestMatchOf sims) as [best|e|]; cbn [obind]; try reflexivity.
  now rewrite IH.
Qed.

(** X12: on the same vector and anchors the single-item classifier
    and the category loop of the bulk job compute the same
    classifications and fail with the same exception: the bulk loop is
    the single-item classifier with the refinement flags dropped. *)
Theorem single_and_batch_agree (feedbackEmbedding : vector) (feedbackId : Z)
  (labelEmbeddings : list CategoryEmbeddings) :
  classifyCategories feedbackEmbedding labelEmbeddings ∅ =
  obind (classifyEmbedding feedbackEmbedding feedbackId labelEmbeddings)
    (fun r => Ok (classifications r)).
Proof.
  unfold classifyEmbedding.
  pose proof (trackCategories_classifications feedbackEmbedding labelEmbeddings
                (mkTracking ∅ 1.0%float false false)) as H.
  cbn [tr_classifications] in H. rewrite <- H.
  destruct (trackCategories _ _ _) as [t|e|]; reflexivity.
Qed.

Lemma classifyCategories_scorable_witness :
  Forall (scorable [1; 0]%float) anchors_demo.
Proof.
  apply (proj1 (proj1 (classifyCategories_scorable [1; 0]%float anchors_demo ∅))).
  eexists. vm_compute. reflexivity.
Defined.

(* ------------------------------------------------------------------ *)
(** ** A run in which every item is classified *)
(* ------------------------------------------------------------------ *)

Lemma pointwise_anchors_complete (ai : Ai) (E : string -> vector) (w : World) :
  embeds_pointwise ai E ->
  forall (j : nat) (d : LabelDefinition),
    LABEL_DEFINITIONS !! j = Some d ->
    anchors_complete (run_embed ai (length (ai_log w) + j) (def_labels d))
      (def_labels d).
Proof.
  intros Hai j d _. rewrite Hai. eexists. split; [reflexivity|].
  intros i Hi.
  apply (all_answered (def_labels d) (def_labels d) (fun t => Some (E t)) i);
    [eauto|exact Hi].
Qed.

Lemma pointwise_anchors_scorable (ai : Ai) (E : string -> vector) (w w1 : World)
  (labelEmbeddings : list CategoryEmbeddings) (v : vector) :
  embeds_pointwise ai E ->
  (forall t, length (E t) = length v) ->
  precomputeLabelEmbeddings ai w = (Ok labelEmbeddings, w1) ->
  Forall (scorable v) labelEmbeddings.
Proof.
  intros Hai Hdim Hpre.
  apply precomputeLoop_inv in Hpre as (ces & -> & HF & _ & Hfrom).
  cbn [app]. apply Forall_lookup. intros j ce Hce.
  destruct (Forall2_lookup_r _ _ _ _ _ HF Hce) as (d & Hd & _).
  destruct (category_of_definition d (list_elem_of_lookup_2 _ _ _ Hd))
    as [_ Hne].
  destruct (Hfrom j d Hd Hne) as (ce' & vs & Hce' & Hr & _ & Hlen & Hbind).
  rewrite Hce in Hce'. injection Hce' as <-.
  rewrite Hai in Hr. injection Hr as <-. split.
  - intros E0. rewrite E0 in Hlen. destruct (def_labels d); [now apply Hne|].
    discriminate.
  - intros anchor Ha. apply list_elem_of_lookup_1 in Ha as [i Hi].
    assert (Hil : (i < length (def_labels d))%nat)
      by (rewrite <- Hlen; eapply lookup_lt_Some; eauto).
    destruct (lookup_lt_is_Some_2 _ _ Hil) as [l Hl].
    destruct (Hbind i l Hl) as (v' & Hv' & Hanchor).
    rewrite Hi in Hanchor. injection Hanchor as ->. cbn [le_embedding].
    rewrite list_lookup_fmap, Hl in Hv'. injection Hv' as <-. apply Hdim.
Qed.

Lemma itemResults_all_some (labelEmbeddings : list CategoryEmbeddings)
  (E : string -> vector) (all : list FeedbackItem) :
  (forall t, Forall (scorable (E t)) labelEmbeddings) ->
  forall (items : list FeedbackItem) (i : nat),
    drop i all = items ->
    let rs := itemResults labelEmbeddings
                (map (fun it => Some (E (content it))) all) i items in
    count_some rs = length items /\ count_none rs = 0%nat /\
    map br_id (omap (fun x => x) rs) = map id items.
Proof.
  intros Hsc. induction items as [|item rest IH]; intros i Hdrop; cbn zeta.
  - repeat split.
  - assert (Hi : all !! i = Some item).
    { rewrite <- (Nat.add_0_r i), <- lookup_drop, Hdrop. reflexivity. }
    assert (Hrest : drop (S i) all = rest).
    { replace (S i) with (i + 1)%nat by lia.
      rewrite <- (drop_drop all 1 i), Hdrop. reflexivity. }
    destruct (IH (S i) Hrest) as (Hs & Hn & Hids). cbn zeta in Hs, Hn, Hids.
    destruct (classifyCategories_returns (E (content item)) labelEmbeddings ∅
                (Hsc (content item))) as [c Hc].
    assert (Hitem : itemResult labelEmbeddings
                      (map (fun it => Some (E (content it))) all) i item =
                    Some (mkBatchResult (id item) c)).
    { unfold itemResult. rewrite list_lookup_fmap, Hi. simpl. now rewrite Hc. }
    cbn [itemResults]. rewrite Hitem. unfold count_some, count_none in *.
    rewrite filter_cons_True by eauto.
    rewrite (filter_cons_False (fun x => x = None)) by discriminate.
    cbn [length omap list_omap map br_id]. rewrite Hs, Hn, Hids.
    repeat split.
Qed.

(** X13: with an embedding service that answers every request with
    one vector per text, all of one dimension, and a database that
    accepts every write, the bulk job classifies every item: it returns
    {classified: n, failed: 0} and appends one row per item, in input
    order, each under the id of its item. *)
Theorem uniform_service_classifies_all (feedbackItems : list FeedbackItem)
  (db : D1Database) (ai : Ai) (E : string -> vector) (w : World) :
  embeds_pointwise ai E ->
  (forall t1 t2, length (E t1) = length (E t2)) ->
  (forall k rows, write_fails db k rows = None) ->
  exists w',
    batchClassifyFeedback feedbackItems db ai w =
      (Ok (mkCounts (length feedbackItems) 0), w') /\
    map feedback_id (db_rows w') =
      map feedback_id (db_rows w) ++ map id feedbackItems.
Proof.
  intros Hai Hdim Hdb.
  destruct (precomputeLoop_complete ai LABEL_DEFINITIONS [] w
              (pointwise_anchors_complete ai E w Hai)) as (LE & w1 & Hpre).
  fold (precomputeLabelEmbeddings ai w) in Hpre.
  assert (Hsc : forall t, Forall (scorable (E t)) LE).
  { intros t. apply (pointwise_anchors_scorable ai E w w1 LE (E t) Hai);
      [intros t'; apply Hdim|exact Hpre]. }
  pose proof Hpre as Hw1. apply precompute_inv in Hw1 as [_ Hw1].
  pose proof (embedChunks_pointwise ai E feedbackItems Hai
                (S (length feedbackItems)) 0 [] w1 ltac:(lia)) as Hemb.
  rewrite drop_0 in Hemb. cbn [app] in Hemb.
  destruct (itemResults_all_some LE E feedbackItems Hsc feedbackItems 0
              (drop_0 _)) as (Hs & Hn & Hids).
  cbn zeta in Hs, Hn, Hids.
  unfold batchClassifyFeedback, bind. rewrite Hpre, Hemb.
  rewrite classifyLoop_results. cbn zeta.
  cbn [st_classified st_failed st_batchResults app Nat.add].
  rewrite Hs, Hn.
  match goal with
  | |- context [saveChunks db ?rs ?fuel 0 ?w2] =>
      destruct (saveChunks_returns db rs Hdb fuel 0 w2 ltac:(lia))
        as [w3 Hsave];
      rewrite Hsave; pose proof (saveChunks_rows db rs fuel 0 w2 w3 Hsave)
        as Hrows
  end.
  exists w3. split; [reflexivity|].
  rewrite Hrows. cbn [db_rows]. rewrite Hw1. cbn [db_rows].
  rewrite map_app. f_equal. cbn [skipn]. rewrite map_map.
  rewrite <- Hids. apply map_ext. reflexivity.
Qed.

Lemma uniform_service_classifies_all_witness :
  exists w',
    batchClassifyFeedback items4 db_ok ai_constant world0 =
      (Ok (mkCounts 4 0), w') /\
    map feedback_id (db_rows w') = [10; 11; 12; 13].
Proof.
  apply (uniform_service_classifies_all items4 db_ok ai_constant
           (fun _ => [1; 0]%float) world0).
  - intros k texts. reflexivity.
  - intros t1 t2. reflexivity.
  - intros k rows. reflexivity.
Defined.

(* ------------------------------------------------------------------ *)
(** ** An item whose vector has no magnitude *)
(* ------------------------------------------------------------------ *)

Lemma mapi_zero_scores (v : vector) :
  Num.strict_eq (magnitude v) 0%float = true ->
  forall (anchors : list LabelEmbedding) (i : nat),
    (forall anchor, anchor ∈ anchors ->
                    length (le_embedding anchor) = length v) ->
    mapi_throw
      (fun labelEmbed (_ : nat) =>
         obind (cosineSimilarity v (le_embedding labelEmbed))
           (fun s => Ok (mkScored (le_label labelEmbed) s)))
      i anchors =
    Ok (map (fun anchor => mkScored (le_label anchor) 0%float) anchors).
Proof.
  intros Hz. induction anchors as [|a l IH]; intros i Hdim;
    cbn [mapi_throw map]; [reflexivity|].
  unfold cosineSimilarity at 1.
  rewrite (proj2 (Nat.eqb_eq _ _) (eq_sym (Hdim a (list_elem_of_here _ _)))).
  cbn [negb]. rewrite Hz. cbn [orb obind].
  rewrite IH; [reflexivity|].
  intros anchor Ha. apply Hdim. now apply list_elem_of_further.
Qed.

Lemma fold_pickBest_zero (l : string) :
  forall (anchors : list LabelEmbedding),
    fold_left pickBest
      (map (fun anchor => mkScored (le_label anchor) 0%float) anchors)
      (mkScored l 0%float) = mkScored l 0%float.
Proof.
  induction anchors as [|a rest IH]; cbn [map fold_left]; [reflexivity|].
  exact IH.
Qed.

(** On a vector without magnitude every anchor scores 0 and the first
    label of the category wins. *)
Lemma zero_item_category (v : vector) (d : LabelDefinition)
  (ce : CategoryEmbeddings) (l : string) (ls : list string) :
  Num.strict_eq (magnitude v) 0%float = true ->
  anchors_of d ce ->
  def_labels d = l :: ls ->
  (forall anchor, anchor ∈ ce_embeddings ce ->
                  length (le_embedding anchor) = length v) ->
  exists sims,
    similaritiesOf v ce = Ok sims /\
    bestMatchOf sims = Ok (mkScored l 0%float).
Proof.
  intros Hz [_ Hlabels] Hd Hdim. rewrite Hd in Hlabels.
  unfold similaritiesOf. rewrite (mapi_zero_scores v Hz _ 0 Hdim).
  eexists. split; [reflexivity|].
  destruct (ce_embeddings ce) as [|a rest]; [discriminate|].
  injection Hlabels as Ha _. cbn [map bestMatchOf reduce1]. rewrite Ha.
  now rewrite fold_pickBest_zero.
Qed.

(** X14: an item whose vector has zero magnitude passes through the
    bulk classifier without error: every anchor scores exactly 0, the
    first label of each category wins, and the row written for it reads
    positive / critical / D1 / bug / high with every confidence NULL.
    The read path reports its urgency as 'high', yet the filter of the
    high-urgency count does not select it. *)
Theorem zero_magnitude_item_row (feedbackEmbedding : vector)
  (labelEmbeddings : list CategoryEmbeddings) (feedbackId : Z) :
  Forall2 anchors_of LABEL_DEFINITIONS labelEmbeddings ->
  dimensions_agree feedbackEmbedding labelEmbeddings ->
  Num.strict_eq (magnitude feedbackEmbedding) 0%float = true ->
  exists c,
    classifyCategories feedbackEmbedding labelEmbeddings ∅ = Ok c /\
    insertRow feedbackId c =
      mkRow feedbackId (Some "positive") None (Some "critical") None
        (Some "D1") None (Some "bug") None (Some "high") /\
    urgencyColumn (insertRow feedbackId c) = Some "high" /\
    isCriticalRow (insertRow feedbackId c) = false /\
    isHighRow (insertRow feedbackId c) = false.
Proof.
  intros HF Hdim Hz. unfold LABEL_DEFINITIONS in HF.
  repeat match goal with
         | H : Forall2 _ (_ :: _) _ |- _ =>
             apply Forall2_cons_inv_l in H as (? & ? & ? & H & ->)
         | H : Forall2 _ [] _ |- _ => apply Forall2_nil_inv_l in H as ->
         end.
  repeat match goal with
         | A : anchors_of (mkLabelDefinition ?c (?l :: ?ls)) ?ce |- _ =>
             let sims := fresh "sims" in
             let Hs := fresh "Hs" in
             let Hb := fresh "Hb" in
             let Hc := fresh "Hc" in
             destruct (zero_item_category feedbackEmbedding _ ce l ls Hz A
                         eq_refl) as (sims & Hs & Hb);
             [intros anchor Ha; apply (Hdim ce anchor);
              [repeat constructor|exact Ha]|];
             destruct A as [Hc _]; cbn [def_category] in Hc
         end.
  eexists. split.
  - cbn [classifyCategories].
    repeat match goal with
           | Hs : similaritiesOf _ ?ce = Ok ?sims,
             Hb : bestMatchOf ?sims = Ok _,
             Hc : ce_category ?ce = _ |- _ =>
               rewrite Hs; cbn [obind]; rewrite Hb; cbn [obind];
               rewrite Hc; clear Hs Hb Hc
           end.
    reflexivity.
  - repeat split; reflexivity.
Qed.

Lemma zero_magnitude_item_row_witness :
  exists c,
    classifyCategories [0; 0]%float anchors_demo ∅ = Ok c /\
    insertRow 7 c =
      mkRow 7 (Some "positive") None (Some "critical") None
        (Some "D1") None (Some "bug") None (Some "high") /\
    urgencyColumn (insertRow 7 c) = Some "high" /\
    isCriticalRow (insertRow 7 c) = false /\
    isHighRow (insertRow 7 c) = false.
Proof.
  apply (zero_magnitude_item_row [0; 0]%float anchors_demo 7).
  - exact anchors_demo_wellformed.
  - apply dimensions_agreeb_sound. reflexivity.
  - reflexivity.
Defined.

(* ------------------------------------------------------------------ *)
(** ** The router *)
(* ------------------------------------------------------------------ *)

Lemma startsWith_append (p : string) :
  forall s, JsString.startsWith s p = true -> exists tail, s = p +:+ tail.
Proof.
  unfold JsString.startsWith. induction p as [|c p IH]; intros s H.
  - exists s. reflexivity.
  - destruct s as [|c' s]; cbn [String.prefix] in H; [discriminate|].
    destruct (ascii_dec c c') as [->|Hne]; [|discriminate].
    destruct (IH s H) as [tail ->]. exists tail. reflexivity.
Qed.

Lemma split_feedback_path (tail : string) :
  JsString.split "/" ("/api/feedback/" +:+ tail) =
  "" :: "api" :: "feedback" :: JsString.split "/" tail.
Proof.
  change ("/api/feedback/" +:+ tail)
    with (String "/" (String "a" (String "p" (String "i" (String "/"
           (String "f" (String "e" (String "e" (String "d" (String "b"
           (String "a" (String "c" (String "k" (String "/" tail)))))))))))))).
  cbn [JsString.split Ascii.eqb Bool.eqb].
  destruct (JsString.split "/" tail) as [|w ws] eqn:E; [|reflexivity].
  destruct (split_head "/" tail) as (w & ws & Hs & _). congruence.
Qed.

Lemma path_id (path : string) :
  JsString.startsWith path "/api/feedback/" = true ->
  exists id rest,
    JsString.split "/" path !! 3%nat = Some id /\
    contains_char "/" id = false /\
    path = "/api/feedback/" +:+ id +:+ rest /\
    (rest = "" \/ exists r, rest = String "/" r).
Proof.
  intros H. apply startsWith_append in H as [tail ->].
  rewrite split_feedback_path.
  destruct (split_head "/" tail) as (w & ws & Hs & Hw & rest & Heq & Hrest).
  exists w, rest. rewrite Hs. split; [reflexivity|]. split; [exact Hw|].
  split; [now rewrite <- Heq|].
  destruct Hrest as [[-> _]|[r [-> _]]]; eauto.
Qed.

(** X15: whenever fetch hands a request to one of the three by-id
    handlers, the id it passes is defined, contains no slash, and is
    the text that follows "/api/feedback/" in the path up to the next
    slash or the end; getFeedbackById is reached by GET only and the
    two update handlers by PATCH only. *)
Theorem fetch_id_defined (method path : string) (oid : option string) :
  fetch method path = GetFeedbackById oid \/
  fetch method path = UpdateFeedbackStatus oid \/
  fetch method path = UpdateFeedbackIssue oid ->
  (exists id rest,
     oid = Some id /\
     contains_char "/" id = false /\
     path = "/api/feedback/" +:+ id +:+ rest /\
     (rest = "" \/ exists r, rest = String "/" r)) /\
  (fetch method path = GetFeedbackById oid -> method = "GET") /\
  (fetch method path <> GetFeedbackById oid -> method = "PATCH").
Proof.
  intros H.
  assert (Hcases :
            (JsString.startsWith path "/api/feedback/" = true /\
             method = "GET" /\
             fetch method path = GetFeedbackById (JsString.split "/" path !! 3%nat)) \/
            (JsString.startsWith path "/api/feedback/" = true /\
             method = "PATCH" /\
             (fetch method path = UpdateFeedbackStatus (JsString.split "/" path !! 3%nat) \/
              fetch method path = UpdateFeedbackIssue (JsString.split "/" path !! 3%nat)))).
  { revert H. unfold fetch.
    repeat match goal with
           | |- context [if ?c then _ else _] =>
               let E := fresh "E" in destruct c eqn:E
           end;
      intros [H|[H|H]]; try discriminate H;
      repeat match goal with
             | E : (_ && _)%bool = true |- _ =>
                 apply andb_true_iff in E as [? ?]
             end;
      repeat match goal with
             | E : String.eqb _ _ = true |- _ => apply String.eqb_eq in E
             end;
      auto 6. }
  destruct Hcases as [(Hpre & Hm & Hf)|(Hpre & Hm & Hf)].
  - split; [|split].
    + destruct (path_id path Hpre) as (id & rest & Hid & Hrest).
      exists id, rest. split; [|exact Hrest].
      rewrite Hf in H. destruct H as [H|[H|H]]; try discriminate H.
      injection H as <-. exact Hid.
    + intros _. exact Hm.
    + intros Hn. exfalso. apply Hn.
      destruct H as [H|[H|H]]; [exact H| |]; rewrite Hf in H; discriminate H.
  - split; [|split].
    + destruct (path_id path Hpre) as (id & rest & Hid & Hrest).
      exists id, rest. split; [|exact Hrest].
      destruct Hf as [Hf|Hf]; rewrite Hf in H;
        destruct H as [H|[H|H]]; try discriminate H;
        injection H as <-; exact Hid.
    + intros Hg. destruct Hf as [Hf|Hf]; rewrite Hf in Hg; discriminate Hg.
    + intros _. exact Hm.
Qed.

Lemma fetch_id_defined_witness :
  fetch "PATCH" "/api/feedback/42/status" = UpdateFeedbackStatus (Some "42") /\
  exists id rest,
    Some "42" = Some id /\
    contains_char "/" id = false /\
    "/api/feedback/42/status" = "/api/feedback/" +:+ id +:+ rest /\
    (rest = "" \/ exists r, rest = String "/" r).
Proof.
  split; [reflexivity|].
  apply (fetch_id_defined "PATCH" "/api/feedback/42/status" (Some "42")).
  right. left. reflexivity.
Defined.

(* ------------------------------------------------------------------ *)
(** ** The statement of getFeedback *)
(* ------------------------------------------------------------------ *)

Lemma count_char_append (c : ascii) (a b : string) :
  count_char c (a +:+ b) = (count_char c a + count_char c b)%nat.
Proof.
  induction a as [|x a IH]; [reflexivity|].
  rewrite append_cons. cbn [count_char]. rewrite IH. lia.
Qed.

Lemma addFilter_arity (x : option string) (clause : string)
  (st : string * list SqlValue) :
  count_char "?" clause = 1%nat ->
  count_char "?" (fst st) = length (snd st) ->
  count_char "?" (fst (addFilter x clause st)) =
  length (snd (addFilter x clause st)).
Proof.
  intros Hc Hst. unfold addFilter. destruct x as [v|]; [|exact Hst].
  destruct (JsString.truthy v); [|exact Hst].
  cbn [fst snd]. rewrite count_char_append, length_app, Hc, Hst. reflexivity.
Qed.

Lemma addFilter_query (x : option string) (clause : string)
  (st : string * list SqlValue) :
  fst (addFilter x clause st) =
  if match x with Some v => JsString.truthy v | None => false end
  then fst st +:+ clause else fst st.
Proof. unfold addFilter. destruct x as [v|]; [destruct (JsString.truthy v)|]; reflexivity. Qed.

(** X16: the statement getFeedback prepares always has as many bound
    parameters as its text has placeholders, and the text depends on
    the query string only through which filters are present: two
    requests that trigger the same conditions get the same SQL text,
    whatever the values (these only travel as bound parameters). *)
Theorem getFeedback_statement_arity (searchParams : gmap string string) :
  count_char "?" (fst (getFeedback_statement searchParams)) =
    length (snd (getFeedback_statement searchParams)) /\
  forall searchParams' : gmap string string,
    filterShape searchParams = filterShape searchParams' ->
    fst (getFeedback_statement searchParams) =
    fst (getFeedback_statement searchParams').
Proof.
  split.
  - unfold getFeedback_statement. cbn zeta. cbn [fst snd].
    match goal with
    | |- context [snd ?st ++ [_; _]] =>
        assert (Hst : count_char "?" (fst st) = length (snd st))
    end.
    { apply addFilter_arity; [reflexivity|].
      apply addFilter_arity; [reflexivity|].
      destruct (searchParams !! "is_issue") as [v|].
      - cbn [fst snd]. rewrite count_char_append, length_app.
        cbn [length]. f_equal.
        repeat (apply addFilter_arity; [reflexivity|]). reflexivity.
      - repeat (apply addFilter_arity; [reflexivity|]). reflexivity. }
    destruct (match searchParams !! "sort" with
              | Some s => String.eqb s "importance" | None => false end);
      rewrite count_char_append, length_app, Hst; reflexivity.
  - intros searchParams' Hshape.
    unfold filterShape in Hshape. cbn zeta in Hshape.
    injection Hshape as H1 H2 H3 H4 H5 H6 H7.
    unfold getFeedback_statement. cbn zeta. cbn [fst].
    rewrite H7. rewrite !addFilter_query.
    assert (H4' : is_Some (searchParams !! "is_issue") <->
                  is_Some (searchParams' !! "is_issue")).
    { split; intros Hs.
      - apply (bool_decide_eq_true_1 _). rewrite <- H4.
        now apply bool_decide_eq_true_2.
      - apply (bool_decide_eq_true_1 _). rewrite H4.
        now apply bool_decide_eq_true_2. }
    rewrite H5, H6.
    destruct (searchParams !! "is_issue") as [v|],
             (searchParams' !! "is_issue") as [v'|];
      try (exfalso; destruct H4' as [Ha Hb];
           first [now destruct (Ha ltac:(eauto))
                 |now destruct (Hb ltac:(eauto))]);
      cbn [fst snd]; rewrite ?addFilter_query, ?H1, ?H2, ?H3; reflexivity.
Qed.

Lemma getFeedback_statement_arity_witness :
  count_char "?"
    (fst (getFeedback_statement
            (<["source" := "github"]> (<["is_issue" := ""]> ∅)))) = 4%nat /\
  fst (getFeedback_statement
         (<["source" := "github"]> (<["is_issue" := ""]> ∅))) =
  fst (getFeedback_statement
         (<["source" := "x' OR 1=1 --"]> (<["is_issue" := "true"]> ∅))).
Proof.
  destruct (getFeedback_statement_arity
              (<["source" := "github"]> (<["is_issue" := ""]> ∅)))
    as [Harity Hsame].
  split; [rewrite Harity; reflexivity|].
  apply Hsame. reflexivity.
Defined.

(* ------------------------------------------------------------------ *)
(** ** Importance order and reported urgency *)
(* ------------------------------------------------------------------ *)

(** X17: the importance key of getFeedback ranks a row 3 exactly when
    the urgency column reports 'critical' and 2 exactly when the filter
    of the high-urgency count selects it (the two filters never select
    the same row); a row ranked 2 is reported 'high'.  The converse
    fails only for a raw 'critical' whose confidence does not compare
    (a NULL): it is reported 'high' but ranked 1. *)
Theorem importanceRank_urgency (row : ClassificationRow) :
  (importanceRank row = 3 <-> urgencyColumn row = Some "critical") /\
  (importanceRank row = 2 <-> isHighRow row = true) /\
  (isCriticalRow row = true -> isHighRow row = false) /\
  (importanceRank row = 2 -> urgencyColumn row = Some "high") /\
  (urgencyColumn row = Some "high" ->
   importanceRank row = 2 \/
   (importanceRank row = 1 /\ urgency row = Some "critical" /\
    Sql.le_real (urgency_confidence row) 0.5%float <> Some true)).
Proof.
  unfold importanceRank, urgencyColumn, isHighRow, isCriticalRow.
  destruct (urgency row) as [u|]; cbn [Sql.eq_text fmap option_fmap option_map];
    [|destruct (urgency_confidence row) as [c|];
      cbn [Sql.gt_real Sql.le_real fmap option_fmap option_map];
      [destruct (Num.gt c 0.5%float), (Num.le c 0.5%float)|];
      cbn; repeat split; intros; try discriminate; try lia; auto].
  destruct (String.eqb_spec u "critical") as [->|Hc].
  - change (String.eqb "critical" "high") with false.
    destruct (urgency_confidence row) as [c|];
      cbn [Sql.gt_real Sql.le_real fmap option_fmap option_map].
    + destruct (Num.gt c 0.5%float) eqn:Hgt, (Num.le c 0.5%float) eqn:Hle;
        [exfalso; unfold Num.gt, Num.le in *;
         pose proof (NumFacts.le_not_lt 0.5%float c Hle) as Hn;
         unfold Num.lt in Hn; congruence|..];
        cbn; repeat split; intros; try discriminate; try lia; auto.
    + cbn. repeat split; intros; try discriminate; try lia; auto.
  - cbn [Sql.and3 Sql.holds].
    assert (Hand : forall b, Sql.and3 (Some false) b = Some false)
      by (intros [[|]|]; reflexivity).
    rewrite ?Hand.
    destruct (String.eqb_spec u "high") as [->|Hh]; cbn;
      repeat split; intros; try discriminate; try lia; auto;
      exfalso; congruence.
Qed.

Lemma importanceRank_urgency_witness :
  urgencyColumn
    (mkRow 10 None None (Some "critical") (Some 0.5%float) None None None None
       None) = Some "high".
Proof.
  apply (proj1 (proj2 (proj2 (proj2
           (importanceRank_urgency
              (mkRow 10 None None (Some "critical") (Some 0.5%float) None None
                 None None None)))))).
  reflexivity.
Defined.

(* ------------------------------------------------------------------ *)
(** ** The handlers of the worker *)
(* ------------------------------------------------------------------ *)

Lemma embedChunks_not_fuel (ai : Ai) (items : list FeedbackItem) :
  forall (fuel i : nat) (all : list (option vector)) (w : World),
    (length items - i < fuel)%nat ->
    fst (embedChunks ai items fuel i all w) <> Fuel.
Proof.
  induction fuel as [|fuel IH]; intros i all w Hfuel; [lia|].
  cbn [embedChunks].
  destruct (Nat.ltb_spec i (length items)) as [Hi|Hi]; [|discriminate].
  unfold bind at 1. unfold ai_run_embed.
  destruct (run_embed ai (length (ai_log w)) _) as [r|e]; cbn [await];
    [|discriminate].
  unfold bind, lift.
  destruct (spread (data r)) as [vs|e|] eqn:Hs;
    [|discriminate|destruct (data r); discriminate].
  apply IH. unfold chunkSize. lia.
Qed.

Lemma saveChunks_not_fuel (db : D1Database) (results : list BatchResult) :
  forall (fuel i : nat) (w : World),
    (length results - i < fuel)%nat ->
    fst (saveChunks db results fuel i w) <> Fuel.
Proof.
  induction fuel as [|fuel IH]; intros i w Hfuel; [lia|].
  cbn [saveChunks].
  destruct (Nat.ltb_spec i (length results)) as [Hi|Hi]; [|discriminate].
  unfold bind, db_write.
  destruct (write_fails db (db_calls w) _); [discriminate|].
  apply IH. unfold saveChunkSize. lia.
Qed.

Lemma batchClassifyFeedback_not_fuel (feedbackItems : list FeedbackItem)
  (db : D1Database) (ai : Ai) (w : World) :
  fst (batchClassifyFeedback feedbackItems db ai w) <> Fuel.
Proof.
  unfold batchClassifyFeedback, bind.
  pose proof (precomputeLoop_world ai LABEL_DEFINITIONS [] w) as (Hpre & _).
  fold (precomputeLabelEmbeddings ai) in Hpre.
  destruct (precomputeLabelEmbeddings ai w) as [[LE|e|] w1]; cbn [fst] in *;
    [|discriminate|contradiction].
  pose proof (embedChunks_not_fuel ai feedbackItems (S (length feedbackItems))
                0 [] w1 ltac:(lia)) as Hemb.
  destruct (embedChunks ai feedbackItems (S (length feedbackItems)) 0 [] w1)
    as [[embs|e|] w2]; cbn [fst] in *; [|discriminate|contradiction].
  match goal with
  | |- context [saveChunks db ?r ?f 0 w2] =>
      pose proof (saveChunks_not_fuel db r f 0 w2 ltac:(lia)) as Hsave;
      destruct (saveChunks db r f 0 w2) as [[[]|e|] w3]
  end; cbn [fst] in *; [discriminate|discriminate|contradiction].
Qed.

Lemma batchClassifyFeedback_partition (feedbackItems : list FeedbackItem)
  (db : D1Database) (ai : Ai) (w w' : World) (counts : Counts) :
  batchClassifyFeedback feedbackItems db ai w = (Ok counts, w') ->
  (classified counts + failed counts = length feedbackItems)%nat.
Proof.
  intros Hjob.
  apply batchClassifyFeedback_inv in Hjob
    as (LE & embs & w1 & w2 & _ & _ & Hc & Hf & _).
  rewrite Hc, Hf, count_some_none. apply itemResults_length.
Qed.

(** X18: the handler of POST /api/classify never throws and its answer
    is fixed by the outcome of the SELECT and of the job.  When the
    SELECT fails, it answers 500 with the message of that error and
    makes no AI request and no write.  Otherwise the job runs on the
    selected rows (none when [results] is missing) and either returns
    counts or throws: counts are answered 200, carrying exactly those
    counts, whose sum is the reported total, the number of rows;
    an exception of the job is answered 500, carrying its message.
    In every case the table is only appended to. *)
Theorem classifyAllFeedback_responds
  (feedbackResult : settled (option (list FeedbackItem)))
  (db : D1Database) (ai : Ai) (w : World) :
  (forall e,
     feedbackResult = Rejected e ->
     classifyAllFeedback feedbackResult db ai w =
     (Ok (mkResponse 500
            (JObject [ ("success", JBool false);
                       ("error", JString "Failed to classify feedback");
                       ("message", JString (errorMessage e)) ])), w)) /\
  (forall results,
     feedbackResult = Resolved results ->
     let feedbackItems := resultsOrEmpty results in
     (forall counts w0,
        batchClassifyFeedback feedbackItems db ai w = (Ok counts, w0) ->
        classifyAllFeedback feedbackResult db ai w =
        (Ok (mkResponse 200
               (JObject
                  [ ("success", JBool true);
                    ("message", JString "Classification complete");
                    ("classified", JInt (Z.of_nat (classified counts)));
                    ("failed", JInt (Z.of_nat (failed counts)));
                    ("total", JInt (Z.of_nat (length feedbackItems))) ])), w0) /\
        (classified counts + failed counts = length feedbackItems)%nat) /\
     (forall e w0,
        batchClassifyFeedback feedbackItems db ai w = (Throw e, w0) ->
        classifyAllFeedback feedbackResult db ai w =
        (Ok (mkResponse 500
               (JObject [ ("success", JBool false);
                          ("error", JString "Failed to classify feedback");
                          ("message", JString (errorMessage e)) ])), w0)) /\
     fst (batchClassifyFeedback feedbackItems db ai w) <> Fuel) /\
  exists (resp : Response) (w' : World),
    classifyAllFeedback feedbackResult db ai w = (Ok resp, w') /\
    (status resp = 200 \/ status resp = 500) /\
    exists added, db_rows w' = db_rows w ++ added.
Proof.
  split; [|split].
  - intros e ->. reflexivity.
  - intros results -> feedbackItems. split; [|split].
    + intros counts w0 Hjob. split.
      * unfold classifyAllFeedback, try_catch, bind, lift, ret. cbn [await].
        fold feedbackItems. rewrite Hjob. reflexivity.
      * exact (batchClassifyFeedback_partition _ _ _ _ _ _ Hjob).
    + intros e w0 Hjob.
      unfold classifyAllFeedback, try_catch, bind, lift, ret. cbn [await].
      fold feedbackItems. rewrite Hjob. reflexivity.
    + apply batchClassifyFeedback_not_fuel.
  - unfold classifyAllFeedback, try_catch, bind, lift, ret.
    destruct feedbackResult as [results|e]; cbn [await].
    + pose proof (batchClassifyFeedback_not_fuel (resultsOrEmpty results) db ai w)
        as Hfuel.
      destruct (batchClassifyFeedback_extends (resultsOrEmpty results) db ai w)
        as [added Hadded].
      destruct (batchClassifyFeedback (resultsOrEmpty results) db ai w)
        as [[counts|e|] w0] eqn:Hjob; cbn [fst snd] in *; [| |contradiction];
        eexists _, w0; (split; [reflexivity|]); (split; [|eauto]);
        cbn [status]; auto.
    + eexists _, w. split; [reflexivity|]. split; [cbn [status]; auto|].
      exists []. now rewrite app_nil_r.
Qed.

Lemma classifyAllFeedback_responds_witness :
  (exists w0,
     classifyAllFeedback (Resolved (Some items4)) db_ok ai_chunk_down world0 =
     (Ok (mkResponse 500
            (JObject [ ("success", JBool false);
                       ("error", JString "Failed to classify feedback");
                       ("message", JString "rate limited") ])), w0)) /\
  (exists w0,
     classifyAllFeedback (Resolved (Some items4)) db_ok ai_constant world0 =
     (Ok (mkResponse 200
            (JObject
               [ ("success", JBool true);
                 ("message", JString "Classification complete");
                 ("classified", JInt 4);
                 ("failed", JInt 0);
                 ("total", JInt 4) ])), w0)).
Proof.
  split.
  - destruct (classifyAllFeedback_responds (Resolved (Some items4)) db_ok
                ai_chunk_down world0) as (_ & Hres & _).
    destruct (Hres (Some items4) eq_refl) as (_ & Hthrow & _).
    eexists. apply (Hthrow (ErrorInstance "Error" "rate limited")).
    vm_compute. reflexivity.
  - destruct (classifyAllFeedback_responds (Resolved (Some items4)) db_ok
                ai_constant world0) as (_ & Hres & _).
    destruct (Hres (Some items4) eq_refl) as (Hok & _).
    eexists. apply (Hok (mkCounts 4 0)).
    vm_compute. reflexivity.
Defined.

Lemma generateExecutiveSummary_returns (metrics : PrioritizedMetrics)
  (ai : Ai) (w : World) :
  exists s : string,
    generateExecutiveSummary metrics ai w =
    (Ok s, mkWorld (ai_log w ++ [CallChat (summaryPrompt metrics) 200])
             (db_calls w) (db_rows w)).
Proof.
  unfold generateExecutiveSummary, try_catch, bind, ai_run_chat, ret.
  destruct (run_chat ai (length (ai_log w)) (summaryPrompt metrics) 200);
    cbn [await]; eauto.
Qed.

(** X19: the handler of GET /api/summary answers 200 whenever the
    metrics were gathered, whether or not the completion model works:
    it makes exactly one completion request and a failure of the model
    only changes the summary text.  It answers 500, without any AI
    request, exactly when gathering the metrics fails. *)
Theorem getExecutiveSummary_responds (gathered : settled PrioritizedMetrics)
  (ai : Ai) (w : World) :
  exists (resp : Response) (w' : World),
    getExecutiveSummary gathered ai w = (Ok resp, w') /\
    db_calls w' = db_calls w /\ db_rows w' = db_rows w /\
    (forall metrics,
       gathered = Resolved metrics ->
       status resp = 200 /\
       ai_log w' = ai_log w ++ [CallChat (summaryPrompt metrics) 200] /\
       exists summary,
         fst (generateExecutiveSummary metrics ai w) = Ok summary /\
         body resp =
           JObject
             [ ("summary", JString summary);
               ("metrics", metricsJson (allTime metrics));
               ("recentMetrics",
                JObject [ ("7d", metricsJson (recent7d metrics));
                          ("30d", metricsJson (recent30d metrics)) ]) ]) /\
    (forall e,
       gathered = Rejected e ->
       w' = w /\
       resp = mkResponse 500
                (JObject
                   [ ("error", JString "Failed to generate executive summary");
                     ("message", JString (errorMessage e)) ])).
Proof.
  unfold getExecutiveSummary, try_catch, bind, lift, ret.
  destruct gathered as [metrics|e]; cbn [await].
  - destruct (generateExecutiveSummary_returns metrics ai w) as [summary Hs].
    rewrite Hs. eexists _, _. split; [reflexivity|].
    cbn [db_calls db_rows ai_log].
    split; [reflexivity|]. split; [reflexivity|]. split; [|intros e' [=]].
    intros metrics' [= <-]. split; [reflexivity|]. split; [reflexivity|].
    exists summary. rewrite Hs. split; reflexivity.
  - eexists _, w. split; [reflexivity|]. split; [reflexivity|].
    split; [reflexivity|]. split; [intros metrics [=]|].
    intros e' [= <-]. split; reflexivity.
Qed.

Lemma getExecutiveSummary_responds_witness :
  exists w',
    getExecutiveSummary (Resolved (metrics_with 0 3 9)) ai_chat_down world0 =
    (Ok (mkResponse 200
           (JObject
              [ ("summary",
                 JString "Unable to generate summary: model overloaded");
                ("metrics", metricsJson (allTime (metrics_with 0 3 9)));
                ("recentMetrics",
                 JObject
                   [ ("7d", metricsJson (recent7d (metrics_with 0 3 9)));
                     ("30d", metricsJson (recent30d (metrics_with 0 3 9))) ]) ])),
     w').
Proof.
  destruct (getExecutiveSummary_responds (Resolved (metrics_with 0 3 9))
              ai_chat_down world0) as (resp & w' & Hrun & _ & _ & Hok & _).
  destruct (Hok _ eq_refl) as (Hstatus & _ & summary & Hsum & Hbody).
  exists w'. rewrite Hrun. destruct resp as [st bd].
  cbn [status body] in Hstatus, Hbody. rewrite Hstatus, Hbody.
  vm_compute in Hsum. injection Hsum as <-. reflexivity.
Defined.

(** X20: the answer of updateFeedbackStatus is fixed by the payload.
    A payload that does not parse or is null is answered 500 without
    an UPDATE.  Otherwise the status property of the payload decides
    (it is missing when the payload is not an object): when it is the
    string 'resolved' or 'unresolved', exactly one UPDATE runs, binding
    that very string and the id of the route, answered 200 with that
    status when it succeeds and 500 when it fails; in every other case
    (no status, a value that is not a string, another word) the answer
    is 400 and no UPDATE runs.  The handler never throws. *)
Theorem updateFeedbackStatus_validates (run_fails : Update -> option thrown)
  (id : option string) (payload : settled Json) (log : list Update) :
  (payload = Resolved JNull \/ (exists e, payload = Rejected e) ->
   updateFeedbackStatus run_fails id payload log =
   (Ok (mkResponse 500 (JObject [("error", JString "Update failed")])), log)) /\
  (forall j st,
     payload = Resolved j ->
     destructure "status" j = Ok st ->
     (forall s,
        st = Some (JString s) ->
        s = "resolved" \/ s = "unresolved" ->
        let u := mkUpdate "status" (JString s) id in
        (run_fails u = None ->
         updateFeedbackStatus run_fails id payload log =
         (Ok (mkResponse 200
                (JObject [("success", JBool true); ("status", JString s)])),
          log ++ [u])) /\
        (forall e, run_fails u = Some e ->
           updateFeedbackStatus run_fails id payload log =
           (Ok (mkResponse 500 (JObject [("error", JString "Update failed")])),
            log ++ [u]))) /\
     ((forall s, st = Some (JString s) ->
                 s <> "resolved" /\ s <> "unresolved") ->
      updateFeedbackStatus run_fails id payload log =
      (Ok (mkResponse 400 (JObject [("error", JString "Invalid status")])),
       log))) /\
  (forall j,
     payload = Resolved j -> j <> JNull ->
     (forall fields, j <> JObject fields) ->
     destructure "status" j = Ok None) /\
  (forall fields,
     destructure "status" (JObject fields) =
     Ok (snd <$> List.find (fun f => String.eqb (fst f) "status") (rev fields))).
Proof.
  split; [|split; [|split]].
  - intros [->|[e ->]]; reflexivity.
  - intros j st -> Hst. unfold updateFeedbackStatus. cbn [await obind].
    rewrite Hst. split.
    + intros s -> Hs.
      assert (Hvalid : (String.eqb s "resolved" || String.eqb s "unresolved")%bool
                       = true)
        by (destruct Hs as [->| ->]; reflexivity).
      rewrite Hvalid. cbn [negb]. unfold db_run.
      change (default JNull (Some (JString s))) with (JString s).
      split.
      * intros Hr. now rewrite Hr.
      * intros e Hr. now rewrite Hr.
    + intros Hinvalid.
      assert (Hno : match st with
                    | Some (JString s) =>
                        (String.eqb s "resolved" || String.eqb s "unresolved")%bool
                    | _ => false
                    end = false).
      { destruct st as [[|b|z|x|s|items|fs]|]; try reflexivity.
        destruct (Hinvalid s eq_refl) as [H1 H2].
        apply String.eqb_neq in H1, H2. now rewrite H1, H2. }
      rewrite Hno. reflexivity.
  - intros j _ Hnull Hobj.
    destruct j as [|b|z|x|s|items|fields]; try reflexivity.
    + contradiction.
    + now destruct (Hobj fields).
  - reflexivity.
Qed.

Lemma updateFeedbackStatus_validates_witness :
  updateFeedbackStatus (fun _ => None) (Some "42")
    (Resolved (JObject [("status", JString "resolved")])) [] =
  (Ok (mkResponse 200
         (JObject [("success", JBool true); ("status", JString "resolved")])),
   [mkUpdate "status" (JString "resolved") (Some "42")]) /\
  updateFeedbackStatus (fun _ => None) (Some "42")
    (Resolved (JObject [("status", JString "done")])) [] =
  (Ok (mkResponse 400 (JObject [("error", JString "Invalid status")])), []) /\
  updateFeedbackStatus (fun _ => None) (Some "42") (Resolved JNull) [] =
  (Ok (mkResponse 500 (JObject [("error", JString "Update failed")])), []).
Proof.
  split; [|split].
  - destruct (updateFeedbackStatus_validates (fun _ => None) (Some "42")
                (Resolved (JObject [("status", JString "resolved")])) [])
      as (_ & Hst & _).
    destruct (Hst _ (Some (JString "resolved")) eq_refl eq_refl) as [Hvalid _].
    exact (proj1 (Hvalid "resolved" eq_refl (or_introl eq_refl)) eq_refl).
  - destruct (updateFeedbackStatus_validates (fun _ => None) (Some "42")
                (Resolved (JObject [("status", JString "done")])) [])
      as (_ & Hst & _).
    destruct (Hst _ (Some (JString "done")) eq_refl eq_refl) as [_ Hinvalid].
    apply Hinvalid. intros s [= <-]. split; discriminate.
  - destruct (updateFeedbackStatus_validates (fun _ => None) (Some "42")
                (Resolved JNull) []) as (Hnull & _).
    apply Hnull. now left.
Defined.

(** X21: updateFeedbackIssue performs no validation: every payload
    that parses to something other than null runs exactly one UPDATE of
    is_issue, binding 1 when the isIssue property is truthy and 0
    otherwise (also when the property is missing); only a payload that
    does not parse or is null leaves the table untouched, with a 500. *)
Theorem updateFeedbackIssue_binds_flag (run_fails : Update -> option thrown)
  (id : option string) (payload : settled Json) (log : list Update) :
  exists (resp : Response) (log' : list Update),
    updateFeedbackIssue run_fails id payload log = (Ok resp, log') /\
    ((exists j isIssue flag,
        payload = Resolved j /\ j <> JNull /\
        destructure "isIssue" j = Ok isIssue /\
        (flag = 1 /\ jsonTruthy isIssue = true \/
         flag = 0 /\ jsonTruthy isIssue = false) /\
        log' = log ++ [mkUpdate "is_issue" (JInt flag) id] /\
        (status resp = 200 \/ status resp = 500))
     \/
     (payload = Resolved JNull \/ exists e, payload = Rejected e) /\
     status resp = 500 /\ log' = log).
Proof.
  unfold updateFeedbackIssue.
  destruct payload as [j|e]; cbn [await obind].
  - destruct (destructure "isIssue" j) as [isIssue|e|] eqn:Hd.
    + assert (Hj : j <> JNull) by (intros ->; discriminate Hd).
      unfold db_run.
      destruct (run_fails _) as [e|];
        eexists _, _; (split; [reflexivity|]); left;
        exists j, isIssue, (if jsonTruthy isIssue then 1 else 0);
        (split; [reflexivity|]); (split; [exact Hj|]);
        (split; [exact Hd|]);
        (split; [destruct (jsonTruthy isIssue); auto|]);
        (split; [reflexivity|]); cbn [status]; auto.
    + destruct j; try discriminate Hd.
      eexists _, _. split; [reflexivity|]. right.
      split; [now left|]. split; reflexivity.
    + destruct j; discriminate Hd.
  - eexists _, _. split; [reflexivity|]. right.
    split; [right; eauto|]. split; reflexivity.
Qed.

(* ------------------------------------------------------------------ *)
(** ** The statements of the metrics queries *)
(* ------------------------------------------------------------------ *)

(** X22: every statement that prepareMetricsForSummary,
    getLatestCriticalFeedback and getTrendDataForSummary prepare binds
    exactly as many parameters as its text has placeholders, whether
    the dates are absent, empty or given; the batch of
    prepareMetricsForSummary always holds six statements. *)
Theorem summary_statements_arity (startDate endDate : option string) :
  let arity (st : string * list SqlValue) :=
    count_char "?" (fst st) = length (snd st) in
  length (prepareMetricsForSummary_statements startDate) = 6%nat /\
  Forall arity (prepareMetricsForSummary_statements startDate) /\
  arity getLatestCriticalFeedback_statement /\
  arity (getTrendDataForSummary_statement startDate endDate).
Proof.
  cbn zeta. split; [reflexivity|]. split; [|split].
  - destruct startDate as [[|c s]|]; repeat constructor.
  - reflexivity.
  - destruct startDate as [[|c s]|], endDate as [[|c' s']|]; reflexivity.
Qed.

(* ------------------------------------------------------------------ *)
(** ** Refinement by the completion model *)
(* ------------------------------------------------------------------ *)

(** X23: refineCriticalFeedback never throws and never touches the
    database: it makes exactly one completion request (max_tokens 200)
    and returns the response text when it is non-empty, the serialised
    response object when the text is missing or empty, and the text
    "Refinement failed: " followed by the error message when the
    request fails. *)
Theorem refineCriticalFeedback_never_throws (toFixed2 : number -> string)
  (stringify : ChatResponse -> string) (feedbackContent : string)
  (classifications : Classifications) (ai : Ai) (w : World) :
  let prompt := refinementPrompt toFixed2 feedbackContent classifications in
  exists s : string,
    refineCriticalFeedback toFixed2 stringify feedbackContent classifications
      ai w =
      (Ok s, mkWorld (ai_log w ++ [CallChat prompt 200])
               (db_calls w) (db_rows w)) /\
    (forall e,
       run_chat ai (length (ai_log w)) prompt 200 = Rejected e ->
       s = "Refinement failed: " +:+ errorMessage e) /\
    (forall r,
       run_chat ai (length (ai_log w)) prompt 200 = Resolved r ->
       (forall t, response r = Some t -> t <> "" -> s = t) /\
       (response r = None \/ response r = Some "" -> s = stringify r)).
Proof.
  cbn zeta.
  unfold refineCriticalFeedback, try_catch, bind, ai_run_chat, ret.
  destruct (run_chat ai (length (ai_log w))
              (refinementPrompt toFixed2 feedbackContent classifications) 200)
    as [r|e]; cbn [await].
  - eexists. split; [reflexivity|]. split; [intros e [=]|].
    intros r' [= <-]. unfold responseOrJson. split.
    + intros t -> Ht. destruct t; [contradiction|reflexivity].
    + intros [-> | ->]; reflexivity.
  - eexists. split; [reflexivity|]. split; [|intros r [=]].
    intros e' [= <-]. reflexivity.
Qed.

Lemma refineCriticalFeedback_never_throws_witness :
  fst (refineCriticalFeedback (fun _ => "0.50") (fun _ => "{}")
         "site is down" cls_zero_polarity ai_chat_down world0) =
  Ok "Refinement failed: model overloaded".
Proof.
  destruct (refineCriticalFeedback_never_throws (fun _ => "0.50")
              (fun _ => "{}") "site is down" cls_zero_polarity ai_chat_down
              world0) as (s & -> & Hfail & _).
  rewrite (Hfail _ eq_refl). reflexivity.
Defined.
